(** * Packet handlers of the game server (server/Commands.py)

    A shallow embedding of the stateful packet handlers of
    [server/Commands.py]: each handler becomes a function from the session
    (the in-memory save of one user) and the decoded request to an
    [outcome]: either an uncaught Python exception, or the new session
    together with what was persisted and what was sent on the socket.

    Python objects that the handlers share and mutate in place are kept in
    an explicit store: a gear dictionary holds a _reference_ to its rune
    list, and [dict.copy()] is shallow, so an equipped item and the
    inventory entry it was copied from point to the same rune list. *)

From stdpp Require Import base numbers option list strings gmap pretty.

Open Scope Z_scope.

(** ** Python containers *)

Section python.
Context {A : Type}.

(** [l[i]] for a Python list: negative indices count from the end, an
    index out of range raises [IndexError] (here [None]). *)
Definition py_index (l : list A) (i : Z) : option nat :=
  let n := Z.of_nat (length l) in
  let j := if bool_decide (i < 0) then i + n else i in
  if bool_decide (0 ≤ j < n) then Some (Z.to_nat j) else None.

Definition py_getitem (l : list A) (i : Z) : option A :=
  j ← py_index l i; l !! j.

Definition py_setitem (l : list A) (i : Z) (x : A) : option (list A) :=
  j ← py_index l i; Some (<[j:=x]> l).

(** [l[:d]]: a negative bound drops elements from the end. *)
Definition py_slice_to (l : list A) (d : Z) : list A :=
  if bool_decide (d < 0)
  then take (Z.to_nat (Z.of_nat (length l) + d)) l
  else take (Z.to_nat d) l.
End python.

(** A [dict] with integer keys, in insertion order: assigning to an
    existing key keeps its position. *)
Definition pydict (V : Type) := list (Z * V).

Fixpoint dict_set {V} (k : Z) (v : V) (d : pydict V) : pydict V :=
  match d with
  | [] => [(k, v)]
  | (k', v') :: d' =>
      if bool_decide (k' = k) then (k, v) :: d' else (k', v') :: dict_set k v d'
  end.

Fixpoint dict_get {V} (k : Z) (d : pydict V) : option V :=
  match d with
  | [] => None
  | (k', v') :: d' => if bool_decide (k' = k) then Some v' else dict_get k d'
  end.

(** ** The save document *)

(** Rune lists live in the store and are addressed by location. *)
Abbreviation loc := nat.
Abbreviation heap := (list (list Z)).

Definition alloc (h : heap) (v : list Z) : loc * heap := (length h, h ++ [v]).

(** [h[l][i] = v]; [IndexError] when [i] is past the end of the list. *)
Definition heap_set (h : heap) (l : loc) (i : nat) (v : Z) : option heap :=
  rs ← h !! l;
  if bool_decide (i < length rs)%nat then Some (<[l := <[i := v]> rs]> h) else None.

Definition heap_get (h : heap) (l : loc) (i : nat) : option Z :=
  rs ← h !! l; rs !! i.

(** [{"gearID", "tier", "runes", "colors"}]. The color list is never
    mutated in place by a handler (it is only rebound), so it is kept by
    value; the rune list is mutated in place and kept by reference. *)
Record Gear := mkGear {
  gearID : Z;
  tier : Z;
  runes : loc;
  colors : list Z
}.

Record Charm := mkCharm { charmID : Z; count : Z }.
Record Material := mkMaterial { materialID : Z; mat_count : Z }.
Record Consumable := mkConsumable { consumableID : Z; cons_count : Z }.

(** [char["magicForge"]]; a missing key reads as [0] / [False], which is
    what every [.get] of the handlers defaults to. *)
Record MagicForge := mkForge {
  hasSession : bool;
  primary : Z;
  secondary : Z;
  status : Z;
  duration : Z;
  var_8 : Z;
  usedlist : Z;
  var_2675 : Z;
  var_2316 : Z;
  var_2434 : bool
}.

Record GearSet := mkGearSet { gs_name : string; slots : list Z }.

Record MasteryNode := mkNode { nodeIdx : Z; filled : bool; points : Z }.

(** One entry of [player_data["characters"]]. A list-valued key that is
    missing from the JSON object reads as the empty list; [Mastery] is
    keyed by the class id ([str(mc)] in the JSON object). *)
Record Character := mkChar {
  name : string;
  equippedGears : list Gear;
  inventoryGears : list Gear;
  charms : list Charm;
  materials : list Material;
  consumables : list Consumable;
  magicForge : MagicForge;
  mammothIdols : Z;
  activeAbilities : list Z;
  gearSets : list GearSet;
  MasterClass : option Z;
  Mastery : gmap Z (list MasteryNode)
}.

Record Session := mkSession {
  current_character : string;
  characters : list Character;
  store : heap
}.

(** ** What a handler leaves behind *)

(** The calls made on the [BitBuffer] of a reply, in order. *)
Inductive field :=
| Bits (v w : Z)        (* write_bits(v, w), _append_bits(v, w) *)
| Method4 (v : Z)       (* write_method_4(v) *)
| Method6 (v w : Z)     (* write_method_6(v, w) *)
| Method91 (v : Z).     (* write_method_91(v) *)

Inductive packet :=
| Built (code : Z) (body : list field)   (* struct.pack(">HH", code, len) + payload *)
| Raw (raw_data : list Z).               (* sendall(raw_data) *)

(** How a handler ends. [Raised]: an exception before the save file is
    written, so that nothing is saved and nothing is sent.
    [RaisedAfterSave s]: the save file is written with the state [s],
    then an exception, before anything is sent. [Finished s saved sent]:
    the handler returns with the state [s]; [saved] tells whether the
    save file was written and [sent] lists the packets sent. *)
Inductive outcome :=
| Raised
| RaisedAfterSave (s : Session)
| Finished (s : Session) (saved : bool) (sent : list packet).

(** Whether the save file was written, and the packets sent. *)
Definition persisted (o : outcome) : bool :=
  match o with
  | Raised => false
  | RaisedAfterSave _ => true
  | Finished _ saved _ => saved
  end.

Definition replies (o : outcome) : list packet :=
  match o with
  | Raised | RaisedAfterSave _ => []
  | Finished _ _ sent => sent
  end.

(** The first character named like the session's current character. *)
Definition find_char (s : Session) : option (nat * Character) :=
  list_find (λ c, name c = current_character s) (characters s).

Definition put_char (s : Session) (i : nat) (c : Character) (h : heap) : Session :=
  {| current_character := current_character s;
     characters := <[i:=c]> (characters s);
     store := h |}.

(** [char[key] = v], one definition per key the handlers assign. *)
Definition set_equippedGears (v : list Gear) (c : Character) : Character :=
  mkChar (name c) v (inventoryGears c) (charms c) (materials c) (consumables c)
         (magicForge c) (mammothIdols c) (activeAbilities c) (gearSets c)
         (MasterClass c) (Mastery c).
Definition set_inventoryGears (v : list Gear) (c : Character) : Character :=
  mkChar (name c) (equippedGears c) v (charms c) (materials c) (consumables c)
         (magicForge c) (mammothIdols c) (activeAbilities c) (gearSets c)
         (MasterClass c) (Mastery c).
Definition set_charms (v : list Charm) (c : Character) : Character :=
  mkChar (name c) (equippedGears c) (inventoryGears c) v (materials c)
         (consumables c) (magicForge c) (mammothIdols c) (activeAbilities c)
         (gearSets c) (MasterClass c) (Mastery c).
Definition set_materials (v : list Material) (c : Character) : Character :=
  mkChar (name c) (equippedGears c) (inventoryGears c) (charms c) v
         (consumables c) (magicForge c) (mammothIdols c) (activeAbilities c)
         (gearSets c) (MasterClass c) (Mastery c).
Definition set_consumables (v : list Consumable) (c : Character) : Character :=
  mkChar (name c) (equippedGears c) (inventoryGears c) (charms c) (materials c)
         v (magicForge c) (mammothIdols c) (activeAbilities c) (gearSets c)
         (MasterClass c) (Mastery c).
Definition set_magicForge (v : MagicForge) (c : Character) : Character :=
  mkChar (name c) (equippedGears c) (inventoryGears c) (charms c) (materials c)
         (consumables c) v (mammothIdols c) (activeAbilities c) (gearSets c)
         (MasterClass c) (Mastery c).
Definition set_mammothIdols (v : Z) (c : Character) : Character :=
  mkChar (name c) (equippedGears c) (inventoryGears c) (charms c) (materials c)
         (consumables c) (magicForge c) v (activeAbilities c) (gearSets c)
         (MasterClass c) (Mastery c).
Definition set_activeAbilities (v : list Z) (c : Character) : Character :=
  mkChar (name c) (equippedGears c) (inventoryGears c) (charms c) (materials c)
         (consumables c) (magicForge c) (mammothIdols c) v (gearSets c)
         (MasterClass c) (Mastery c).
Definition set_gearSets (v : list GearSet) (c : Character) : Character :=
  mkChar (name c) (equippedGears c) (inventoryGears c) (charms c) (materials c)
         (consumables c) (magicForge c) (mammothIdols c) (activeAbilities c) v
         (MasterClass c) (Mastery c).
Definition set_MasterClass (v : Z) (c : Character) : Character :=
  mkChar (name c) (equippedGears c) (inventoryGears c) (charms c) (materials c)
         (consumables c) (magicForge c) (mammothIdols c) (activeAbilities c)
         (gearSets c) (Some v) (Mastery c).

(** ** Protocol constants

    [constants.py] is not part of the sources at hand: the handlers are
    parametric in the constants they import from it. *)
Class Constants := {
  MAX_SLOTS : Z;              (* EntType.MAX_SLOTS *)
  GEARTYPE_BITSTOSEND : Z;    (* GearType.GEARTYPE_BITSTOSEND *)
  const_176 : Z;              (* GearType.const_176 *)
  const_348 : Z;              (* GearType.const_348 *)
  const_101 : Z;              (* class_64.const_101 *)
  const_765 : Z;              (* class_1.const_765 *)
  class_1_const_254 : Z;
  const_264 : Z;              (* class_111.const_264: completed *)
  const_286 : Z;              (* class_111.const_286: in progress *)
  var_1415 : Z;               (* class_3.var_1415 *)
  var_2082 : Z;               (* class_3.var_2082 *)
  var_1374 : Z;               (* class_3.var_1374 *)
  var_1462 : Z;               (* class_3.var_1462 *)
  const_43 : Z;               (* class_118.const_43 *)
  CLASS_118_CONST_127 : Z;
  GAME_CONST_209 : Z;
  method_277 : Z → Z
}.

Section handlers.
Context {K : Constants}.

(** *** Equipment *)

Definition default_gear (l : loc) : Gear :=
  {| gearID := 0; tier := 0; runes := l; colors := [0; 0] |}.

(** [while len(eq) < n: eq.append({... "runes": [0, 0, 0] ...})], run for
    the [k] iterations it takes; every iteration builds a new rune list. *)
Fixpoint pad_slots (k : nat) (h : heap) (eq : list Gear) : heap * list Gear :=
  match k with
  | O => (h, eq)
  | S k' =>
      let '(l, h') := alloc h [0; 0; 0] in
      pad_slots k' h' (eq ++ [default_gear l])
  end.

Definition pad_to (n : Z) (h : heap) (eq : list Gear) : heap * list Gear :=
  pad_slots (Z.to_nat (n - Z.of_nat (length eq))) h eq.

Record GearRequest := mkGearReq {
  g_entity : Z;     (* read_method_4() *)
  g_prefix : Z;     (* read_bits(3) *)
  g_slot1 : Z;      (* read_bits(2 * (prefix + 1)) *)
  g_gear : Z        (* read_method_6(GEARTYPE_BITSTOSEND) *)
}.

Definition gear_echo (r : GearRequest) : packet :=
  Built 0x31 [Method4 (g_entity r); Bits (g_prefix r) 3;
              Bits (g_slot1 r) (2 * (g_prefix r + 1));
              Method6 (g_gear r) GEARTYPE_BITSTOSEND].

Definition handle_gear_packet (s : Session) (r : GearRequest) : outcome :=
  let gear_id := g_gear r in
  let slot := g_slot1 r - 1 in
  match find_char s with
  | None =>
      (* the save is written, then the log line reads the unbound [inv] *)
      RaisedAfterSave s
  | Some (ci, char) =>
      let inv := inventoryGears char in
      let '(h1, eq) := pad_to 6 (store s) (equippedGears char) in
      let '(h2, gear_data) :=
        match list_find (λ item, gearID item = gear_id) inv with
        | Some (_, item) => (h1, item)
        | None =>
            let '(l, h') := alloc h1 [0; 0; 0] in
            (h', {| gearID := gear_id; tier := 0; runes := l; colors := [0; 0] |})
        end in
      match py_setitem eq slot gear_data with
      | None => Raised
      | Some eq' =>
          let inv' :=
            if bool_decide (Exists (λ g, gearID g = gear_id) inv)
            then inv else inv ++ [gear_data] in
          Finished (put_char s ci
                      (set_inventoryGears inv' (set_equippedGears eq' char)) h2)
                   true [gear_echo r]
      end
  end.

(** *** Runes *)

Record RuneRequest := mkRuneReq {
  r_entity : Z;
  r_gear : Z;
  r_tier : Z;
  r_rune : Z;
  r_slot : Z
}.

(** The first charm [id]: [count += 1]; without one, a new entry. *)
Fixpoint charm_add (id : Z) (cs : list Charm) : list Charm :=
  match cs with
  | [] => [{| charmID := id; count := 1 |}]
  | c :: cs' =>
      if bool_decide (charmID c = id)
      then {| charmID := charmID c; count := count c + 1 |} :: cs'
      else c :: charm_add id cs'
  end.

(** The first charm [id]: [count -= 1], and [charms.remove(charm)] once
    the count is not positive. [list.remove] drops the first element
    equal to its argument, which is that very entry: an equal entry
    before it would have been the first charm [id]. *)
Fixpoint charm_take (id : Z) (cs : list Charm) : list Charm :=
  match cs with
  | [] => []
  | c :: cs' =>
      if bool_decide (charmID c = id)
      then if bool_decide (count c - 1 ≤ 0) then cs'
           else {| charmID := charmID c; count := count c - 1 |} :: cs'
      else c :: charm_take id cs'
  end.

(** The slot count is forced to [MAX_SLOTS - 1]: pad, then truncate. *)
Definition fit_slots (h : heap) (eq : list Gear) : heap * list Gear :=
  let desired_slots := MAX_SLOTS - 1 in
  let '(h', eq') := pad_to desired_slots h eq in
  (h', if bool_decide (desired_slots < Z.of_nat (length eq'))
       then py_slice_to eq' desired_slots else eq').

Definition rune_echo (r : RuneRequest) : packet :=
  Built 0xB0 [Method4 (r_entity r); Method6 (r_gear r) GEARTYPE_BITSTOSEND;
              Method6 (r_tier r) const_176; Method6 (r_rune r) const_101;
              Method6 (r_slot r) const_765].

(** [g["gearID"] == gear_id and g["tier"] == gear_tier] *)
Definition same_gear (gear_id gear_tier : Z) (g : Gear) : Prop :=
  gearID g = gear_id ∧ tier g = gear_tier.

#[global] Instance same_gear_dec gear_id gear_tier g :
  Decision (same_gear gear_id gear_tier g).
Proof. unfold same_gear. apply _. Defined.

(** The charm bookkeeping of a rune request, given the rune found in the
    slot before the write. *)
Definition rune_charms (r : RuneRequest) (old_rune : Z) (cs : list Charm)
  : list Charm :=
  if bool_decide (r_rune r = 96)
  then
    let cs1 := if bool_decide (old_rune ≠ 0 ∧ old_rune ≠ 96)
               then charm_add old_rune cs else cs in
    charm_take 96 cs1
  else charm_take (r_rune r) cs.

Definition handle_rune_packet (s : Session) (r : RuneRequest) : outcome :=
  match find_char s with
  | None => Finished s false []
  | Some (ci, char) =>
      let inv := inventoryGears char in
      let '(h0, eq) := fit_slots (store s) (equippedGears char) in
      let not_found :=
        Finished (put_char s ci (set_equippedGears eq char) h0) false [] in
      match list_find (same_gear (r_gear r) (r_tier r)) eq with
      | None => not_found
      | Some (_, g) =>
          if bool_decide (1 ≤ r_slot r ≤ 3) then
            let idx := Z.to_nat (r_slot r - 1) in
            match heap_get h0 (runes g) idx with
            | None => Raised
            | Some old_rune =>
                let new_rune :=
                  if bool_decide (r_rune r = 96) then 0 else r_rune r in
                match heap_set h0 (runes g) idx new_rune with
                | None => Raised
                | Some h1 =>
                    let cs := rune_charms r old_rune (charms char) in
                    (* Sync inventoryGears *)
                    match list_find (same_gear (r_gear r) (r_tier r)) inv with
                    | Some (_, item) =>
                        (* item["runes"][idx] = eq[slot]["runes"][idx] *)
                        match heap_get h1 (runes g) idx with
                        | None => Raised
                        | Some v =>
                            match heap_set h1 (runes item) idx v with
                            | None => Raised
                            | Some h2 =>
                                Finished
                                  (put_char s ci
                                     (set_charms cs (set_equippedGears eq char)) h2)
                                  true [rune_echo r]
                            end
                        end
                    | None =>
                        (* inv.append(eq[slot].copy()) *)
                        Finished
                          (put_char s ci
                             (set_charms cs
                                (set_inventoryGears (inv ++ [g])
                                   (set_equippedGears eq char))) h1)
                          true [rune_echo r]
                    end
                end
            end
          else not_found
      end
  end.

(** *** The bit reader *)

(** Modelled from the spec: [bitreader.BitReader] is not among the
    sources. The bits of a byte, most significant bit first ([n] of them,
    8 for a payload byte). *)
Fixpoint byte_bits (n : nat) (b : Z) : list bool :=
  match n with
  | O => []
  | S n' => byte_bits n' (b `div` 2) ++ [Z.odd b]
  end.

(** Modelled from the spec: [BitReader(raw_data[4:])], the bits of the
    payload that follows the 4-byte header. *)
Definition payload_bits (raw_data : list Z) : list bool :=
  drop 4 raw_data ≫= byte_bits 8.

(** Modelled from the spec: the unsigned integer a run of bits holds, most
    significant bit first. *)
Definition bits_value (bs : list bool) : Z :=
  fold_left (λ acc (b : bool), 2 * acc + (if b then 1 else 0)) bs 0.

(** Modelled from the spec: [BitReader.read_bits(n)], the spec's
    [readBits(n)]: the value of the next [n] bits and the bits left; it
    fails when fewer than [n] bits remain. [remaining_bits()] is the
    length of the bits left. *)
Definition read_bits (n : nat) (bits : list bool) : option (Z * list bool) :=
  if bool_decide (n ≤ length bits)%nat
  then Some (bits_value (take n bits), drop n bits) else None.

(** *** Hotbar *)

(** The decoding loop; each round reads at least one bit, so [fuel] equal
    to the number of bits is never used up. *)
Fixpoint hotbar_loop (fuel : nat) (bits : list bool) (slot : Z)
    (updates : pydict Z) : option (pydict Z) :=
  if bool_decide (length bits < 1)%nat then Some updates else
  match fuel with
  | O => None
  | S fuel' =>
      '(changed, bits1) ← read_bits 1 bits;
      if bool_decide (changed ≠ 0) then
        '(skill_id, bits2) ← read_bits 7 bits1;
        hotbar_loop fuel' bits2 (slot + 1) (dict_set (slot - 1) skill_id updates)
      else hotbar_loop fuel' bits1 (slot + 1) updates
  end.

(** [max(updates.keys(), default=-1)] *)
Definition max_key {V} (d : pydict V) : Z :=
  match d with
  | [] => -1
  | (k, _) :: d' => fold_left Z.max (d'.*1) k
  end.

(** [while len(active) <= max_idx: active.append(0)], for its [k] rounds. *)
Fixpoint grow (k : nat) (active : list Z) : list Z :=
  match k with
  | O => active
  | S k' => grow k' (active ++ [0])
  end.

(** [for idx, skill_id in updates.items(): active[idx] = skill_id] *)
Fixpoint apply_updates (updates : pydict Z) (active : list Z) : option (list Z) :=
  match updates with
  | [] => Some active
  | (idx, skill_id) :: updates' =>
      active' ← py_setitem active idx skill_id; apply_updates updates' active'
  end.

Definition handle_hotbar_packet (s : Session) (raw_data : list Z) : outcome :=
  let payload := payload_bits raw_data in
  match hotbar_loop (length payload) payload 1 [] with
  | None => Raised
  | Some updates =>
      match find_char s with
      | None => Finished s false []
      | Some (ci, char) =>
          let active := activeAbilities char in
          let max_idx := max_key updates in
          let active1 :=
            grow (Z.to_nat (max_idx + 1 - Z.of_nat (length active))) active in
          match apply_updates updates active1 with
          | None => Raised
          | Some active2 =>
              Finished (put_char s ci (set_activeAbilities active2 char) (store s))
                       true []
          end
      end
  end.

(** *** Mastery *)

(** [{ s["nodeIdx"] - 1: s for s in slots }] *)
Definition slot_map (slots : list MasteryNode) : pydict MasteryNode :=
  fold_left (λ d s, dict_set (nodeIdx s - 1) s d) slots [].

(** The body of [for i in range(total)], writing to the buffer [bb]. *)
Definition mastery_step (sm : pydict MasteryNode) (bb : list field) (i : Z)
  : list field :=
  match dict_get i sm with
  | Some slot =>
      if filled slot
      then bb ++ [Bits 1 1; Method6 (nodeIdx slot) CLASS_118_CONST_127;
                  Bits (points slot - 1) (method_277 i)]
      else bb ++ [Bits 0 1]
  | None => bb ++ [Bits 0 1]
  end.

Definition send_mastery_packet (s : Session) (entity_id : Z) : list packet :=
  match find_char s with
  | None => []
  | Some (_, char) =>
      let mc := default 1 (MasterClass char) in
      let slots := default [] (Mastery char !! mc) in
      let sm := slot_map slots in
      let total := const_43 in
      let bb := fold_left (mastery_step sm) (seqZ 0 total) [Method4 entity_id] in
      [Built 0xC1 bb]
  end.

Definition handle_masterclass_packet (s : Session) (entity_id master_class_id : Z)
  : outcome :=
  match find_char s with
  | None => Finished s false []
  | Some (ci, char) =>
      let s' := put_char s ci (set_MasterClass master_class_id char) (store s) in
      Finished s' true
        (Built 0xC3 [Method4 entity_id; Method6 master_class_id GAME_CONST_209]
         :: send_mastery_packet s' entity_id)
  end.

(** *** Gear sets *)

Definition set_slots (v : list Z) (g : GearSet) : GearSet :=
  {| gs_name := gs_name g; slots := v |}.

Definition handle_apply_gearset (s : Session) (raw_data : list Z) : outcome :=
  match read_bits (Z.to_nat const_348) (payload_bits raw_data) with
  | None => Raised
  | Some (slot_idx, _) =>
      match find_char s with
      | None => Finished s false []
      | Some (ci, char) =>
          let gs := gearSets char in
          if bool_decide (Z.of_nat (length gs) ≤ slot_idx) then Finished s false []
          else
            let eq := equippedGears char in
            if bool_decide (Z.of_nat (length eq) ≠ MAX_SLOTS - 1)
            then Finished s false []
            else
              let gear_ids := gearID <$> eq in
              let gs' := alter (set_slots gear_ids) (Z.to_nat slot_idx) gs in
              Finished (put_char s ci (set_gearSets gs' char) (store s)) true
                       [Raw raw_data]
      end
  end.

(** *** Magic forge *)

Definition magic_forge_packet (s : Session) (idols_to_spend : Z) : outcome :=
  match find_char s with
  | None => Finished s false []
  | Some (ci, char) =>
      let mf := magicForge char in
      let available := mammothIdols char in
      if hasSession mf && bool_decide (idols_to_spend ≤ available) then
        let mf' := mkForge (hasSession mf) (primary mf) (secondary mf) const_264 0
                           (var_8 mf) (usedlist mf) (var_2675 mf) (var_2316 mf)
                           (var_2434 mf) in
        let char' := set_magicForge mf'
                       (set_mammothIdols (available - idols_to_spend) char) in
        Finished (put_char s ci char' (store s)) true
          [Built 0xcd [Method6 (primary mf') class_1_const_254;
                       Method91 (var_2675 mf'); Method91 (var_2316 mf');
                       Bits 0 1]]
      else Finished s false []
  end.

Definition collect_forge_charm (s : Session) : outcome :=
  match find_char s with
  | None => Finished s false []
  | Some (ci, char) =>
      let mf := magicForge char in
      if negb (hasSession mf) then Finished s false []
      else
        let charm_id := primary mf in
        let cs := if bool_decide (charm_id ≤ 0) then charms char
                  else charm_add charm_id (charms char) in
        let mf' := mkForge false 0 0 0 0 (var_8 mf) 0 0 0 false in
        Finished (put_char s ci (set_magicForge mf' (set_charms cs char)) (store s))
                 true [Built 0xe3 []]
  end.

Record ForgeRequest := mkForgeReq {
  f_primary : Z;                 (* read_bits(class_1_const_254) *)
  f_materials : list (Z * Z);    (* the (mat_id, count) pairs, in wire order *)
  f_flags : list bool            (* the 4 consumable flags *)
}.

(** [materials_used[mat_id] = count] for each pair read. *)
Definition materials_used (r : ForgeRequest) : pydict Z :=
  fold_left (λ d '(mat_id, n), dict_set mat_id n d) (f_materials r) [].

Fixpoint use_material (mat_id used : Z) (mats : list Material) : list Material :=
  match mats with
  | [] => [{| materialID := mat_id; mat_count := 0 |}]
  | entry :: mats' =>
      if bool_decide (materialID entry = mat_id)
      then {| materialID := materialID entry;
              mat_count := Z.max 0 (mat_count entry - used) |} :: mats'
      else entry :: use_material mat_id used mats'
  end.

Fixpoint use_consumable (cid : Z) (cons : list Consumable) : list Consumable :=
  match cons with
  | [] => [{| consumableID := cid; cons_count := 0 |}]
  | entry :: cons' =>
      if bool_decide (consumableID entry = cid)
      then {| consumableID := consumableID entry;
              cons_count := Z.max 0 (cons_count entry - 1) |} :: cons'
      else entry :: use_consumable cid cons'
  end.

Definition consumable_ids : list Z := [var_1415; var_2082; var_1374; var_1462].

Definition start_forge_packet (s : Session) (r : ForgeRequest) : outcome :=
  match find_char s with
  | None => Finished s false []
  | Some (ci, char) =>
      let mats :=
        fold_left (λ m '(mat_id, used), use_material mat_id used m)
                  (materials_used r) (materials char) in
      let cons :=
        fold_left (λ c '(flag, cid), if flag : bool then use_consumable cid c else c)
                  (zip (f_flags r) consumable_ids) (consumables char) in
      let mf := magicForge char in
      let mf' := mkForge true (f_primary r) (secondary mf) const_286 60000
                         0 0 0 0 true in
      let char' := set_magicForge mf' (set_consumables cons (set_materials mats char)) in
      Finished (put_char s ci char' (store s)) true []
  end.

End handlers.

(** ** The other handlers of [Commands.py] *)

(** *** Magic forge: cancel (0xE1) *)

Definition cancel_forge_packet (s : Session) : outcome :=
  match find_char s with
  | None => Finished s false []
  | Some (ci, char) =>
      let mf' := mkForge false 0 0 0 0 0 0 0 0 false in
      Finished (put_char s ci (set_magicForge mf' char) (store s)) true []
  end.

(** *** Gear sets: create (0xC7) and name (0xC8) *)

(** [bytearray.decode('utf-8')] with its fallback to ['latin1'], Python's
    own codecs, are a parameter of the handler. *)
Class TextCodec := { decode_text : list Z → string }.

Definition set_name (v : string) (g : GearSet) : GearSet :=
  {| gs_name := v; slots := slots g |}.

(** [for _ in range(length): result_bytes.append(br.read_bits(8))] *)
Fixpoint read_bytes (n : nat) (bits : list bool) : option (list Z * list bool) :=
  match n with
  | O => Some ([], bits)
  | S n' =>
      '(b, bits1) ← read_bits 8 bits;
      '(bs, bits2) ← read_bytes n' bits1;
      Some (b :: bs, bits2)
  end.

Section more_handlers.
Context {K : Constants} {T : TextCodec}.

Definition handle_create_gearset (s : Session) (raw_data : list Z) : outcome :=
  match read_bits (Z.to_nat const_348) (payload_bits raw_data) with
  | None => Raised
  | Some (slot_idx, _) =>
      match find_char s with
      | None => Finished s false []
      | Some (ci, char) =>
          let gs := gearSets char in
          let gearset :=
            {| gs_name := "GearSet " +:+ pretty (slot_idx + 1);
               slots := replicate (Z.to_nat (MAX_SLOTS - 1)) 0 |} in
          let gs' :=
            if bool_decide (slot_idx < Z.of_nat (length gs))
            then <[Z.to_nat slot_idx := gearset]> gs
            else gs ++ [gearset] in
          Finished (put_char s ci (set_gearSets gs' char) (store s)) true
                   [Raw raw_data]
      end
  end.

Definition handle_name_gearset (s : Session) (raw_data : list Z) : outcome :=
  match read_bits 3 (payload_bits raw_data) with
  | None => Raised
  | Some (slot_idx, bits1) =>
      match read_bits 16 bits1 with
      | None => Raised
      | Some (len, bits2) =>
          if bool_decide (Z.of_nat (length bits2) `div` 8 < len)
          then Finished s false []
          else
            match read_bytes (Z.to_nat len) bits2 with
            | None => Raised
            | Some (result_bytes, _) =>
                let name := decode_text result_bytes in
                match find_char s with
                | None => Finished s false []
                | Some (ci, char) =>
                    let gs := gearSets char in
                    if bool_decide (slot_idx < Z.of_nat (length gs)) then
                      let gs' := alter (set_name name) (Z.to_nat slot_idx) gs in
                      Finished (put_char s ci (set_gearSets gs' char) (store s))
                               true [Raw raw_data]
                    else Finished s false []
                end
            end
      end
  end.

(** *** Equipment: bulk update (0x30) *)

(** Where the loop over the slots ends. *)
Inductive flags_read :=
| NotEnoughBits                      (* [return] from the handler *)
| ReaderFailed                       (* a read raises *)
| SlotUpdates (updates : pydict Z).

(** Modelled from the spec: [BitReader.read_method_6(w)], the spec's
    [readBoundedUint(width)], which is [readBits(width)]. *)
Definition read_method_6 (w : Z) (bits : list bool) : option (Z * list bool) :=
  read_bits (Z.to_nat w) bits.

(** [for slot in range(MAX_SLOTS - 1)]: the changed flag of a slot and,
    when it is set, the gear id for it; [updates[slot] = gear_id]. *)
Fixpoint read_slot_flags (slots : list Z) (bits : list bool) (updates : pydict Z)
  : flags_read :=
  match slots with
  | [] => SlotUpdates updates
  | slot :: slots' =>
      if bool_decide (Z.of_nat (length bits) < 1) then NotEnoughBits
      else
        match read_bits 1 bits with
        | None => ReaderFailed
        | Some (changed, bits1) =>
            if bool_decide (changed ≠ 0) then
              if bool_decide (Z.of_nat (length bits1) < GEARTYPE_BITSTOSEND)
              then NotEnoughBits
              else
                match read_method_6 GEARTYPE_BITSTOSEND bits1 with
                | None => ReaderFailed
                | Some (gear_id, bits2) =>
                    read_slot_flags slots' bits2 (dict_set slot gear_id updates)
                end
            else read_slot_flags slots' bits1 updates
        end
  end.

(** [for slot, gear_id in updates.items()]: the slot takes a copy of the
    first inventory item of that gear id (the copy is shallow: it refers
    to the item's rune list), or an empty item when there is none. *)
Fixpoint equip_updates (updates : pydict Z) (inv : list Gear) (h : heap)
    (eq : list Gear) : option (heap * list Gear) :=
  match updates with
  | [] => Some (h, eq)
  | (slot, gear_id) :: rest =>
      let '(h', gear) :=
        match list_find (λ item, gearID item = gear_id) inv with
        | Some (_, item) => (h, item)
        | None => let '(l, h') := alloc h [0; 0; 0] in (h', default_gear l)
        end in
      eq' ← py_setitem eq slot gear;
      equip_updates rest inv h' eq'
  end.

(** The handler from the point where [entity_id = br.read_method_4()]
    has been read: [bits] is what the reader then holds, the rest of the
    payload of [raw_data]. The entity id is only logged; a payload on
    which that first read fails raises there and is not covered. A
    [return] inside the loop leaves the padded slots in memory, unsaved. *)
Definition handle_update_equipment (s : Session) (raw_data : list Z)
    (bits : list bool) : outcome :=
  match find_char s with
  | None => Finished s false []
  | Some (ci, char) =>
      let inv := inventoryGears char in
      let '(h1, eq) := fit_slots (store s) (equippedGears char) in
      match read_slot_flags (seqZ 0 (MAX_SLOTS - 1)) bits [] with
      | NotEnoughBits =>
          Finished (put_char s ci (set_equippedGears eq char) h1) false []
      | ReaderFailed => Raised
      | SlotUpdates updates =>
          match equip_updates updates inv h1 eq with
          | None => Raised
          | Some (h2, eq') =>
              Finished (put_char s ci (set_equippedGears eq' char) h2) true
                       [Raw raw_data]
          end
      end
  end.

End more_handlers.

(** *** Dyes (0x111) and craft talents (0xD3) *)

(** The keys of a character that only the dye and the talent handlers
    use. They are kept beside the [Character] of the other handlers: one
    record per character of the save, in the order of [characters].
    [None] is an absent key ([char.get(key)] is [None]). *)
Record CharacterMore := mkMore {
  shirtColor : option Z;
  pantColor : option Z;
  craftTalentPoints : option (list Z)
}.

Record SessionMore := mkSessionMore {
  session : Session;
  more : list CharacterMore
}.

(** As [outcome]: [RaisedMore] is an exception before the save file is
    written, [RaisedAfterSaveMore sx] one after it, before anything is
    sent. *)
Inductive outcome_more :=
| RaisedMore
| RaisedAfterSaveMore (sx : SessionMore)
| FinishedMore (sx : SessionMore) (saved : bool) (sent : list packet).

Definition set_shirtColor (v : Z) (m : CharacterMore) : CharacterMore :=
  mkMore (Some v) (pantColor m) (craftTalentPoints m).
Definition set_pantColor (v : Z) (m : CharacterMore) : CharacterMore :=
  mkMore (shirtColor m) (Some v) (craftTalentPoints m).
Definition set_craftTalentPoints (v : list Z) (m : CharacterMore) : CharacterMore :=
  mkMore (shirtColor m) (pantColor m) (Some v).

Definition set_colors (v : list Z) (g : Gear) : Gear :=
  mkGear (gearID g) (tier g) (runes g) v.

(** [[(packed >> (i * 4)) & 0xF for i in range(5)]] *)
Definition talent_points (packed : Z) : list Z :=
  (λ i, Z.land (Z.shiftr packed (i * 4)) 0xF) <$> seqZ 0 5.

(** [packed] is what [br.read_method_9()] returned. *)
Definition allocate_talent_points (sx : SessionMore) (packed : Z) : outcome_more :=
  let points := talent_points packed in
  match find_char (session sx) with
  | None => FinishedMore sx false []
  | Some (ci, _) =>
      FinishedMore
        (mkSessionMore (session sx)
                       (alter (set_craftTalentPoints points) ci (more sx)))
        true []
  end.

(** The constants and the table of [constants.py] the dye handlers use. *)
Class DyeTable := {
  DyeType_BITS : Z;
  CHAR_COLOR_BITSTOSEND : Z;
  get_dye_color : Z → option Z
}.

(** [for slot, (d1, d2) in dyes_by_slot.items()]: the colors of the
    equipped item and of the first inventory item of its gear id are
    rebound to a new pair; without such an item the inventory gets a
    copy of the equipped one. A slot past the end is skipped; a negative
    slot is a Python index from the end. *)
Fixpoint dye_slots (dyes : pydict (Z * Z)) (eq inv : list Gear)
  : option (list Gear * list Gear) :=
  match dyes with
  | [] => Some (eq, inv)
  | (slot, (d1, d2)) :: rest =>
      if bool_decide (slot < Z.of_nat (length eq)) then
        g ← py_getitem eq slot;
        let g' := set_colors [d1; d2] g in
        eq' ← py_setitem eq slot g';
        let gear_id := gearID g' in
        let inv' :=
          match list_find (λ w, gearID w = gear_id) inv with
          | Some (j, w) => <[j := set_colors [d1; d2] w]> inv
          | None => inv ++ [g']
          end in
        dye_slots rest eq' inv'
      else dye_slots rest eq inv
  end.

Section dyes.
Context {K : Constants} {D : DyeTable}.

(** The fields of one slot: [gear = eq[slot - 1] if slot - 1 < len(eq)
    else None], and [d1, d2 = gear["colors"]], which raises unless the
    list has two entries. *)
Definition dye_slot_fields (eq : list Gear) (slot : Z) : option (list field) :=
  match eq !! Z.to_nat (slot - 1) with
  | Some gear =>
      match colors gear with
      | [d1; d2] => Some [Bits 1 1; Method6 d1 DyeType_BITS; Method6 d2 DyeType_BITS]
      | _ => None
      end
  | None => Some [Bits 0 1]
  end.

Definition color_fields (color : option Z) : list field :=
  match color with
  | Some c => [Bits 1 1; Method6 c CHAR_COLOR_BITSTOSEND]
  | None => [Bits 0 1]
  end.

(** [dyes_by_slot] is not read. *)
Definition send_dye_sync_packet (s : Session) (entity_id : Z)
    (dyes_by_slot : pydict (Z * Z)) (shirt_color pant_color : option Z)
  : option (list packet) :=
  let eq := match find_char s with
            | Some (_, char) => equippedGears char
            | None => []
            end in
  slot_fields ← mapM (dye_slot_fields eq) (seqZ 1 (MAX_SLOTS - 1));
  Some [Built 0x111 (Method4 entity_id :: concat slot_fields
                     ++ color_fields shirt_color ++ color_fields pant_color)].

(** The color a clothes dye sets: none when the dye is not given or its
    id is unknown. *)
Definition clothes_color (dye : option Z) : option Z := dye ≫= get_dye_color.

(** The save is written and the packet sent also when no character has
    the session's name. [preview_only] is not read. *)
Definition handle_apply_dyes (sx : SessionMore) (entity_id : Z)
    (dyes_by_slot : pydict (Z * Z)) (preview_only : bool)
    (primary_dye secondary_dye : option Z) : outcome_more :=
  let s := session sx in
  let updated :=
    match find_char s with
    | None => Some sx
    | Some (ci, char) =>
        '(eq, inv) ← dye_slots dyes_by_slot (equippedGears char) (inventoryGears char);
        let char' := set_inventoryGears inv (set_equippedGears eq char) in
        let shirt m := match clothes_color primary_dye with
                       | Some color => set_shirtColor color m
                       | None => m
                       end in
        let pant m := match clothes_color secondary_dye with
                      | Some color => set_pantColor color m
                      | None => m
                      end in
        Some (mkSessionMore (put_char s ci char' (store s))
                            (alter (λ m, pant (shirt m)) ci (more sx)))
    end in
  match updated with
  | None => RaisedMore
  | Some sx' =>
      let char_data := match find_char (session sx') with
                       | Some (ci, _) => more sx' !! ci
                       | None => None
                       end in
      let shirt_rgb := char_data ≫= shirtColor in
      let pant_rgb := char_data ≫= pantColor in
      match send_dye_sync_packet (session sx') entity_id dyes_by_slot
                                 shirt_rgb pant_rgb with
      | None => RaisedAfterSaveMore sx'
      | Some sent => FinishedMore sx' true sent
      end
  end.

End dyes.

(** ** Reading the save *)

(** The count a handler finds for a charm: that of the first entry. *)
Fixpoint charm_lookup (id : Z) (cs : list Charm) : option Z :=
  match cs with
  | [] => None
  | c :: cs' => if bool_decide (charmID c = id) then Some (count c) else charm_lookup id cs'
  end.

(** The units of a charm held over all entries of the list. *)
Fixpoint charm_total (id : Z) (cs : list Charm) : Z :=
  match cs with
  | [] => 0
  | c :: cs' => (if bool_decide (charmID c = id) then count c else 0) + charm_total id cs'
  end.

Fixpoint material_lookup (id : Z) (ms : list Material) : option Z :=
  match ms with
  | [] => None
  | m :: ms' =>
      if bool_decide (materialID m = id) then Some (mat_count m) else material_lookup id ms'
  end.

Fixpoint consumable_lookup (id : Z) (cs : list Consumable) : option Z :=
  match cs with
  | [] => None
  | c :: cs' =>
      if bool_decide (consumableID c = id) then Some (cons_count c)
      else consumable_lookup id cs'
  end.

(** The zero-tier, no-rune, no-dye item the equip handler makes up. *)
Definition placeholder (gear_id : Z) (l : loc) : Gear :=
  {| gearID := gear_id; tier := 0; runes := l; colors := [0; 0] |}.

(** An equipped item [e] has an inventory entry of the same gear id whose
    rune list and color list hold the same values. *)
Definition has_copy (h : heap) (inv : list Gear) (e : Gear) : Prop :=
  ∃ w rs, w ∈ inv ∧ gearID w = gearID e
          ∧ h !! runes w = Some rs ∧ h !! runes e = Some rs
          ∧ colors w = colors e.

(** Every equipped gear (a slot with gear id 0 is empty) has such an entry. *)
Definition synced (h : heap) (c : Character) : Prop :=
  ∀ e, e ∈ equippedGears c → gearID e ≠ 0 → has_copy h (inventoryGears c) e.

(** What the deduction leaves of a count: clamped at zero, and a
    zero-count entry for what was not held. *)
Definition deducted (used : Z) (held : option Z) : Z :=
  match held with
  | Some c => Z.max 0 (c - used)
  | None => 0
  end.

(** The node stored for tree index [i] (0-based): the entry whose
    [nodeIdx] is [i + 1]; were the list to hold several, the last one. *)
Definition tree_node (slots : list MasteryNode) (i : Z) : option MasteryNode :=
  last (filter (λ n, nodeIdx n - 1 = i) slots).

(** The encoding of node [i] as the spec words it: a presence bit, and for
    a present, filled node its index in the fixed width and [points - 1]
    in the width the width function gives for [i]. *)
Definition encode_node `{K : Constants} (slots : list MasteryNode) (i : Z)
  : list field :=
  match tree_node slots i with
  | Some n =>
      if filled n
      then [Bits 1 1; Method6 (nodeIdx n) CLASS_118_CONST_127;
            Bits (points n - 1) (method_277 i)]
      else [Bits 0 1]
  | None => [Bits 0 1]
  end.

(** The hotbar payload as the spec words it: for each declared slot one
    changed bit, followed by the 7 bits of the skill id when it is set.
    [None] is a slot whose bit is clear. *)
Definition hotbar_wire (declared : list (option Z)) : list bool :=
  declared ≫= λ o, match o with
                   | None => [false]
                   | Some skill_id => true :: byte_bits 7 skill_id
                   end.

(** One more than the highest flagged slot index; 0 when none is flagged. *)
Fixpoint flagged_top (declared : list (option Z)) : nat :=
  match declared with
  | [] => 0
  | o :: rest =>
      match flagged_top rest, o with
      | O, None => 0
      | O, Some _ => 1
      | S t, _ => S (S t)
      end
  end.

(** The updates the wire of [declared] decodes to, for slots numbered
    from [k]. *)
Fixpoint flagged_pairs (declared : list (option Z)) (k : nat) : pydict Z :=
  match declared with
  | [] => []
  | None :: rest => flagged_pairs rest (S k)
  | Some skill_id :: rest => (Z.of_nat k, skill_id) :: flagged_pairs rest (S k)
  end.

(** A skill id fits the 7 bits it is sent in. *)
Definition valid_skill (o : option Z) : Prop := ∀ id, o = Some id → 0 ≤ id < 128.

(** The flagged slots written over the stored hotbar, slot by slot. *)
Fixpoint overlay (declared : list (option Z)) (active : list Z) : list Z :=
  match declared, active with
  | [], _ => active
  | _ :: _, [] => []
  | o :: rest, x :: active' => default x o :: overlay rest active'
  end.

(** The rune written by a rune request: the remover token clears. *)
Definition written_rune (r : RuneRequest) : Z :=
  if bool_decide (r_rune r = 96) then 0 else r_rune r.

(** The rune lists a completed rune request writes to: that of the matched
    equipped item and that of the matched inventory entry, if any. *)
Definition touched (r : RuneRequest) (inv : list Gear) (g : Gear) : list loc :=
  runes g :: match list_find (same_gear (r_gear r) (r_tier r)) inv with
             | Some (_, item) => [runes item]
             | None => []
             end.

(** The same request with the remover token for rune id. *)
Definition remover_of (r : RuneRequest) : RuneRequest :=
  mkRuneReq (r_entity r) (r_gear r) (r_tier r) 96 (r_slot r).

(** Every rune list an item of [gs] refers to is in the store. *)
Definition stored (h : heap) (gs : list Gear) : Prop :=
  Forall (λ g, is_Some (h !! runes g)) gs.

(** The inventory entry a rune request matches, if any, holds the same
    runes and colors as the equipped item [g] it matches. *)
Definition matched_copy (h : heap) (r : RuneRequest) (inv : list Gear) (g : Gear)
  : Prop :=
  match list_find (same_gear (r_gear r) (r_tier r)) inv with
  | Some (_, item) =>
      ∃ rs, h !! runes item = Some rs ∧ h !! runes g = Some rs
            ∧ colors item = colors g
  | None => True
  end.

(** The weaker reading by gear id: some equipped item of gear [id] and
    some inventory entry of gear [id] hold the same runes and colors. *)
Definition gear_id_has_copy (h : heap) (c : Character) (id : Z) : Prop :=
  ∃ e w rs, e ∈ equippedGears c ∧ gearID e = id
            ∧ w ∈ inventoryGears c ∧ gearID w = id
            ∧ h !! runes w = Some rs ∧ h !! runes e = Some rs
            ∧ colors w = colors e.

(** Every gear set of the character has the standard number of slots. *)
Definition sets_sized `{K : Constants} (c : Character) : Prop :=
  Forall (λ g, Z.of_nat (length (slots g)) = MAX_SLOTS - 1) (gearSets c).

(** The payload of a name-gearset packet as the docstring of
    [handle_name_gearset] gives it: the set index on 3 bits, the length
    of the name on 16 bits, the bytes of the name. *)
Definition name_wire (slot_idx : Z) (bytes : list Z) : list bool :=
  byte_bits 3 slot_idx ++ byte_bits 16 (Z.of_nat (length bytes))
  ++ (bytes ≫= byte_bits 8).

(** The slot part of an update-equipment packet as the docstring of
    [handle_update_equipment] gives it: for each slot one changed bit,
    followed by the gear id in its fixed width when it is set. [None]
    is a slot whose bit is clear. *)
Definition equip_wire `{K : Constants} (declared : list (option Z)) : list bool :=
  declared ≫= λ o, match o with
                   | None => [false]
                   | Some gear_id =>
                       true :: byte_bits (Z.to_nat GEARTYPE_BITSTOSEND) gear_id
                   end.

(** A gear id fits the width it is sent in. *)
Definition valid_gear `{K : Constants} (o : option Z) : Prop :=
  ∀ id, o = Some id → 0 ≤ id < 2 ^ GEARTYPE_BITSTOSEND.

(** What a slot holds after the update [o] of the packet: [e] as
    before when the slot is not flagged; the first inventory item of the
    gear id when there is one; otherwise an empty item with a rune list
    of its own, made after the store [h0]. *)
Definition slot_after (h0 h : heap) (inv : list Gear) (o : option Z)
    (before after : option Gear) : Prop :=
  match o with
  | None => after = before
  | Some gear_id =>
      match list_find (λ item, gearID item = gear_id) inv with
      | Some (_, item) => after = Some item
      | None => ∃ l, after = Some (default_gear l) ∧ h !! l = Some [0; 0; 0]
                     ∧ (length h0 ≤ l)%nat
      end
  end.

(** A charm list as the handlers build it: one entry per charm id, and
    no entry with a count that is not positive. *)
Definition charms_ok (cs : list Charm) : Prop :=
  NoDup (charmID <$> cs) ∧ Forall (λ c, 0 < count c) cs.

(** Every item of [gs] refers to a rune list of three runes. *)
Definition three_runes (h : heap) (gs : list Gear) : Prop :=
  Forall (λ g, ∃ rs, h !! runes g = Some rs ∧ length rs = 3%nat) gs.

(** The gears of a character, equipped and in the inventory, all do. *)
Definition runes_whole (h : heap) (c : Character) : Prop :=
  three_runes h (equippedGears c) ∧ three_runes h (inventoryGears c).

(** Five 4-bit values in one integer as the docstring of
    [allocate_talent_points] gives it: index [i] at bits [4 i .. 4 i + 3]. *)
Definition pack_points (ps : list Z) : Z :=
  fold_right (λ p acc, p + 16 * acc) 0 ps.

(** What the dye packet says of the slot with index [i], from the
    equipped list before the request and the request itself: nothing for
    a slot the list does not have, the requested pair for a dyed slot,
    the pair the item held for any other. *)
Definition dyed_pair `{D : DyeTable} (dyes : pydict (Z * Z)) (eq : list Gear) (i : Z)
  : list field :=
  match eq !! Z.to_nat i with
  | None => [Bits 0 1]
  | Some g =>
      match default (colors g)
                    ((λ d : Z * Z, [d.1; d.2]) <$> dict_get i dyes) with
      | [d1; d2] => [Bits 1 1; Method6 d1 DyeType_BITS; Method6 d2 DyeType_BITS]
      | _ => []
      end
  end.

(** No gear id other than 0 (an empty slot) is worn in two slots. *)
Definition worn_once (eq : list Gear) : Prop :=
  ∀ i j id, (gearID <$> eq) !! i = Some id → (gearID <$> eq) !! j = Some id →
            id ≠ 0 → i = j.

(** ** A concrete save for the closed examples *)

(** A table of constants: [MAX_SLOTS] and [const_43] as the comments of
    [Commands.py] give them (6 slots, 27 slots), [const_348] the 3 bits of
    the docstring of [handle_apply_gearset]; the other entries are
    placeholders, the theorems hold for every table. *)
Definition sample_constants : Constants := {|
  MAX_SLOTS := 7; GEARTYPE_BITSTOSEND := 11; const_176 := 2; const_348 := 3;
  const_101 := 16; const_765 := 2; class_1_const_254 := 16;
  const_264 := 2; const_286 := 1;
  var_1415 := 1; var_2082 := 2; var_1374 := 3; var_1462 := 4;
  const_43 := 27; CLASS_118_CONST_127 := 5; GAME_CONST_209 := 4;
  method_277 := λ i, 1 + i `mod` 3
|}.

Definition no_forge : MagicForge := mkForge false 0 0 0 0 0 0 0 0 false.

Definition new_char (n : string) : Character :=
  mkChar n [] [] [] [] [] no_forge 0 [] [] None ∅.

Definition session_of (c : Character) (h : heap) : Session :=
  {| current_character := name c; characters := [c]; store := h |}.

Definition hero : Character := new_char "hero".

(** A save as loaded from disk (no two rune lists shared) in which gear 5
    sits in the first two equipped slots and once in the inventory. *)
Definition worn_twice : Character :=
  mkChar "hero"
    [mkGear 5 1 0 [0; 0]; mkGear 5 1 1 [0; 0]; default_gear 2; default_gear 3;
     default_gear 4; default_gear 5]
    [mkGear 5 1 6 [0; 0]]
    [] [] [] no_forge 0 [] [] None ∅.

Definition worn_twice_session : Session :=
  session_of worn_twice (replicate 7 [0; 0; 0]).

Definition socket_7 : RuneRequest := mkRuneReq 1 5 1 7 1.

(** Gear 5 equipped from the inventory within the session (one rune list
    shared), two units of rune 7 and one remover. *)
Definition runesmith : Character :=
  mkChar "hero" [mkGear 5 1 0 [0; 0]] [mkGear 5 1 0 [0; 0]]
    [mkCharm 7 2; mkCharm 96 1] [] [] no_forge 0 [] [] None ∅.

Definition runesmith_session : Session := session_of runesmith [[0; 0; 0]].

Definition equip_42 : GearRequest := mkGearReq 1 0 1 42.

Definition equip_6 : GearRequest := mkGearReq 1 0 1 6.

(** Six gears. *)
Definition six_gears : list Gear :=
  [mkGear 11 0 0 [0; 0]; mkGear 12 0 1 [0; 0]; mkGear 13 0 2 [0; 0];
   mkGear 14 0 3 [0; 0]; mkGear 15 0 4 [0; 0]; mkGear 16 0 5 [0; 0]].

(** Header of packet 0xC6 and one payload byte: set index 0. *)
Definition apply_set_0 : list Z := [0; 198; 0; 1; 0].

(** Five units of material 12; the forge is idle. *)
Definition crafter : Character :=
  mkChar "hero" [] [] [] [mkMaterial 12 5] [] no_forge 0 [] [] None ∅.

Definition forge_7 : ForgeRequest := mkForgeReq 7 [(12, 3)] [false; false; false; false].

(** The same stock and three units of consumable 2; the same request
    with the first two consumable flags set. *)
Definition stocked : Character :=
  mkChar "hero" [] [] [] [mkMaterial 12 5] [mkConsumable 2 3] no_forge 0 [] [] None ∅.

Definition forge_7_flagged : ForgeRequest :=
  mkForgeReq 7 [(12, 3)] [true; true; false; false].

(** A session on primary 7 in progress, and 10 idols. *)
Definition forging : Character :=
  mkChar "hero" [] [] [] [mkMaterial 12 2] []
    (mkForge true 7 0 1 60000 0 0 0 0 true) 10 [] [] None ∅.

(** One filled node (index 2, three points) in the tree of class 3. *)
Definition adept : Character :=
  mkChar "hero" [] [] [] [] [] no_forge 0 [] [] None
    {[ 3 := [mkNode 2 true 3] ]}.

(** Header and two payload bytes: slot 0 flagged with skill 5, then eight
    slots left alone. *)
Definition hotbar_skill_5 : list Z := [0; 0; 0; 2; 133; 0].

Definition caster : Character :=
  mkChar "hero" [] [] [] [] [] no_forge 0 [9; 8; 7] [] None ∅.

(** ** A concrete save for the further examples *)

(** Single-byte decoding, with which UTF-8 decoding agrees on bytes
    below 128. *)
Definition byte_text : TextCodec :=
  {| decode_text := λ bs,
       String.string_of_list_ascii ((λ b, Ascii.ascii_of_nat (Z.to_nat b)) <$> bs) |}.

(** Five units of material 12 and 10 idols; the forge is idle. *)
Definition patron : Character :=
  mkChar "hero" [] [] [] [mkMaterial 12 5] [] no_forge 10 [] [] None ∅.

(** Six gears, equipped from the inventory, and one gear set. *)
Definition outfitter : Character :=
  mkChar "hero" six_gears six_gears [] [] [] no_forge 0 []
    [mkGearSet "GearSet 1" [0; 0; 0; 0; 0; 0]] None ∅.

Definition outfitter_session : Session :=
  session_of outfitter (replicate 6 [0; 0; 0]).

(** Four of the six gears equipped, and the same gear set of six slots. *)
Definition four_worn : Character :=
  mkChar "hero" (take 4 six_gears) six_gears [] [] [] no_forge 0 []
    [mkGearSet "GearSet 1" [0; 0; 0; 0; 0; 0]] None ∅.

(** Header of packet 0xC7 and one payload byte: set index 1. *)
Definition create_set_1 : list Z := [0; 199; 0; 1; 32].

(** Header of packet 0xC6 and one payload byte: set index 1. *)
Definition apply_set_1 : list Z := [0; 198; 0; 1; 32].

(** Header of packet 0xC8; set index 0, two bytes, ["Hi"], five bits of
    padding. *)
Definition name_set_0 : list Z := [0; 200; 0; 5; 0; 0; 73; 13; 32].

(** Header of packet 0xC8; set index 0 and a declared length of five
    bytes, of which none follows. *)
Definition name_cut_short : list Z := [0; 200; 0; 3; 0; 0; 160].

(** Gear 12 into the first slot and gear 99, which the inventory does not
    hold, into the last one. *)
Definition swap_two : list (option Z) := [Some 12; None; None; None; None; Some 99].

(** One character, no key of the dye and talent handlers set but the
    pant color. *)
Definition outfitter_more : SessionMore :=
  mkSessionMore outfitter_session [mkMore None (Some 5) None].

(** A session whose name no character of the save has. *)
Definition ghost_more : SessionMore :=
  mkSessionMore {| current_character := "ghost"; characters := [hero]; store := [] |}
                [mkMore None None None].

(** Widths of 8 and 24 bits and a table that knows dye 3 only. *)
Definition sample_dyes : DyeTable := {|
  DyeType_BITS := 8; CHAR_COLOR_BITSTOSEND := 24;
  get_dye_color := λ d, if bool_decide (d = 3) then Some 0xFF0000 else None
|}.

(** Slot 1 dyed (7, 9), and a dye for slot 8, which is not there. *)
Definition dye_slot_1 : pydict (Z * Z) := [(1, (7, 9)); (8, (1, 1))].

(** Equip requests for gear 42 with [slot1] 0 and 9. *)
Definition equip_slot_0 : GearRequest := mkGearReq 1 0 0 42.
Definition equip_slot_9 : GearRequest := mkGearReq 1 1 9 42.

(** * Properties *)

Section properties.
Context {K : Constants}.

(** ** The character a handler works on *)

Lemma find_char_Some s ci char :
  find_char s = Some (ci, char) →
  characters s !! ci = Some char ∧ name char = current_character s.
Proof.
  unfold find_char. intros (Hl & Hn & _)%list_find_Some. done.
Qed.

Lemma find_char_put s ci char char' h :
  find_char s = Some (ci, char) → name char' = name char →
  find_char (put_char s ci char' h) = Some (ci, char').
Proof.
  unfold find_char. intros (Hl & Hn & Hb)%list_find_Some Hname. simpl.
  apply list_find_Some. split_and!.
  - apply list_lookup_insert_eq. by eapply lookup_lt_Some.
  - congruence.
  - intros j y Hj Hlt. rewrite list_lookup_insert_ne in Hj by lia. eauto.
Qed.

Lemma put_char_id s ci char :
  find_char s = Some (ci, char) → put_char s ci char (store s) = s.
Proof.
  intros [Hl _]%find_char_Some. destruct s as [n cs h]. unfold put_char. simpl in *.
  f_equal. by apply list_insert_id.
Qed.

(** ** Padding the equipped slots *)

Lemma pad_slots_eq k h eq :
  pad_slots k h eq =
  (h ++ replicate k [0; 0; 0], eq ++ (default_gear <$> seq (length h) k)).
Proof.
  revert h eq. induction k as [|k IH]; intros h eq; simpl.
  - by rewrite !app_nil_r.
  - rewrite IH. rewrite length_app. simpl. rewrite <- !app_assoc. simpl.
    by replace (length h + 1)%nat with (S (length h)) by lia.
Qed.

Lemma pad_to_store n h eq h' eq' :
  pad_to n h eq = (h', eq') → h `prefix_of` h'.
Proof.
  unfold pad_to. rewrite pad_slots_eq. intros [= <- <-]. by apply prefix_app_r.
Qed.

Lemma pad_to_prefix n h eq h' eq' :
  pad_to n h eq = (h', eq') → eq `prefix_of` eq'.
Proof.
  unfold pad_to. rewrite pad_slots_eq. intros [= <- <-]. by apply prefix_app_r.
Qed.

Lemma pad_to_length n h eq h' eq' :
  pad_to n h eq = (h', eq') →
  Z.of_nat (length eq') = Z.max n (Z.of_nat (length eq)).
Proof.
  unfold pad_to. rewrite pad_slots_eq. intros [= <- <-].
  rewrite length_app, length_fmap, length_seq. lia.
Qed.

Lemma pad_to_padding n h eq h' eq' e :
  pad_to n h eq = (h', eq') → e ∈ eq' →
  e ∈ eq ∨ (gearID e = 0 ∧ h' !! runes e = Some [0; 0; 0] ∧ (length h ≤ runes e)%nat).
Proof.
  unfold pad_to. rewrite pad_slots_eq. intros [= <- <-].
  rewrite elem_of_app. intros [?|Hin]; [by left|right].
  apply list_elem_of_fmap in Hin as (l & -> & Hl). apply elem_of_seq in Hl. simpl.
  split_and!; [done| |lia].
  rewrite lookup_app_r by lia. apply lookup_replicate_2. lia.
Qed.

Lemma fit_slots_store h eq h' eq' :
  fit_slots h eq = (h', eq') → h `prefix_of` h'.
Proof.
  unfold fit_slots. destruct (pad_to _ _ _) as [h1 eq1] eqn:Hp.
  intros [= <- <-]. by eapply pad_to_store.
Qed.

Lemma fit_slots_elem h eq h' eq' e :
  fit_slots h eq = (h', eq') → e ∈ eq' →
  e ∈ eq ∨ (gearID e = 0 ∧ h' !! runes e = Some [0; 0; 0] ∧ (length h ≤ runes e)%nat).
Proof.
  unfold fit_slots. destruct (pad_to _ _ _) as [h1 eq1] eqn:Hp.
  intros [= <- <-] Hin. eapply pad_to_padding; [done|].
  case_bool_decide; [|done]. unfold py_slice_to in Hin.
  case_bool_decide; by eapply subseteq_take.
Qed.

(** ** Single gear equip (0x31) *)

Lemma py_setitem_Some {A} (l : list A) (i : Z) x :
  0 ≤ i < Z.of_nat (length l) → py_setitem l i x = Some (<[Z.to_nat i := x]> l).
Proof.
  intros Hi. unfold py_setitem, py_index.
  rewrite (bool_decide_eq_false_2 (i < 0)) by lia.
  by rewrite bool_decide_eq_true_2 by lia.
Qed.

Lemma list_find_gear_None (P : Gear → Prop) `{!∀ g, Decision (P g)} (inv : list Gear) :
  Forall (λ g, ¬ P g) inv → list_find P inv = None.
Proof. intros HF. by apply list_find_None. Qed.

(** C3: an equip request for slot 1 and a gear id the inventory does not
    hold writes the placeholder [{gearID: g, tier: 0, runes: [0,0,0],
    colors: [0,0]}] at index 0 of the (padded) equipped list, appends the
    same item to the inventory, persists, and echoes the request's
    entity id, prefix, slot and gear id. *)
Theorem equip_unknown_gear_placeholder s r ci char :
  find_char s = Some (ci, char) →
  g_slot1 r = 1 →
  Forall (λ g, gearID g ≠ g_gear r) (inventoryGears char) →
  ∃ h' l,
    let ph := placeholder (g_gear r) l in
    let eq1 := (pad_to 6 (store s) (equippedGears char)).2 in
    handle_gear_packet s r =
      Finished (put_char s ci
                  (set_inventoryGears (inventoryGears char ++ [ph])
                     (set_equippedGears (<[0%nat := ph]> eq1) char)) h')
               true
               [Built 0x31 [Method4 (g_entity r); Bits (g_prefix r) 3;
                            Bits (g_slot1 r) (2 * (g_prefix r + 1));
                            Method6 (g_gear r) GEARTYPE_BITSTOSEND]]
    ∧ <[0%nat := ph]> eq1 !! 0%nat = Some ph
    ∧ h' !! l = Some [0; 0; 0]
    ∧ store s !! l = None.
Proof.
  intros Hf Hs Hinv. unfold handle_gear_packet. rewrite Hf.
  destruct (pad_to 6 (store s) (equippedGears char)) as [h1 eq1] eqn:Hp.
  rewrite (list_find_gear_None (λ item, gearID item = g_gear r)) by done.
  simpl. rewrite Hs. simpl.
  pose proof (pad_to_length _ _ _ _ _ Hp) as Hlen.
  rewrite py_setitem_Some by lia. simpl.
  rewrite bool_decide_eq_false_2.
  2:{ rewrite Exists_exists. intros (g & Hg & Hid).
      rewrite Forall_forall in Hinv. by apply (Hinv g). }
  exists (h1 ++ [[0; 0; 0]]), (length h1). split_and!.
  - unfold gear_echo, placeholder. by rewrite Hs.
  - apply list_lookup_insert_eq. lia.
  - by rewrite lookup_app_r, Nat.sub_diag by lia.
  - apply lookup_ge_None. apply pad_to_store in Hp. by apply prefix_length.
Qed.

(** ** Rune requests that name no rune slot *)

(** C10: a rune request whose rune slot is outside 1..3 changes nothing
    but the padding/truncation of the equipped list to [MAX_SLOTS - 1]
    slots (whose new slots get new rune lists): the rune lists already in
    the store, the charms and the inventory are as before, nothing is
    persisted and nothing is sent, whether or not a gear matches. *)
Theorem rune_slot_out_of_range_ignored s r :
  ¬ (1 ≤ r_slot r ≤ 3) →
  match find_char s with
  | None => handle_rune_packet s r = Finished s false []
  | Some (ci, char) =>
      ∃ h' eq',
        fit_slots (store s) (equippedGears char) = (h', eq')
        ∧ handle_rune_packet s r =
            Finished (put_char s ci (set_equippedGears eq' char) h') false []
        ∧ (∀ l rs, store s !! l = Some rs → h' !! l = Some rs)
        ∧ charms (set_equippedGears eq' char) = charms char
        ∧ inventoryGears (set_equippedGears eq' char) = inventoryGears char
  end.
Proof.
  intros Hslot. unfold handle_rune_packet.
  destruct (find_char s) as [[ci char]|] eqn:Hf; [|done].
  destruct (fit_slots (store s) (equippedGears char)) as [h' eq'] eqn:Hfit.
  exists h', eq'. split_and!; try done.
  - destruct (list_find (same_gear (r_gear r) (r_tier r)) eq') as [[i g]|]; [|done].
    by rewrite bool_decide_eq_false_2.
  - intros l rs Hl. apply fit_slots_store in Hfit.
    by eapply prefix_lookup_Some.
Qed.

(** ** Applying a gear set (0xC6) *)

Lemma bits_value_acc bs a :
  0 ≤ a → 0 ≤ fold_left (λ acc (b : bool), 2 * acc + (if b then 1 else 0)) bs a.
Proof.
  revert a. induction bs as [|b bs IH]; intros a Ha; simpl; [done|].
  apply IH. destruct b; lia.
Qed.

Lemma read_bits_nonneg n bits v rest :
  read_bits n bits = Some (v, rest) → 0 ≤ v.
Proof.
  unfold read_bits. case_bool_decide; [|done]. intros [= <- <-].
  by apply bits_value_acc.
Qed.

(** C9: on a save whose gear sets have the standard number of slots
    (the [MAX_SLOTS - 1] gear ids of a set, as the create and the apply
    handler write them), an apply request for the set at index [k]:
    when the set exists and its slot count equals the number of equipped
    slots, the handler returns with the save persisted and the request
    echoed, and the set then found in the save at index [k] holds the
    gear ids of [equippedGears], nothing else being changed; when the
    set exists and the two counts differ, or when there is no set at
    index [k], nothing is changed, persisted or sent. *)
Theorem apply_gearset_guard s raw_data k rest ci char :
  read_bits (Z.to_nat const_348) (payload_bits raw_data) = Some (k, rest) →
  find_char s = Some (ci, char) →
  sets_sized char →
  (∀ g, gearSets char !! Z.to_nat k = Some g →
        length (slots g) = length (equippedGears char) →
        ∃ s' char',
          handle_apply_gearset s raw_data = Finished s' true [Raw raw_data]
          ∧ find_char s' = Some (ci, char')
          ∧ gearSets char' =
              <[Z.to_nat k := set_slots (gearID <$> equippedGears char) g]>
                (gearSets char)
          ∧ s' = put_char s ci (set_gearSets (gearSets char') char) (store s))
  ∧ (∀ g, gearSets char !! Z.to_nat k = Some g →
        length (slots g) ≠ length (equippedGears char) →
        handle_apply_gearset s raw_data = Finished s false [])
  ∧ (gearSets char !! Z.to_nat k = None →
     handle_apply_gearset s raw_data = Finished s false []).
Proof.
  intros Hr Hf Hsized. pose proof (read_bits_nonneg _ _ _ _ Hr) as Hk.
  assert (∀ g, gearSets char !! Z.to_nat k = Some g →
               Z.of_nat (length (slots g)) = MAX_SLOTS - 1) as Hstd.
  { intros g Hg. unfold sets_sized in Hsized. rewrite Forall_forall in Hsized.
    apply Hsized. by eapply list_elem_of_lookup_2. }
  unfold handle_apply_gearset. rewrite Hr, Hf. split_and!.
  - intros g Hg Hlen. apply lookup_lt_Some in Hg as Hlt.
    pose proof (Hstd g Hg) as Hsix.
    rewrite bool_decide_eq_false_2 by lia.
    rewrite bool_decide_eq_false_2 by (intros ?; lia).
    eexists _, _. split; [reflexivity|].
    split; [by apply (find_char_put s ci char)|].
    cbn [gearSets set_gearSets]. split; [|done].
    apply list_eq. intros i.
    destruct (decide (i = Z.to_nat k)) as [->|Hne].
    + rewrite list_lookup_alter_eq, Hg. simpl.
      by rewrite list_lookup_insert_eq by lia.
    + rewrite list_lookup_alter_ne by done. by rewrite list_lookup_insert_ne by done.
  - intros g Hg Hlen. apply lookup_lt_Some in Hg as Hlt.
    pose proof (Hstd g Hg) as Hsix.
    rewrite bool_decide_eq_false_2 by lia.
    rewrite bool_decide_eq_true_2; [done|]. lia.
  - intros Hnone. apply lookup_ge_None in Hnone.
    by rewrite bool_decide_eq_true_2 by lia.
Qed.

(** ** Magic forge *)

(** C5: a speed-up request spending [spend] is accepted exactly when the
    forge has a session and the idol balance covers [spend]. Accepted:
    the balance is debited by [spend], the session's duration becomes 0
    and its status [const_264] (completed), the save is persisted and a
    0xCD forge update is sent. Otherwise nothing changes, nothing is
    persisted and nothing is sent. *)
Theorem speed_up_accepted_iff s spend ci char :
  find_char s = Some (ci, char) →
  let mf := magicForge char in
  (hasSession mf = true ∧ spend ≤ mammothIdols char →
   ∃ char',
     magic_forge_packet s spend =
       Finished (put_char s ci char' (store s)) true
         [Built 0xcd [Method6 (primary mf) class_1_const_254;
                      Method91 (var_2675 mf); Method91 (var_2316 mf); Bits 0 1]]
     ∧ mammothIdols char' = mammothIdols char - spend
     ∧ magicForge char' =
         mkForge true (primary mf) (secondary mf) const_264 0 (var_8 mf)
                 (usedlist mf) (var_2675 mf) (var_2316 mf) (var_2434 mf)
     ∧ char' = set_magicForge (magicForge char')
                 (set_mammothIdols (mammothIdols char') char))
  ∧ (¬ (hasSession mf = true ∧ spend ≤ mammothIdols char) →
     magic_forge_packet s spend = Finished s false []).
Proof.
  intros Hf mf. unfold magic_forge_packet. rewrite Hf. fold mf. split.
  - intros [Hs Hb]. rewrite Hs, bool_decide_eq_true_2 by done. simpl.
    eexists. split; [reflexivity|]. done.
  - intros Hn. destruct (hasSession mf) eqn:Hs; [|done].
    rewrite bool_decide_eq_false_2; [done|]. intros ?. by apply Hn.
Qed.

Lemma charm_add_lookup id id' cs :
  charm_lookup id' (charm_add id cs) =
  if bool_decide (id' = id) then Some (default 0 (charm_lookup id cs) + 1)
  else charm_lookup id' cs.
Proof.
  induction cs as [|c cs IH]; simpl.
  - repeat case_bool_decide; simplify_eq; done.
  - destruct (decide (charmID c = id)) as [Hc|Hc].
    + rewrite !(bool_decide_eq_true_2 (charmID c = id)) by done. simpl.
      repeat (case_bool_decide; simplify_eq); done.
    + rewrite !(bool_decide_eq_false_2 (charmID c = id)) by done. simpl.
      rewrite IH. repeat (case_bool_decide; simplify_eq); done.
Qed.

Lemma charm_add_total id id' cs :
  charm_total id' (charm_add id cs) =
  charm_total id' cs + (if bool_decide (id' = id) then 1 else 0).
Proof.
  induction cs as [|c cs IH]; simpl.
  - repeat case_bool_decide; simplify_eq; lia.
  - repeat (case_bool_decide; simpl; simplify_eq); rewrite ?IH; try lia.
    all: repeat case_bool_decide; simplify_eq; lia.
Qed.

Lemma charm_add_absent id cs :
  charm_lookup id cs = None → charm_add id cs = cs ++ [mkCharm id 1].
Proof.
  induction cs as [|c cs IH]; simpl; [done|].
  case_bool_decide; [done|]. intros H'. by rewrite IH.
Qed.

(** A session opened by [start_forge_packet] has [var_8 = 0], and a
    speed-up leaves [var_8] as it is. *)
Lemma start_forge_var_8 s r s' saved out ci char :
  find_char s = Some (ci, char) →
  start_forge_packet s r = Finished s' saved out →
  ∃ char', find_char s' = Some (ci, char')
           ∧ hasSession (magicForge char') = true
           ∧ var_8 (magicForge char') = 0.
Proof.
  intros Hf. unfold start_forge_packet. rewrite Hf. intros [= <- <- <-].
  eexists. split; [by apply (find_char_put s ci char)|done].
Qed.

Lemma speed_up_var_8 s spend s' saved out ci char :
  find_char s = Some (ci, char) →
  magic_forge_packet s spend = Finished s' saved out →
  ∃ char', find_char s' = Some (ci, char')
           ∧ var_8 (magicForge char') = var_8 (magicForge char).
Proof.
  intros Hf. unfold magic_forge_packet. rewrite Hf.
  destruct (_ && _); intros [= <- <- <-].
  - eexists. split; [by apply (find_char_put s ci char)|done].
  - by exists char.
Qed.

(** C6: collecting while the forge has a session grants one unit of the
    session's primary id when that id is positive (the first entry of
    that charm gains one unit, or a new entry with count 1 is appended
    when there is none) and leaves the charms alone otherwise; in both
    cases [hasSession], [primary], [secondary], [duration], [status],
    [usedlist], [var_2675], [var_2316] and [var_2434] are reset to 0 /
    false, the save is persisted and the empty 0xe3 packet is sent. The
    handler does not assign [var_8]; it is 0 in every session opened by
    [start_forge_packet], and then every field is at its default. *)
Theorem collect_grants_and_clears s ci char :
  find_char s = Some (ci, char) →
  hasSession (magicForge char) = true →
  let p := primary (magicForge char) in
  ∃ cs mf',
    collect_forge_charm s =
      Finished (put_char s ci (set_magicForge mf' (set_charms cs char)) (store s))
               true [Built 0xe3 []]
    ∧ mf' = mkForge false 0 0 0 0 (var_8 (magicForge char)) 0 0 0 false
    ∧ (var_8 (magicForge char) = 0 → mf' = no_forge)
    ∧ (p ≤ 0 → cs = charms char)
    ∧ (0 < p →
       (∀ id, charm_lookup id cs =
              if bool_decide (id = p)
              then Some (default 0 (charm_lookup p (charms char)) + 1)
              else charm_lookup id (charms char))
       ∧ (∀ id, charm_total id cs =
                charm_total id (charms char) + (if bool_decide (id = p) then 1 else 0))
       ∧ (charm_lookup p (charms char) = None →
          cs = charms char ++ [mkCharm p 1])).
Proof.
  intros Hf Hs p. unfold collect_forge_charm. rewrite Hf, Hs. simpl. fold p.
  eexists _, _. split; [reflexivity|]. split; [reflexivity|]. split_and!.
  - intros Hv. by rewrite Hv.
  - intros Hp. by rewrite bool_decide_eq_true_2.
  - intros Hp. rewrite bool_decide_eq_false_2 by lia. split_and!.
    + intros id. apply charm_add_lookup.
    + intros id. apply charm_add_total.
    + apply charm_add_absent.
Qed.

(** *** Starting a session (0xB1) *)

Lemma dict_get_None {V} k (d : pydict V) : k ∉ d.*1 → dict_get k d = None.
Proof.
  induction d as [|[k' v'] d IH]; simpl; [done|].
  rewrite not_elem_of_cons. intros [Hne Hnin].
  rewrite bool_decide_eq_false_2 by done. by apply IH.
Qed.

Lemma dict_set_keys {V} k (v : V) (d : pydict V) :
  (dict_set k v d).*1 = if bool_decide (k ∈ d.*1) then d.*1 else d.*1 ++ [k].
Proof.
  induction d as [|[k' v'] d IH]; [done|].
  cbn [dict_set]. destruct (decide (k' = k)) as [->|Hne].
  - rewrite bool_decide_eq_true_2 by done. cbn.
    rewrite bool_decide_eq_true_2; [done|]. by left.
  - rewrite (bool_decide_eq_false_2 (k' = k)) by done. cbn. rewrite IH.
    destruct (decide (k ∈ d.*1)) as [Hin|Hnin].
    + rewrite (bool_decide_eq_true_2 (k ∈ d.*1)) by done.
      rewrite bool_decide_eq_true_2; [done|]. by right.
    + rewrite (bool_decide_eq_false_2 (k ∈ d.*1)) by done.
      rewrite bool_decide_eq_false_2; [done|].
      intros [?|?]%elem_of_cons; congruence.
Qed.

Lemma dict_set_NoDup {V} k (v : V) (d : pydict V) :
  NoDup d.*1 → NoDup (dict_set k v d).*1.
Proof.
  intros Hd. rewrite dict_set_keys. case_bool_decide; [done|].
  apply NoDup_app. split_and!; [done| |apply NoDup_singleton].
  intros x Hx ->%list_elem_of_singleton. done.
Qed.

Lemma materials_used_NoDup r : NoDup (materials_used r).*1.
Proof.
  unfold materials_used. generalize (f_materials r). intros l.
  assert (NoDup ([] : pydict Z).*1) as H0 by constructor.
  revert H0. generalize ([] : pydict Z).
  induction l as [|[k n] l IH]; intros d Hd; simpl; [done|].
  apply IH. by apply dict_set_NoDup.
Qed.

Lemma use_material_lookup id mat_id used ms :
  material_lookup id (use_material mat_id used ms) =
  if bool_decide (id = mat_id) then Some (deducted used (material_lookup mat_id ms))
  else material_lookup id ms.
Proof.
  induction ms as [|m ms IH]; simpl.
  - repeat case_bool_decide; simplify_eq; done.
  - destruct (decide (materialID m = mat_id)) as [Hc|Hc].
    + rewrite !(bool_decide_eq_true_2 (materialID m = mat_id)) by done. simpl.
      repeat (case_bool_decide; simplify_eq); done.
    + rewrite !(bool_decide_eq_false_2 (materialID m = mat_id)) by done. simpl.
      rewrite IH. repeat (case_bool_decide; simplify_eq); done.
Qed.

Lemma use_materials_lookup id (d : pydict Z) ms :
  NoDup d.*1 →
  material_lookup id
    (fold_left (λ m '(mat_id, used), use_material mat_id used m) d ms) =
  match dict_get id d with
  | Some used => Some (deducted used (material_lookup id ms))
  | None => material_lookup id ms
  end.
Proof.
  revert ms. induction d as [|[k u] d IH]; intros ms Hd; simpl; [done|].
  apply NoDup_cons in Hd as [Hk Hd]. rewrite IH by done.
  rewrite use_material_lookup. case_bool_decide as Hid; simplify_eq.
  - rewrite bool_decide_eq_true_2 by done. by rewrite dict_get_None.
  - by rewrite bool_decide_eq_false_2 by done.
Qed.

Lemma use_consumable_lookup id cid cs :
  consumable_lookup id (use_consumable cid cs) =
  if bool_decide (id = cid) then Some (deducted 1 (consumable_lookup cid cs))
  else consumable_lookup id cs.
Proof.
  induction cs as [|c cs IH]; simpl.
  - repeat case_bool_decide; simplify_eq; done.
  - destruct (decide (consumableID c = cid)) as [Hc|Hc].
    + rewrite !(bool_decide_eq_true_2 (consumableID c = cid)) by done. simpl.
      repeat (case_bool_decide; simplify_eq); done.
    + rewrite !(bool_decide_eq_false_2 (consumableID c = cid)) by done. simpl.
      rewrite IH. repeat (case_bool_decide; simplify_eq); done.
Qed.

Lemma use_consumables_lookup id (l : list (bool * Z)) cs :
  NoDup l.*2 →
  consumable_lookup id
    (fold_left (λ c '(flag, cid), if flag : bool then use_consumable cid c else c) l cs) =
  if bool_decide ((true, id) ∈ l)
  then Some (deducted 1 (consumable_lookup id cs))
  else consumable_lookup id cs.
Proof.
  revert cs. induction l as [|[f k] l IH]; intros cs Hl; simpl; [done|].
  apply NoDup_cons in Hl as [Hk Hl]. rewrite IH by done.
  destruct (decide (id = k)) as [->|Hne].
  - rewrite (bool_decide_eq_false_2 ((true, k) ∈ l)).
    2:{ intros Hin. apply Hk. apply list_elem_of_fmap. by exists (true, k). }
    destruct f.
    + rewrite use_consumable_lookup, !bool_decide_eq_true_2; [done|by left|done].
    + rewrite bool_decide_eq_false_2; [done|].
      intros [?|Hin]%elem_of_cons; [done|].
      apply Hk. apply list_elem_of_fmap. by exists (true, k).
  - assert (consumable_lookup id (if f then use_consumable k cs else cs)
            = consumable_lookup id cs) as ->.
    { destruct f; [|done]. by rewrite use_consumable_lookup, bool_decide_eq_false_2. }
    destruct (decide ((true, id) ∈ l)) as [Hin|Hnin].
    + rewrite !bool_decide_eq_true_2; [done|by right|done].
    + rewrite !bool_decide_eq_false_2; [done| |done].
      intros [?|?]%elem_of_cons; [congruence|done].
Qed.

Lemma zip_snd_NoDup {A B} (l : list A) (k : list B) :
  NoDup k → NoDup (zip l k).*2.
Proof.
  intros Hk. apply (sublist_NoDup _ k); [done|]. clear Hk.
  revert k. induction l as [|a l IH]; intros [|b k]; simpl;
    try apply sublist_nil_l.
  apply sublist_skip, IH.
Qed.

Lemma flag_at_position (flags : list bool) (ids : list Z) i f cid :
  NoDup ids → flags !! i = Some f → ids !! i = Some cid →
  (true, cid) ∈ zip flags ids ↔ f = true.
Proof.
  intros Hnd Hf Hc. split.
  - intros [j Hj]%list_elem_of_lookup_1.
    apply lookup_zip_with_Some in Hj as (f' & c' & [= <- <-] & Hf' & Hc').
    assert (j = i) as -> by by eapply NoDup_lookup. congruence.
  - intros ->. apply list_elem_of_lookup_2 with i.
    apply lookup_zip_with_Some. by exists true, cid.
Qed.

(** C4: a start-forge request with primary id [p] and material map
    [materials_used r], for a character of the save, returns with the
    save persisted, and the character then found in the save has: every
    listed material at its count minus the requested amount clamped at
    zero (a zero count for a material not held), every other material as
    it was; the consumable of every set flag at its count minus one
    clamped at zero (a zero count for a consumable not held), where the
    flags stand, in order, for [var_1415], [var_2082], [var_1374] and
    [var_1462], and every other consumable as it was; the forge session
    at [hasSession = true], [primary = p], [status = const_286] (in
    progress), [duration = 60000]; and nothing else changed. The four
    consumable ids of the constants table are taken to be distinct. *)
Theorem start_forge_deducts s r ci char :
  find_char s = Some (ci, char) →
  NoDup [var_1415; var_2082; var_1374; var_1462] →
  ∃ s' char',
    start_forge_packet s r = Finished s' true []
    ∧ find_char s' = Some (ci, char')
    ∧ magicForge char' =
        mkForge true (f_primary r) (secondary (magicForge char))
                const_286 60000 0 0 0 0 true
    ∧ (∀ id, material_lookup id (materials char') =
             match dict_get id (materials_used r) with
             | Some used => Some (deducted used (material_lookup id (materials char)))
             | None => material_lookup id (materials char)
             end)
    ∧ (∀ id used, dict_get id (materials_used r) = Some used →
                  ∃ c, material_lookup id (materials char') = Some c ∧ 0 ≤ c)
    ∧ (∀ (i : nat) (f : bool) (cid : Z),
         f_flags r !! i = Some f →
         [var_1415; var_2082; var_1374; var_1462] !! i = Some cid →
         consumable_lookup cid (consumables char') =
         if f then Some (deducted 1 (consumable_lookup cid (consumables char)))
         else consumable_lookup cid (consumables char))
    ∧ (∀ id, consumable_lookup id (consumables char') =
             if bool_decide
                  ((true, id) ∈ zip (f_flags r)
                                    [var_1415; var_2082; var_1374; var_1462])
             then Some (deducted 1 (consumable_lookup id (consumables char)))
             else consumable_lookup id (consumables char))
    ∧ s' = put_char s ci
             (set_magicForge (magicForge char')
                (set_consumables (consumables char')
                   (set_materials (materials char') char))) (store s).
Proof.
  intros Hf Hids. unfold start_forge_packet. rewrite Hf.
  eexists _, _. split; [reflexivity|].
  split; [by apply (find_char_put s ci char)|].
  assert (∀ id,
    consumable_lookup id
      (fold_left (λ c '(flag, cid), if flag : bool then use_consumable cid c else c)
                 (zip (f_flags r) consumable_ids) (consumables char)) =
    if bool_decide ((true, id) ∈ zip (f_flags r)
                                     [var_1415; var_2082; var_1374; var_1462])
    then Some (deducted 1 (consumable_lookup id (consumables char)))
    else consumable_lookup id (consumables char)) as Hcons.
  { intros id. by apply use_consumables_lookup, zip_snd_NoDup. }
  simpl. split_and!; [done| | | |exact Hcons|done].
  - intros id. apply use_materials_lookup, materials_used_NoDup.
  - intros id used Hg.
    rewrite use_materials_lookup, Hg by apply materials_used_NoDup.
    eexists. split; [done|]. unfold deducted. destruct (material_lookup _ _); lia.
  - intros i f cid Hflag Hcid. rewrite Hcons.
    pose proof (flag_at_position _ _ i f cid Hids Hflag Hcid) as Hat.
    destruct f.
    + by rewrite bool_decide_eq_true_2 by by apply Hat.
    + rewrite bool_decide_eq_false_2; [done|]. intros Hin. by apply Hat in Hin.
Qed.

(** ** Mastery tree (0xC1, 0xC3) *)

Lemma dict_get_set {V} i k (v : V) (d : pydict V) :
  dict_get i (dict_set k v d) = if bool_decide (i = k) then Some v else dict_get i d.
Proof.
  induction d as [|[k' v'] d IH]; simpl.
  - repeat case_bool_decide; simplify_eq; done.
  - destruct (decide (k' = k)) as [->|Hne].
    + rewrite (bool_decide_eq_true_2 (k = k)) by done. simpl.
      repeat case_bool_decide; simplify_eq; done.
    + rewrite (bool_decide_eq_false_2 (k' = k)) by done. simpl. rewrite IH.
      repeat case_bool_decide; simplify_eq; done.
Qed.

Lemma slot_map_lookup slots i :
  dict_get i (slot_map slots) = tree_node slots i.
Proof.
  unfold slot_map, tree_node.
  induction slots as [|n slots IH] using rev_ind; [done|].
  rewrite fold_left_app; simpl. rewrite dict_get_set, filter_app, last_app.
  rewrite (filter_cons _ n), filter_nil.
  destruct (decide (nodeIdx n - 1 = i)) as [Hn|Hn].
  - by rewrite bool_decide_eq_true_2.
  - rewrite bool_decide_eq_false_2 by done. simpl. exact IH.
Qed.

Lemma mastery_loop_eq slots (idxs : list Z) bb :
  fold_left (mastery_step (slot_map slots)) idxs bb =
  bb ++ concat (encode_node slots <$> idxs).
Proof.
  revert bb. induction idxs as [|i idxs IH]; intros bb; simpl.
  - by rewrite app_nil_r.
  - rewrite IH. unfold mastery_step, encode_node. rewrite slot_map_lookup.
    destruct (tree_node slots i) as [n|]; [destruct (filled n)|];
      by rewrite <- app_assoc.
Qed.

Lemma tree_node_index slots i n :
  tree_node slots i = Some n → nodeIdx n = i + 1 ∧ n ∈ slots.
Proof.
  unfold tree_node. intros H%last_Some_elem_of.
  apply list_elem_of_filter in H as [? ?]. split; [lia|done].
Qed.

(** C7: the mastery packet of the session's character holds the entity
    id and then, for each node index [i] from 0 to 26 in order, the bit 0
    when the tree has no filled node there, and otherwise the bit 1, the
    node's [nodeIdx] (which is [i + 1]) in the fixed width
    [CLASS_118_CONST_127], and [points - 1] in [method_277 i] bits; and a
    select-mastery-class request stores the class, persists, echoes it
    (0xC3) and then sends that packet (0xC1) for the tree of the class
    just selected. *)
Theorem mastery_tree_encoding s entity_id ci char :
  find_char s = Some (ci, char) →
  const_43 = 27 →
  let tree mc := default [] (Mastery char !! mc) in
  send_mastery_packet s entity_id =
    [Built 0xC1 (Method4 entity_id
                 :: concat (encode_node (tree (default 1 (MasterClass char)))
                              <$> seqZ 0 27))]
  ∧ (∀ i n, tree_node (tree (default 1 (MasterClass char))) i = Some n →
            nodeIdx n = i + 1)
  ∧ ∀ master_class_id,
      handle_masterclass_packet s entity_id master_class_id =
        Finished (put_char s ci (set_MasterClass master_class_id char) (store s))
                 true
                 [Built 0xC3 [Method4 entity_id;
                              Method6 master_class_id GAME_CONST_209];
                  Built 0xC1 (Method4 entity_id
                              :: concat (encode_node (tree master_class_id)
                                           <$> seqZ 0 27))].
Proof.
  intros Hf H27 tree. split_and!.
  - unfold send_mastery_packet. rewrite Hf, H27. by rewrite mastery_loop_eq.
  - intros i n Hn. by apply tree_node_index in Hn as [? _].
  - intros mc. unfold handle_masterclass_packet. rewrite Hf.
    unfold send_mastery_packet.
    rewrite (find_char_put s ci char (set_MasterClass mc char)) by done.
    simpl. rewrite H27. by rewrite mastery_loop_eq.
Qed.

(** ** Hotbar *)

Lemma bits_value_snoc bs (b : bool) :
  bits_value (bs ++ [b]) = 2 * bits_value bs + (if b then 1 else 0).
Proof. unfold bits_value. by rewrite fold_left_app. Qed.

Lemma byte_bits_length n v : length (byte_bits n v) = n.
Proof.
  revert v. induction n as [|n IH]; intros v; simpl; [done|].
  rewrite length_app, IH. simpl. lia.
Qed.

Lemma bits_value_byte_bits n v :
  0 ≤ v < 2 ^ Z.of_nat n → bits_value (byte_bits n v) = v.
Proof.
  revert v. induction n as [|n IH]; intros v Hv.
  - simpl in *. unfold bits_value. simpl. lia.
  - cbn [byte_bits]. rewrite bits_value_snoc.
    rewrite Nat2Z.inj_succ, Z.pow_succ_r in Hv by lia.
    rewrite IH.
    + rewrite <- Zmod_odd. symmetry. apply Z.div_mod. lia.
    + split; [apply Z.div_pos; lia|apply Z.div_lt_upper_bound; lia].
Qed.

Lemma read_bits_app n bs rest :
  length bs = n → read_bits n (bs ++ rest) = Some (bits_value bs, rest).
Proof.
  intros Hn. unfold read_bits.
  rewrite bool_decide_eq_true_2 by (rewrite length_app; lia).
  by rewrite take_app_length', drop_app_length'.
Qed.

Lemma dict_set_fresh {V} k (v : V) (d : pydict V) :
  k ∉ d.*1 → dict_set k v d = d ++ [(k, v)].
Proof.
  induction d as [|[k' v'] d IH]; simpl; [done|].
  rewrite not_elem_of_cons. intros [Hne Hnin].
  rewrite bool_decide_eq_false_2 by done. by rewrite IH.
Qed.

Lemma hotbar_loop_wire declared : ∀ fuel k updates,
  Forall valid_skill declared →
  (length (hotbar_wire declared) ≤ fuel)%nat →
  Forall (λ key, key < Z.of_nat k) updates.*1 →
  hotbar_loop fuel (hotbar_wire declared) (Z.of_nat k + 1) updates =
  Some (updates ++ flagged_pairs declared k).
Proof.
  induction declared as [|o declared IH]; intros fuel k updates Hv Hfuel Hkeys.
  - destruct fuel; simpl; by rewrite app_nil_r.
  - apply Forall_cons in Hv as [Ho Hv].
    change (hotbar_wire (o :: declared)) with
      (match o with None => [false] | Some id => true :: byte_bits 7 id end
       ++ hotbar_wire declared) in *.
    destruct o as [id|].
    + rewrite length_app in Hfuel. simpl in Hfuel.
      destruct fuel as [|fuel]; [lia|].
      cbn [hotbar_loop]. rewrite bool_decide_eq_false_2 by (simpl; lia).
      change ((true :: byte_bits 7 id) ++ hotbar_wire declared) with
        ([true] ++ (byte_bits 7 id ++ hotbar_wire declared)).
      rewrite read_bits_app by done. cbn [mbind option_bind].
      rewrite bool_decide_eq_true_2 by done.
      rewrite read_bits_app by apply byte_bits_length. cbn [mbind option_bind].
      rewrite bits_value_byte_bits by (apply Ho; done).
      replace (Z.of_nat k + 1 - 1) with (Z.of_nat k) by lia.
      replace (Z.of_nat k + 1 + 1) with (Z.of_nat (S k) + 1) by lia.
      rewrite dict_set_fresh.
      2:{ intros Hin. rewrite Forall_forall in Hkeys. apply Hkeys in Hin. lia. }
      rewrite IH; [by rewrite <- app_assoc|done|lia|].
      rewrite fmap_app. apply Forall_app. split.
      * eapply Forall_impl; [exact Hkeys|]. intros; simpl in *; lia.
      * repeat constructor. simpl. lia.
    + rewrite length_app in Hfuel. simpl in Hfuel.
      destruct fuel as [|fuel]; [lia|].
      cbn [hotbar_loop]. rewrite bool_decide_eq_false_2 by (simpl; lia).
      rewrite read_bits_app by done. cbn [mbind option_bind].
      rewrite bool_decide_eq_false_2 by (intros ?; done).
      replace (Z.of_nat k + 1 + 1) with (Z.of_nat (S k) + 1) by lia.
      rewrite IH; [done|done|lia|].
      eapply Forall_impl; [exact Hkeys|]. intros; simpl in *; lia.
Qed.

Lemma flagged_top_0 declared k :
  flagged_top declared = 0%nat → flagged_pairs declared k = [].
Proof.
  revert k. induction declared as [|o declared IH]; intros k; simpl; [done|].
  destruct (flagged_top declared); [|done]. destruct o; [done|]. intros _. by apply IH.
Qed.

Lemma overlay_top_0 declared active :
  flagged_top declared = 0%nat → overlay declared active = active.
Proof.
  revert active. induction declared as [|o declared IH]; intros active; simpl; [done|].
  destruct (flagged_top declared); [|done]. destruct o; [done|]. intros _.
  destruct active; [done|]. simpl. by rewrite IH.
Qed.

Lemma max_key_fold (d : pydict Z) :
  Forall (λ key, 0 ≤ key) d.*1 → max_key d = fold_left Z.max d.*1 (-1).
Proof.
  destruct d as [|[k v] d]; [done|]. intros [Hk _]%Forall_cons. simpl in *.
  by rewrite Z.max_r by lia.
Qed.

Lemma flagged_pairs_max declared k a :
  fold_left Z.max (flagged_pairs declared k).*1 a =
  match flagged_top declared with
  | O => a
  | S t => Z.max a (Z.of_nat k + Z.of_nat t)
  end.
Proof.
  revert k a. induction declared as [|o declared IH]; intros k a; [done|].
  destruct o as [id|]; simpl; rewrite IH; destruct (flagged_top declared); lia.
Qed.

Lemma flagged_pairs_nonneg declared k :
  Forall (λ key, 0 ≤ key) (flagged_pairs declared k).*1.
Proof.
  revert k. induction declared as [|[id|] declared IH]; intros k; simpl;
    [constructor|constructor; [lia|apply IH]|apply IH].
Qed.

Lemma max_key_flagged declared :
  max_key (flagged_pairs declared 0) = Z.of_nat (flagged_top declared) - 1.
Proof.
  rewrite max_key_fold by apply flagged_pairs_nonneg.
  rewrite flagged_pairs_max. destruct (flagged_top declared); lia.
Qed.

Lemma grow_eq k active : grow k active = active ++ replicate k 0.
Proof.
  revert active. induction k as [|k IH]; intros active; simpl.
  - by rewrite app_nil_r.
  - by rewrite IH, <- app_assoc.
Qed.

Lemma apply_flagged_pairs declared : ∀ pre active,
  (flagged_top declared ≤ length active)%nat →
  apply_updates (flagged_pairs declared (length pre)) (pre ++ active) =
  Some (pre ++ overlay declared active).
Proof.
  induction declared as [|o declared IH]; intros pre active Hlen; [done|].
  destruct (decide (flagged_top (o :: declared) = 0%nat)) as [H0|H0].
  { by rewrite flagged_top_0, overlay_top_0. }
  destruct active as [|x active].
  { simpl in *. lia. }
  assert (flagged_top declared ≤ length active)%nat as Hlen'.
  { simpl in Hlen. destruct (flagged_top declared); [lia|]. lia. }
  specialize (IH (pre ++ [default x o]) active Hlen').
  rewrite length_app in IH. simpl in IH.
  replace (length pre + 1)%nat with (S (length pre)) in IH by lia.
  rewrite <- !app_assoc in IH. simpl in IH.
  destruct o as [id|]; simpl.
  - rewrite py_setitem_Some by (rewrite length_app; simpl; lia).
    rewrite Nat2Z.id. simpl.
    rewrite insert_app_r_alt, Nat.sub_diag by lia. exact IH.
  - exact IH.
Qed.

Lemma overlay_length declared active :
  length (overlay declared active) = length active.
Proof.
  revert active. induction declared as [|o declared IH]; intros [|x active];
    simpl; try done. by rewrite IH.
Qed.

Lemma overlay_lookup declared active i :
  (i < length active)%nat →
  overlay declared active !! i =
  Some (match declared !! i with
        | Some (Some id) => id
        | _ => default 0 (active !! i)
        end).
Proof.
  revert active i. induction declared as [|o declared IH]; intros active i Hi.
  - simpl. apply lookup_lt_is_Some in Hi as [x Hx]. by rewrite Hx.
  - destruct active as [|x active]; [simpl in Hi; lia|].
    destruct i as [|i]; simpl.
    + by destruct o.
    + apply IH. simpl in Hi. lia.
Qed.

Lemma hotbar_loop_S fuel bits slot updates :
  hotbar_loop (S fuel) bits slot updates =
  if bool_decide (length bits < 1)%nat then Some updates else
    '(changed, bits1) ← read_bits 1 bits;
    if bool_decide (changed ≠ 0) then
      '(skill_id, bits2) ← read_bits 7 bits1;
      hotbar_loop fuel bits2 (slot + 1) (dict_set (slot - 1) skill_id updates)
    else hotbar_loop fuel bits1 (slot + 1) updates.
Proof. reflexivity. Qed.

(** Fuel beyond the number of bits changes nothing: the loop ends by
    itself. *)
Lemma hotbar_loop_more fuel : ∀ bits slot updates,
  (length bits ≤ fuel)%nat →
  hotbar_loop (S fuel) bits slot updates = hotbar_loop fuel bits slot updates.
Proof.
  induction fuel as [|fuel IH]; intros bits slot updates Hlen.
  - destruct bits; [done|simpl in Hlen; lia].
  - rewrite (hotbar_loop_S (S fuel)), (hotbar_loop_S fuel).
    case_bool_decide; [done|].
    destruct (read_bits 1 bits) as [[changed bits1]|] eqn:Hr1; [|done].
    cbn [mbind option_bind].
    assert (length bits1 ≤ fuel)%nat as Hlen1.
    { unfold read_bits in Hr1. case_bool_decide; [|done].
      injection Hr1 as _ <-. rewrite length_drop. lia. }
    case_bool_decide; [|by apply IH].
    destruct (read_bits 7 bits1) as [[skill_id bits2]|] eqn:Hr7; [|done].
    cbn [mbind option_bind]. apply IH.
    unfold read_bits in Hr7. case_bool_decide; [|done].
    injection Hr7 as _ <-. rewrite length_drop. lia.
Qed.

Lemma bits_value_bound bs : 0 ≤ bits_value bs < 2 ^ Z.of_nat (length bs).
Proof.
  induction bs as [|b bs IH] using rev_ind; [done|].
  rewrite bits_value_snoc, length_app. simpl.
  replace (Z.of_nat (length bs + 1)) with (Z.succ (Z.of_nat (length bs))) by lia.
  rewrite Z.pow_succ_r by lia. destruct b; lia.
Qed.

Lemma byte_bits_value bs : byte_bits (length bs) (bits_value bs) = bs.
Proof.
  induction bs as [|b bs IH] using rev_ind; [done|].
  rewrite bits_value_snoc, length_app. simpl.
  replace (length bs + 1)%nat with (S (length bs)) by lia. cbn [byte_bits].
  assert ((2 * bits_value bs + (if b then 1 else 0)) `div` 2 = bits_value bs) as ->.
  { destruct b; [|by rewrite Z.add_0_r, Z.mul_comm, Z.div_mul].
    rewrite Z.mul_comm, Z.div_add_l by done. by rewrite Z.add_0_r. }
  rewrite IH. f_equal. f_equal.
  rewrite Z.add_comm, Z.odd_add_mul_2. by destruct b.
Qed.

(** Every payload the decoding loop accepts is the wire form of some
    declared slots. *)
Lemma hotbar_payload_declared fuel : ∀ bits slot updates updates',
  hotbar_loop fuel bits slot updates = Some updates' →
  ∃ declared, Forall valid_skill declared ∧ bits = hotbar_wire declared.
Proof.
  induction fuel as [|fuel IH]; intros bits slot updates updates'; cbn [hotbar_loop].
  - case_bool_decide as Hb; [|done]. intros _. exists [].
    split; [constructor|]. destruct bits; [done|simpl in Hb; lia].
  - case_bool_decide as Hb.
    { intros _. exists []. split; [constructor|].
      destruct bits; [done|simpl in Hb; lia]. }
    destruct bits as [|b bits]; [simpl in Hb; lia|].
    change (read_bits 1 (b :: bits)) with (read_bits 1 ([b] ++ bits)).
    rewrite read_bits_app by done. cbn [mbind option_bind].
    destruct b.
    + rewrite bool_decide_eq_true_2 by done.
      unfold read_bits. case_bool_decide as H7; [|done]. cbn [mbind option_bind].
      intros (declared & Hv & Hd)%IH.
      exists (Some (bits_value (take 7 bits)) :: declared). split.
      * constructor; [|done]. intros id [= <-].
        pose proof (bits_value_bound (take 7 bits)) as Hbound.
        rewrite length_take, Nat.min_l in Hbound by done. exact Hbound.
      * change (hotbar_wire (Some (bits_value (take 7 bits)) :: declared))
          with (true :: byte_bits 7 (bits_value (take 7 bits)) ++ hotbar_wire declared).
        f_equal. rewrite <- Hd.
        assert (length (take 7 bits) = 7%nat) as Hlen
          by (rewrite length_take; lia).
        rewrite <- Hlen at 1. rewrite byte_bits_value. by rewrite take_drop.
    + rewrite bool_decide_eq_false_2 by (intros ?; done).
      intros (declared & Hv & Hd)%IH.
      exists (None :: declared). split.
      * constructor; [|done]. by intros id.
      * change (hotbar_wire (None :: declared))
          with (false :: hotbar_wire declared). by f_equal.
Qed.

(** C8: a hotbar packet the handler does not fail on (a set bit with
    fewer than 7 bits after it) declares a list of slots, one changed bit
    per slot and a 7-bit skill id after each set bit; and for a payload
    that declares the slots [declared], the handler returns with the save
    persisted and nothing sent, and the [activeAbilities] of the
    character then found in the save is the stored list grown with zeros
    just far enough to hold the highest flagged slot, in which every
    flagged slot holds its decoded skill id and every other slot the
    value it held before (0 for a slot that was grown); nothing else of
    the save is changed. *)
Theorem hotbar_updates_flagged_slots s raw_data ci char :
  find_char s = Some (ci, char) →
  let active := activeAbilities char in
  (handle_hotbar_packet s raw_data ≠ Raised →
   ∃ declared, Forall valid_skill declared
               ∧ payload_bits raw_data = hotbar_wire declared)
  ∧ ∀ declared,
      payload_bits raw_data = hotbar_wire declared →
      Forall valid_skill declared →
      ∃ s' char',
        handle_hotbar_packet s raw_data = Finished s' true []
        ∧ find_char s' = Some (ci, char')
        ∧ length (activeAbilities char')
          = (length active `max` flagged_top declared)%nat
        ∧ (∀ i, (i < length (activeAbilities char'))%nat →
                activeAbilities char' !! i =
                Some (match declared !! i with
                      | Some (Some skill_id) => skill_id
                      | _ => default 0 (active !! i)
                      end))
        ∧ s' = put_char s ci
                 (set_activeAbilities (activeAbilities char') char) (store s).
Proof.
  intros Hf active. split.
  { unfold handle_hotbar_packet.
    destruct (hotbar_loop _ _ _ _) as [updates|] eqn:Hloop; [|done].
    intros _. by eapply hotbar_payload_declared. }
  intros declared Hwire Hvalid. unfold handle_hotbar_packet. rewrite Hwire.
  pose proof (hotbar_loop_wire declared (length (hotbar_wire declared)) 0 []
                Hvalid (le_n _) (Forall_nil_2 _)) as Hloop.
  change (Z.of_nat 0 + 1) with 1 in Hloop. rewrite app_nil_l in Hloop.
  rewrite Hloop, Hf, max_key_flagged, grow_eq. fold active.
  set (grown := active ++ replicate _ 0).
  assert (length grown = (length active `max` flagged_top declared)%nat) as Hlen.
  { unfold grown. rewrite length_app, length_replicate. lia. }
  pose proof (apply_flagged_pairs declared [] grown) as Happ.
  simpl in Happ. rewrite Happ by lia.
  eexists _, _. split; [reflexivity|].
  split; [by apply (find_char_put s ci char)|].
  cbn [activeAbilities set_activeAbilities].
  rewrite overlay_length. split; [done|]. split; [|done].
  intros i Hi. rewrite overlay_lookup by done.
  assert (default 0 (grown !! i) = default 0 (active !! i)) as Hold.
  { unfold grown. destruct (decide (i < length active)%nat) as [Hlt|Hge].
    - by rewrite lookup_app_l.
    - rewrite lookup_app_r, (lookup_ge_None_2 active) by lia. simpl.
      destruct (replicate _ 0 !! _) as [z|] eqn:Hz; [|done].
      by apply lookup_replicate in Hz as [-> _]. }
  destruct (declared !! i) as [[id|]|]; by rewrite ?Hold.
Qed.

(** ** Rune lists in the store *)

Lemma heap_set_Some (h : heap) l i v h' :
  heap_set h l i v = Some h' →
  ∃ rs, h !! l = Some rs ∧ (i < length rs)%nat ∧ h' = <[l := <[i := v]> rs]> h.
Proof.
  unfold heap_set. destruct (h !! l) as [rs|] eqn:Hl; [|done]. simpl.
  case_bool_decide; [|done]. intros [= <-]. eauto.
Qed.

Lemma heap_set_lookup_eq (h : heap) l i v h' rs :
  heap_set h l i v = Some h' → h !! l = Some rs → h' !! l = Some (<[i := v]> rs).
Proof.
  intros (rs' & Hl & Hi & ->)%heap_set_Some Hrs. simplify_eq.
  apply list_lookup_insert_eq. by eapply lookup_lt_Some.
Qed.

Lemma heap_set_lookup_ne (h : heap) l i v h' l' :
  heap_set h l i v = Some h' → l ≠ l' → h' !! l' = h !! l'.
Proof.
  intros (rs' & Hl & Hi & ->)%heap_set_Some Hne. by apply list_lookup_insert_ne.
Qed.

Lemma heap_set_get (h : heap) l i v h' :
  heap_set h l i v = Some h' → heap_get h' l i = Some v.
Proof.
  intros Hs. destruct (heap_set_Some _ _ _ _ _ Hs) as (rs & Hl & Hi & _).
  unfold heap_get. rewrite (heap_set_lookup_eq _ _ _ _ _ _ Hs Hl). simpl.
  by apply list_lookup_insert_eq.
Qed.

Lemma heap_set_again (h : heap) l i v h' w :
  heap_set h l i v = Some h' → is_Some (heap_set h' l i w).
Proof.
  intros Hs. destruct (heap_set_Some _ _ _ _ _ Hs) as (rs & Hl & Hi & _).
  unfold heap_set. rewrite (heap_set_lookup_eq _ _ _ _ _ _ Hs Hl). simpl.
  rewrite bool_decide_eq_true_2 by (by rewrite length_insert). eauto.
Qed.

Lemma heap_set_writable (h : heap) l i v h' l' i' w w' :
  heap_set h l i v = Some h' → is_Some (heap_set h l' i' w) →
  is_Some (heap_set h' l' i' w').
Proof.
  intros Hs [h'' Hs']. destruct (heap_set_Some _ _ _ _ _ Hs) as (rs & Hl & Hi & _).
  apply heap_set_Some in Hs' as (rs' & Hl' & Hi' & _).
  unfold heap_set. destruct (decide (l = l')) as [->|Hne].
  - rewrite Hl in Hl'. injection Hl' as <-.
    rewrite (heap_set_lookup_eq _ _ _ _ _ _ Hs Hl). simpl.
    rewrite bool_decide_eq_true_2 by (by rewrite length_insert). eauto.
  - rewrite (heap_set_lookup_ne _ _ _ _ _ _ Hs Hne), Hl'. simpl.
    rewrite bool_decide_eq_true_2 by done. eauto.
Qed.

Lemma heap_set_any (h : heap) l i v h' w :
  heap_set h l i v = Some h' → is_Some (heap_set h l i w).
Proof.
  intros (rs & Hl & Hi & _)%heap_set_Some. unfold heap_set. rewrite Hl. simpl.
  rewrite bool_decide_eq_true_2 by done. eauto.
Qed.

Lemma heap_get_after (h : heap) l i v h' l' :
  heap_set h l i v = Some h' → heap_get h l' i = Some v → heap_get h' l' i = Some v.
Proof.
  intros Hs Hg. destruct (decide (l = l')) as [->|Hne].
  - by eapply heap_set_get.
  - unfold heap_get. by rewrite (heap_set_lookup_ne _ _ _ _ _ _ Hs Hne).
Qed.

Lemma heap_set_same (h : heap) l i v :
  heap_get h l i = Some v → heap_set h l i v = Some h.
Proof.
  unfold heap_get, heap_set. destruct (h !! l) as [rs|] eqn:Hl; [|done]. simpl.
  intros Hi. rewrite bool_decide_eq_true_2 by (by eapply lookup_lt_Some).
  by rewrite (list_insert_id rs), list_insert_id.
Qed.

(** ** Rune socketing (0xB0) *)

Lemma fit_slots_length h eq h' eq' :
  0 ≤ MAX_SLOTS - 1 → fit_slots h eq = (h', eq') →
  Z.of_nat (length eq') = MAX_SLOTS - 1.
Proof.
  intros Hd. unfold fit_slots. destruct (pad_to _ _ _) as [h1 eq1] eqn:Hp.
  apply pad_to_length in Hp. intros [= <- <-].
  case_bool_decide; [|lia]. unfold py_slice_to.
  rewrite bool_decide_eq_false_2 by lia. rewrite length_take. lia.
Qed.

Lemma fit_slots_again h eq h' eq' h'' :
  0 ≤ MAX_SLOTS - 1 → fit_slots h eq = (h', eq') → fit_slots h'' eq' = (h'', eq').
Proof.
  intros Hd Hfit. apply fit_slots_length in Hfit; [|done].
  unfold fit_slots, pad_to. rewrite Hfit, Z.sub_diag. simpl.
  by rewrite bool_decide_eq_false_2 by lia.
Qed.

(** What a rune request that persisted has done. *)
Lemma rune_packet_done s r ci char s' out :
  find_char s = Some (ci, char) →
  handle_rune_packet s r = Finished s' true out →
  ∃ h0 eq j g old h1 hfin inv',
    fit_slots (store s) (equippedGears char) = (h0, eq)
    ∧ list_find (same_gear (r_gear r) (r_tier r)) eq = Some (j, g)
    ∧ 1 ≤ r_slot r ≤ 3
    ∧ heap_get h0 (runes g) (Z.to_nat (r_slot r - 1)) = Some old
    ∧ heap_set h0 (runes g) (Z.to_nat (r_slot r - 1)) (written_rune r) = Some h1
    ∧ match list_find (same_gear (r_gear r) (r_tier r)) (inventoryGears char) with
      | Some (_, item) =>
          heap_set h1 (runes item) (Z.to_nat (r_slot r - 1)) (written_rune r)
          = Some hfin ∧ inv' = inventoryGears char
      | None => hfin = h1 ∧ inv' = inventoryGears char ++ [g]
      end
    ∧ s' = put_char s ci
             (set_charms (rune_charms r old (charms char))
                (set_inventoryGears inv' (set_equippedGears eq char))) hfin
    ∧ out = [rune_echo r].
Proof.
  intros Hf. unfold handle_rune_packet. rewrite Hf.
  destruct (fit_slots _ _) as [h0 eq] eqn:Hfit.
  destruct (list_find _ eq) as [[j g]|] eqn:Hg; [|done].
  case_bool_decide as Hslot; [|done].
  destruct (heap_get h0 _ _) as [old|] eqn:Hold; [|done].
  fold (written_rune r).
  destruct (heap_set h0 _ _ _) as [h1|] eqn:Hh1; [|done].
  rewrite (heap_set_get _ _ _ _ _ Hh1).
  destruct (list_find _ (inventoryGears char)) as [[m item]|] eqn:Hitem.
  - destruct (heap_set h1 _ _ _) as [h2|] eqn:Hh2; [|done].
    intros [= <- <-]. exists h0, eq, j, g, old, h1, h2, (inventoryGears char).
    split_and!; done || lia.
  - intros [= <- <-]. exists h0, eq, j, g, old, h1, h1, (inventoryGears char ++ [g]).
    split_and!; done || lia.
Qed.

(** The converse: a rune request whose reads and writes succeed persists. *)
Lemma rune_packet_run s r ci char h0 eq j g old h1 :
  find_char s = Some (ci, char) →
  fit_slots (store s) (equippedGears char) = (h0, eq) →
  list_find (same_gear (r_gear r) (r_tier r)) eq = Some (j, g) →
  1 ≤ r_slot r ≤ 3 →
  heap_get h0 (runes g) (Z.to_nat (r_slot r - 1)) = Some old →
  heap_set h0 (runes g) (Z.to_nat (r_slot r - 1)) (written_rune r) = Some h1 →
  match list_find (same_gear (r_gear r) (r_tier r)) (inventoryGears char) with
  | Some (_, item) =>
      ∀ h2, heap_set h1 (runes item) (Z.to_nat (r_slot r - 1)) (written_rune r)
            = Some h2 →
            handle_rune_packet s r =
              Finished (put_char s ci
                          (set_charms (rune_charms r old (charms char))
                             (set_equippedGears eq char)) h2)
                       true [rune_echo r]
  | None =>
      handle_rune_packet s r =
        Finished (put_char s ci
                    (set_charms (rune_charms r old (charms char))
                       (set_inventoryGears (inventoryGears char ++ [g])
                          (set_equippedGears eq char))) h1)
                 true [rune_echo r]
  end.
Proof.
  intros Hf Hfit Hg Hslot Hold Hh1. unfold handle_rune_packet.
  rewrite Hf, Hfit, Hg, bool_decide_eq_true_2, Hold by done.
  fold (written_rune r). rewrite Hh1, (heap_set_get _ _ _ _ _ Hh1).
  destruct (list_find _ (inventoryGears char)) as [[m item]|]; [|done].
  intros h2 Hh2. by rewrite Hh2.
Qed.

(** *** Charm bookkeeping *)

Lemma charm_take_total id0 id cs c :
  charm_lookup id0 cs = Some c → 0 < c →
  charm_total id (charm_take id0 cs) =
  charm_total id cs - (if bool_decide (id = id0) then 1 else 0).
Proof.
  induction cs as [|x cs IH]; simpl; [done|].
  destruct (decide (charmID x = id0)) as [Hx|Hx].
  - rewrite !(bool_decide_eq_true_2 (charmID x = id0)) by done.
    intros [= <-] Hc. repeat (case_bool_decide; simpl; simplify_eq); lia.
  - rewrite !(bool_decide_eq_false_2 (charmID x = id0)) by done.
    intros Hl Hc. simpl. rewrite IH by done. lia.
Qed.

Lemma charm_take_lookup_ne id0 id cs :
  id ≠ id0 → charm_lookup id (charm_take id0 cs) = charm_lookup id cs.
Proof.
  intros Hne. induction cs as [|x cs IH]; simpl; [done|].
  repeat (case_bool_decide; simpl; simplify_eq); done.
Qed.

Lemma charm_lookup_None id cs :
  id ∉ charmID <$> cs → charm_lookup id cs = None.
Proof.
  induction cs as [|x cs IH]; simpl; [done|].
  rewrite not_elem_of_cons. intros [Hne Hnin].
  rewrite bool_decide_eq_false_2 by done. by apply IH.
Qed.

Lemma charm_take_lookup_eq id0 cs :
  NoDup (charmID <$> cs) →
  charm_lookup id0 (charm_take id0 cs) =
  c ← charm_lookup id0 cs; if bool_decide (c - 1 ≤ 0) then None else Some (c - 1).
Proof.
  induction cs as [|x cs IH]; simpl; [done|]. intros [Hx Hcs]%NoDup_cons.
  destruct (decide (charmID x = id0)) as [<-|Hne].
  - rewrite !bool_decide_eq_true_2 by done. simpl.
    case_bool_decide; simpl.
    + by apply charm_lookup_None.
    + by rewrite bool_decide_eq_true_2.
  - rewrite !(bool_decide_eq_false_2 (charmID x = id0)) by done. simpl.
    rewrite bool_decide_eq_false_2 by done. by apply IH.
Qed.

Lemma charm_take_keys id0 cs :
  (charmID <$> charm_take id0 cs) `sublist_of` (charmID <$> cs).
Proof.
  induction cs as [|x cs IH]; simpl; [done|].
  repeat (case_bool_decide; simpl); try by constructor.
Qed.

Lemma charm_add_keys id cs :
  NoDup (charmID <$> cs) → NoDup (charmID <$> charm_add id cs).
Proof.
  induction cs as [|x cs IH]; simpl.
  - intros _. apply NoDup_singleton.
  - intros [Hx Hcs]%NoDup_cons. case_bool_decide; simpl.
    + by apply NoDup_cons.
    + apply NoDup_cons. split; [|by apply IH].
      intros Hin. apply Hx. clear IH Hcs Hx.
      induction cs as [|y cs IH]; simpl in *.
      * apply list_elem_of_singleton in Hin. congruence.
      * case_bool_decide; simpl in *; [done|].
        apply elem_of_cons in Hin as [->|Hin]; [by left|right; by apply IH].
Qed.

(** Socketing [rune] and then removing it: the bookkeeping of the two
    requests, on the charm list alone. *)
Lemma socket_then_remove_charms rune cs c k :
  rune ≠ 96 → rune ≠ 0 →
  charm_lookup rune cs = Some c → 0 < c →
  charm_lookup 96 cs = Some k → 0 < k →
  let cs' := charm_take 96 (charm_add rune (charm_take rune cs)) in
  (∀ id, charm_total id cs' =
         charm_total id cs - (if bool_decide (id = 96) then 1 else 0))
  ∧ (NoDup (charmID <$> cs) →
     ∀ id, charm_lookup id cs' =
           if bool_decide (id = 96)
           then (if bool_decide (k = 1) then None else Some (k - 1))
           else charm_lookup id cs).
Proof.
  intros H96 H0 Hc Hcpos Hk Hkpos cs'.
  assert (charm_lookup 96 (charm_add rune (charm_take rune cs)) = Some k) as Hk'.
  { rewrite charm_add_lookup, bool_decide_eq_false_2 by done.
    by rewrite charm_take_lookup_ne. }
  split.
  - intros id. unfold cs'. rewrite (charm_take_total _ _ _ k) by done.
    rewrite charm_add_total, (charm_take_total _ _ _ c) by done. lia.
  - intros Hnd id. unfold cs'.
    assert (NoDup (charmID <$> charm_add rune (charm_take rune cs))) as Hnd'.
    { apply charm_add_keys. eapply sublist_NoDup; [exact Hnd|apply charm_take_keys]. }
    destruct (decide (id = 96)) as [->|Hid].
    + rewrite bool_decide_eq_true_2 by done.
      rewrite charm_take_lookup_eq, Hk' by done. simpl.
      repeat case_bool_decide; done || lia.
    + rewrite bool_decide_eq_false_2 by done.
      rewrite charm_take_lookup_ne, charm_add_lookup by done.
      destruct (decide (id = rune)) as [->|Hr].
      * rewrite bool_decide_eq_true_2 by done.
        rewrite charm_take_lookup_eq, Hc by done. simpl.
        case_bool_decide; simpl; f_equal; lia.
      * rewrite bool_decide_eq_false_2 by done. by rewrite charm_take_lookup_ne.
Qed.

Lemma rune_charms_socket r old cs :
  r_rune r ≠ 96 → rune_charms r old cs = charm_take (r_rune r) cs.
Proof. intros H. unfold rune_charms. by rewrite bool_decide_eq_false_2. Qed.

Lemma rune_charms_remove r old cs :
  r_rune r = 96 → old ≠ 0 → old ≠ 96 →
  rune_charms r old cs = charm_take 96 (charm_add old cs).
Proof.
  intros H ? ?. unfold rune_charms.
  by rewrite bool_decide_eq_true_2, bool_decide_eq_true_2.
Qed.

(** C2: for a character holding a positive count of a real rune and of
    the remover (id 96), a rune request that sockets the rune followed by
    the same request with rune id 96 leaves the units held of every charm
    as before the first request, but for one unit of the remover; where
    the charm list is a mapping (one entry per id) every charm's entry is
    as before and the remover's entry is gone when its count was 1. The
    second request is processed to completion and the rune slot is empty
    after it. *)
Theorem socket_then_remove_restores_charms s r ci char s1 out1 c k :
  find_char s = Some (ci, char) →
  0 ≤ MAX_SLOTS - 1 →
  r_rune r ≠ 96 → r_rune r ≠ 0 →
  charm_lookup (r_rune r) (charms char) = Some c → 0 < c →
  charm_lookup 96 (charms char) = Some k → 0 < k →
  handle_rune_packet s r = Finished s1 true out1 →
  ∃ s2 char2 j g,
    handle_rune_packet s1 (remover_of r) =
      Finished s2 true [rune_echo (remover_of r)]
    ∧ find_char s2 = Some (ci, char2)
    ∧ (∀ id, charm_total id (charms char2) =
             charm_total id (charms char) - (if bool_decide (id = 96) then 1 else 0))
    ∧ (NoDup (charmID <$> charms char) →
       ∀ id, charm_lookup id (charms char2) =
             if bool_decide (id = 96)
             then (if bool_decide (k = 1) then None else Some (k - 1))
             else charm_lookup id (charms char))
    ∧ list_find (same_gear (r_gear r) (r_tier r)) (equippedGears char2) = Some (j, g)
    ∧ heap_get (store s2) (runes g) (Z.to_nat (r_slot r - 1)) = Some 0.
Proof.
  intros Hf Hd H96 H0 Hc Hcpos Hk Hkpos H1.
  destruct (rune_packet_done _ _ _ _ _ _ Hf H1)
    as (h0 & eq & j & g & old & h1 & hfin & inv' & Hfit & Hg & Hslot & Hold
        & Hh1 & Hinv & -> & ->).
  set (idx := Z.to_nat (r_slot r - 1)) in *.
  set (char1 := set_charms _ _).
  assert (find_char (put_char s ci char1 hfin) = Some (ci, char1)) as Hf1
    by (by apply (find_char_put s ci char)).
  assert (written_rune r = r_rune r) as Hw
    by (unfold written_rune; by rewrite bool_decide_eq_false_2).
  rewrite Hw in *.
  assert (heap_get hfin (runes g) idx = Some (r_rune r)) as Hread.
  { pose proof (heap_set_get _ _ _ _ _ Hh1) as Hr1.
    destruct (list_find _ (inventoryGears char)) as [[m item]|].
    - destruct Hinv as [Hh2 _]. by eapply heap_get_after.
    - by destruct Hinv as [-> _]. }
  assert (is_Some (heap_set hfin (runes g) idx 0)) as [h3 Hh3].
  { destruct (list_find _ (inventoryGears char)) as [[m item]|].
    - destruct Hinv as [Hh2 _].
      eapply (heap_set_writable _ _ _ _ _ _ _ 0); [exact Hh2|].
      by eapply heap_set_again.
    - destruct Hinv as [-> _]. by eapply heap_set_again. }
  assert (fit_slots (store (put_char s ci char1 hfin)) (equippedGears char1)
          = (hfin, eq)) as Hfit1 by (by eapply fit_slots_again).
  pose proof (rune_packet_run (put_char s ci char1 hfin) (remover_of r) ci char1
                hfin eq j g (r_rune r) h3 Hf1 Hfit1 Hg Hslot Hread Hh3) as Hrun.
  assert (charms char1 = charm_take (r_rune r) (charms char)) as Hcs1
    by (by apply rune_charms_socket).
  assert (∃ s2 char2,
            handle_rune_packet (put_char s ci char1 hfin) (remover_of r)
            = Finished s2 true [rune_echo (remover_of r)]
            ∧ find_char s2 = Some (ci, char2)
            ∧ charms char2 = charm_take 96 (charm_add (r_rune r) (charms char1))
            ∧ equippedGears char2 = eq
            ∧ heap_get (store s2) (runes g) idx = Some 0)
    as (s2 & char2 & Hrun2 & Hf2 & Hcs2 & Heq2 & Hget2).
  { assert (∀ x, rune_charms (remover_of r) (r_rune r) x
                 = charm_take 96 (charm_add (r_rune r) x)) as Hrc
      by (intros x; by apply rune_charms_remove).
    destruct (list_find _ (inventoryGears char)) as [[m item]|] eqn:Hitem.
    - destruct Hinv as [Hh2 ->].
      change (inventoryGears char1) with (inventoryGears char) in Hrun.
      change (r_gear (remover_of r)) with (r_gear r) in Hrun.
      change (r_tier (remover_of r)) with (r_tier r) in Hrun.
      rewrite Hitem in Hrun.
      assert (is_Some (heap_set h3 (runes item) idx 0)) as [h4 Hh4].
      { eapply (heap_set_writable _ _ _ _ _ _ _ 0); [exact Hh3|].
        eapply (heap_set_writable _ _ _ _ _ _ _ 0); [exact Hh2|].
        by eapply heap_set_any. }
      eexists _, _. split; [exact (Hrun h4 Hh4)|]. split_and!.
      + by apply (find_char_put _ ci char1).
      + simpl. apply Hrc.
      + done.
      + simpl. eapply heap_get_after; [exact Hh4|]. by eapply heap_set_get.
    - destruct Hinv as [-> ->].
      change (inventoryGears char1) with (inventoryGears char ++ [g]) in Hrun.
      change (r_gear (remover_of r)) with (r_gear r) in Hrun.
      change (r_tier (remover_of r)) with (r_tier r) in Hrun.
      rewrite list_find_app_r in Hrun by done.
      apply list_find_Some in Hg as Hg'. destruct Hg' as (_ & Hsame & _).
      simpl in Hrun. rewrite decide_True in Hrun by done. simpl in Hrun.
      assert (is_Some (heap_set h3 (runes g) idx 0)) as [h4 Hh4]
        by (by eapply heap_set_again).
      eexists _, _. split; [exact (Hrun h4 Hh4)|]. split_and!.
      + by apply (find_char_put _ ci char1).
      + simpl. apply Hrc.
      + done.
      + simpl. by eapply heap_set_get. }
  exists s2, char2, j, g.
  destruct (socket_then_remove_charms (r_rune r) (charms char) c k)
    as [Htot Hlook]; try done.
  rewrite Hcs2, Hcs1, Heq2. by split_and!.
Qed.

(** ** Equipped items and their inventory copies *)

Lemma has_copy_mono (h h' : heap) (inv inv' : list Gear) e :
  h `prefix_of` h' → inv ⊆ inv' → has_copy h inv e → has_copy h' inv' e.
Proof.
  intros Hh Hinv (w & rs & Hw & Hid & Hrw & Hre & Hc).
  exists w, rs. split_and!; try done.
  - by apply Hinv.
  - by eapply prefix_lookup_Some.
  - by eapply prefix_lookup_Some.
Qed.

Lemma py_index_length {A} (l l' : list A) i :
  length l = length l' → py_index l i = py_index l' i.
Proof. intros Hlen. unfold py_index. by rewrite Hlen. Qed.

Lemma py_index_lt {A} (l : list A) i j :
  py_index l i = Some j → (j < length l)%nat.
Proof.
  unfold py_index. case_bool_decide as Hi; [|done]. intros [= <-].
  destruct (bool_decide (i < 0)); lia.
Qed.

Lemma py_setitem_getitem {A} (l l' : list A) i x :
  py_setitem l i x = Some l' → py_getitem l' i = Some x.
Proof.
  unfold py_setitem, py_getitem.
  destruct (py_index l i) as [j|] eqn:Hj; [|done]. simpl. intros [= <-].
  rewrite (py_index_length _ l) by apply length_insert. rewrite Hj. simpl.
  apply list_lookup_insert_eq. by eapply py_index_lt.
Qed.

Lemma py_setitem_elem {A} (l l' : list A) i x y :
  py_setitem l i x = Some l' → y ∈ l' → y = x ∨ y ∈ l.
Proof.
  unfold py_setitem. destruct (py_index l i) as [j|]; [|done]. simpl.
  intros [= <-] Hy. apply list_elem_of_lookup in Hy as [n Hn].
  destruct (decide (j = n)) as [->|Hne].
  - left. apply list_lookup_insert_Some in Hn as [(_ & <- & _)|[? _]]; done.
  - right. rewrite list_lookup_insert_ne in Hn by done.
    by eapply list_elem_of_lookup_2.
Qed.

Lemma gear_packet_sync s r ci char s' saved out :
  find_char s = Some (ci, char) →
  stored (store s) (inventoryGears char) →
  handle_gear_packet s r = Finished s' saved out →
  ∃ char' e,
    find_char s' = Some (ci, char')
    ∧ py_getitem (equippedGears char') (g_slot1 r - 1) = Some e
    ∧ gearID e = g_gear r
    ∧ has_copy (store s') (inventoryGears char') e
    ∧ (∀ e0, has_copy (store s) (inventoryGears char) e0 →
             has_copy (store s') (inventoryGears char') e0)
    ∧ (synced (store s) char → synced (store s') char').
Proof.
  intros Hf Hst. unfold handle_gear_packet. rewrite Hf.
  destruct (pad_to 6 (store s) (equippedGears char)) as [h1 eq1] eqn:Hp.
  pose proof (pad_to_store _ _ _ _ _ Hp) as Hpre.
  set (inv := inventoryGears char) in *.
  set (found := list_find (λ item, gearID item = g_gear r) inv).
  assert (∃ h2 gd inv',
            (match found with
             | Some (_, item) => (h1, item)
             | None => let '(l, h') := alloc h1 [0; 0; 0] in
                       (h', {| gearID := g_gear r; tier := 0; runes := l;
                               colors := [0; 0] |})
             end) = (h2, gd)
            ∧ inv' = (if bool_decide (Exists (λ g, gearID g = g_gear r) inv)
                      then inv else inv ++ [gd])
            ∧ h1 `prefix_of` h2 ∧ inv ⊆ inv' ∧ gearID gd = g_gear r
            ∧ has_copy h2 inv' gd)
    as (h2 & gd & inv' & -> & Hinv' & Hpre2 & Hsub & Hid & Hcopy).
  { destruct found as [[n item]|] eqn:Hfound.
    - apply list_find_Some in Hfound as (Hn & Hitem & _).
      apply list_elem_of_lookup_2 in Hn as Hin.
      eexists h1, item, inv. split; [done|].
      rewrite bool_decide_eq_true_2 by (apply Exists_exists; eauto).
      split_and!; try done.
      unfold stored in Hst. rewrite Forall_forall in Hst.
      destruct (Hst item Hin) as [rs Hrs].
      assert (h1 !! runes item = Some rs) by (by eapply prefix_lookup_Some).
      by exists item, rs.
    - apply list_find_None in Hfound. simpl.
      eexists _, _, _. split; [done|].
      rewrite bool_decide_eq_false_2.
      2:{ rewrite Exists_exists. intros (x & Hx & Hxid).
          rewrite Forall_forall in Hfound. by apply (Hfound x). }
      split_and!; try done.
      + by apply prefix_app_r.
      + intros x Hx. apply elem_of_app. by left.
      + eexists _, [0; 0; 0]. split_and!; try done.
        * apply elem_of_app. right. by apply list_elem_of_singleton.
        * simpl. by rewrite lookup_app_r, Nat.sub_diag by lia.
        * simpl. by rewrite lookup_app_r, Nat.sub_diag by lia. }
  destruct (py_setitem eq1 (g_slot1 r - 1) gd) as [eq'|] eqn:Hset; [|done].
  intros [= <- <- <-]. rewrite <- Hinv'.
  eexists _, gd. split; [by apply (find_char_put s ci char)|].
  assert (store s `prefix_of` h2) as Hpre' by (by etrans).
  simpl. split_and!; try done.
  - by eapply py_setitem_getitem.
  - intros e0. by apply has_copy_mono.
  - intros Hsync e He Hne. simpl in *.
    eapply py_setitem_elem in He as [->|He]; [done| |done].
    eapply pad_to_padding in He as [He|(Hz & _)]; [|done|done].
    eapply has_copy_mono; [done|done|]. by apply Hsync.
Qed.

Lemma heap_set_is_Some (h : heap) l i v h' l' :
  heap_set h l i v = Some h' → is_Some (h !! l') → is_Some (h' !! l').
Proof.
  intros Hs [rs Hrs]. destruct (decide (l = l')) as [->|Hne].
  - rewrite (heap_set_lookup_eq _ _ _ _ _ _ Hs Hrs). eauto.
  - rewrite (heap_set_lookup_ne _ _ _ _ _ _ Hs Hne). eauto.
Qed.

Lemma rune_packet_sync s r ci char s' out :
  find_char s = Some (ci, char) →
  handle_rune_packet s r = Finished s' true out →
  ∃ char' h0 eq j g,
    find_char s' = Some (ci, char')
    ∧ fit_slots (store s) (equippedGears char) = (h0, eq)
    ∧ equippedGears char' = eq
    ∧ list_find (same_gear (r_gear r) (r_tier r)) eq = Some (j, g)
    ∧ (matched_copy h0 r (inventoryGears char) g →
       has_copy (store s') (inventoryGears char') g)
    ∧ (∀ e w rs,
         w ∈ inventoryGears char → gearID w = gearID e → colors w = colors e →
         h0 !! runes w = Some rs → h0 !! runes e = Some rs →
         (runes e = runes w
          ∨ ((runes e ∉ touched r (inventoryGears char) g)
             ∧ (runes w ∉ touched r (inventoryGears char) g))) →
         has_copy (store s') (inventoryGears char') e).
Proof.
  intros Hf H1.
  destruct (rune_packet_done _ _ _ _ _ _ Hf H1)
    as (h0 & eq & j & g & old & h1 & hfin & inv' & Hfit & Hg & Hslot & Hold
        & Hh1 & Hinv & -> & ->).
  set (idx := Z.to_nat (r_slot r - 1)) in *.
  set (v := written_rune r) in *.
  eexists _, h0, eq, j, g. split; [by apply (find_char_put s ci char)|].
  simpl. split_and!; try done.
  - (* the matched item *)
    unfold matched_copy.
    destruct (list_find _ (inventoryGears char)) as [[m item]|] eqn:Hitem.
    + destruct Hinv as [Hh2 ->]. intros (rs & Hri & Hrg & Hcol).
      apply list_find_Some in Hitem as (Hm & [Hid _] & _).
      apply list_find_Some in Hg as Hg'. destruct Hg' as (_ & [Hgid _] & _).
      exists item, (<[idx := v]> rs). split_and!; try done.
      * by eapply list_elem_of_lookup_2.
      * congruence.
      * destruct (decide (runes g = runes item)) as [Heq|Hne].
        -- rewrite <- Heq in *.
           pose proof (heap_set_lookup_eq _ _ _ _ _ _ Hh1 Hrg) as Hl1.
           rewrite (heap_set_lookup_eq _ _ _ _ _ _ Hh2 Hl1).
           by rewrite list_insert_insert_eq.
        -- pose proof (heap_set_lookup_ne _ _ _ _ _ _ Hh1 Hne) as Hl1.
           rewrite Hri in Hl1. by apply (heap_set_lookup_eq _ _ _ _ _ _ Hh2).
      * destruct (decide (runes item = runes g)) as [Heq|Hne].
        -- rewrite Heq in *.
           pose proof (heap_set_lookup_eq _ _ _ _ _ _ Hh1 Hrg) as Hl1.
           rewrite (heap_set_lookup_eq _ _ _ _ _ _ Hh2 Hl1).
           by rewrite list_insert_insert_eq.
        -- rewrite (heap_set_lookup_ne _ _ _ _ _ _ Hh2 Hne).
           by apply (heap_set_lookup_eq _ _ _ _ _ _ Hh1).
    + destruct Hinv as [-> ->]. intros _.
      destruct (heap_set_Some _ _ _ _ _ Hh1) as (rs & Hrs & _ & _).
      exists g, (<[idx := v]> rs). split_and!; try done.
      * apply elem_of_app. right. by apply list_elem_of_singleton.
      * by apply (heap_set_lookup_eq _ _ _ _ _ _ Hh1).
      * by apply (heap_set_lookup_eq _ _ _ _ _ _ Hh1).
  - (* the other items *)
    intros e w rs Hw Hid Hcol Hrw Hre Hframe.
    assert (w ∈ inv') as Hw'.
    { destruct (list_find _ (inventoryGears char)) as [[m item]|].
      - by destruct Hinv as [_ ->].
      - destruct Hinv as [_ ->]. apply elem_of_app. by left. }
    assert (∀ l, is_Some (h0 !! l) → is_Some (hfin !! l)) as Hdom.
    { intros l Hl. apply (heap_set_is_Some _ _ _ _ _ l Hh1) in Hl.
      destruct (list_find _ (inventoryGears char)) as [[m item]|].
      - destruct Hinv as [Hh2 _]. by eapply heap_set_is_Some.
      - by destruct Hinv as [-> _]. }
    assert (∀ l, l ∉ touched r (inventoryGears char) g → hfin !! l = h0 !! l)
      as Hout.
    { intros l Hl. unfold touched in Hl.
      destruct (list_find _ (inventoryGears char)) as [[m item]|].
      - destruct Hinv as [Hh2 _].
        apply not_elem_of_cons in Hl as [Hl1 Hl2].
        apply not_elem_of_cons in Hl2 as [Hl2 _].
        rewrite (heap_set_lookup_ne _ _ _ _ _ _ Hh2) by done.
        by rewrite (heap_set_lookup_ne _ _ _ _ _ _ Hh1) by done.
      - destruct Hinv as [-> _]. apply not_elem_of_cons in Hl as [Hl1 _].
        by rewrite (heap_set_lookup_ne _ _ _ _ _ _ Hh1) by done. }
    destruct Hframe as [Hsame|[He Hwt]].
    + destruct (Hdom (runes e)) as [rs' Hrs']; [by eauto|].
      exists w, rs'. split_and!; try done. by rewrite <- Hsame.
    + exists w, rs. split_and!; try done.
      * by rewrite Hout.
      * by rewrite Hout.
Qed.

Lemma rune_packet_unsaved s r ci char s' out :
  find_char s = Some (ci, char) →
  handle_rune_packet s r = Finished s' false out →
  ∃ h0 eq, fit_slots (store s) (equippedGears char) = (h0, eq)
           ∧ s' = put_char s ci (set_equippedGears eq char) h0.
Proof.
  intros Hf. unfold handle_rune_packet. rewrite Hf.
  destruct (fit_slots _ _) as [h0 eq] eqn:Hfit.
  assert (Finished (put_char s ci (set_equippedGears eq char) h0) false []
          = Finished s' false out → ∃ h1 eq1, (h0, eq) = (h1, eq1)
            ∧ s' = put_char s ci (set_equippedGears eq1 char) h1) as Hnf.
  { intros [= <- <-]. eauto. }
  destruct (list_find _ eq) as [[j g]|]; [|done].
  case_bool_decide; [|done].
  destruct (heap_get h0 _ _); [|done].
  destruct (heap_set h0 _ _ _) as [h1|]; [|done].
  destruct (list_find _ (inventoryGears char)) as [[m item]|]; [|done].
  destruct (heap_get h1 _ _); [|done].
  by destruct (heap_set h1 _ _ _).
Qed.

(** C1, as the code has it: each handler brings the item it touches in
    line, it does not re-synchronise the others.

    Equip, processed to completion: the item now in the addressed slot
    has an inventory entry of its gear id with the same runes and colors;
    every equipped item that had such an entry keeps it; so if every
    equipped gear had one before, every equipped gear has one after (the
    padding slots have gear id 0).

    Rune socket, processed to completion: the equipped item matched by
    (gear id, tier) has such an entry, provided the inventory entry the
    request matches (if any) held the same runes and colors before (one
    rune is copied, not the rune list; with no match a copy is appended);
    any other item that had an entry keeps it when it shares its rune
    list with that entry, or when neither of the two rune lists is one
    the request writes to. A rune request that is dropped (no gear
    matched, or no rune slot named) keeps every entry. *)
Theorem equip_and_rune_keep_copies s ci char :
  find_char s = Some (ci, char) →
  (∀ r s' saved out,
     stored (store s) (inventoryGears char) →
     handle_gear_packet s r = Finished s' saved out →
     ∃ char' e,
       find_char s' = Some (ci, char')
       ∧ py_getitem (equippedGears char') (g_slot1 r - 1) = Some e
       ∧ gearID e = g_gear r
       ∧ has_copy (store s') (inventoryGears char') e
       ∧ (∀ e0, has_copy (store s) (inventoryGears char) e0 →
                has_copy (store s') (inventoryGears char') e0)
       ∧ (synced (store s) char → synced (store s') char'))
  ∧ (∀ r s' out,
       handle_rune_packet s r = Finished s' true out →
       ∃ char' h0 eq j g,
         find_char s' = Some (ci, char')
         ∧ fit_slots (store s) (equippedGears char) = (h0, eq)
         ∧ equippedGears char' = eq
         ∧ list_find (same_gear (r_gear r) (r_tier r)) eq = Some (j, g)
         ∧ (matched_copy h0 r (inventoryGears char) g →
            has_copy (store s') (inventoryGears char') g)
         ∧ (∀ e w rs,
              w ∈ inventoryGears char → gearID w = gearID e →
              colors w = colors e →
              h0 !! runes w = Some rs → h0 !! runes e = Some rs →
              (runes e = runes w
               ∨ ((runes e ∉ touched r (inventoryGears char) g)
                  ∧ (runes w ∉ touched r (inventoryGears char) g))) →
              has_copy (store s') (inventoryGears char') e))
  ∧ (∀ r s' out,
       handle_rune_packet s r = Finished s' false out →
       ∃ char', find_char s' = Some (ci, char')
                ∧ (synced (store s) char → synced (store s') char')).
Proof.
  intros Hf. split_and!.
  - intros r s' saved out Hst Hrun. by eapply gear_packet_sync.
  - intros r s' out Hrun. by eapply rune_packet_sync.
  - intros r s' out Hrun.
    destruct (rune_packet_unsaved _ _ _ _ _ _ Hf Hrun) as (h0 & eq & Hfit & ->).
    eexists. split; [by apply (find_char_put s ci char)|].
    intros Hsync e He Hne. simpl in *.
    eapply fit_slots_elem in He as [He|(Hz & _)]; [|done|done].
    eapply has_copy_mono; [by eapply fit_slots_store|done|]. by apply Hsync.
Qed.

(** An equipped gear that shares its rune list with its inventory entry,
    as the equip handler leaves it, stays in line under every rune
    request. *)
Lemma rune_packet_keeps_shared s r ci char s' out :
  find_char s = Some (ci, char) →
  stored (store s) (inventoryGears char) →
  (∀ e, e ∈ equippedGears char → gearID e ≠ 0 →
        ∃ w, w ∈ inventoryGears char ∧ gearID w = gearID e
             ∧ runes w = runes e ∧ colors w = colors e) →
  handle_rune_packet s r = Finished s' true out →
  ∃ char', find_char s' = Some (ci, char') ∧ synced (store s') char'.
Proof.
  intros Hf Hst Hsh Hrun.
  destruct (rune_packet_sync _ _ _ _ _ _ Hf Hrun)
    as (char' & h0 & eq & j & g & Hf' & Hfit & Heq & _ & _ & Hframe).
  exists char'. split; [done|]. intros e He Hne. rewrite Heq in He.
  eapply fit_slots_elem in He as [He|(Hz & _)]; [|done|done].
  destruct (Hsh e He Hne) as (w & Hw & Hid & Hr & Hc).
  unfold stored in Hst. rewrite Forall_forall in Hst.
  destruct (Hst w Hw) as [rs Hrs].
  assert (h0 !! runes w = Some rs) as Hrs0.
  { eapply prefix_lookup_Some; [done|]. by eapply fit_slots_store. }
  apply (Hframe e w rs); try done.
  - by rewrite <- Hr.
  - by left.
Qed.

End properties.

(** * Further properties of the handlers *)

Section more_properties.
Context {K : Constants} {T : TextCodec}.

(** ** The forge as a state machine *)

Lemma start_forge_run s r ci char :
  find_char s = Some (ci, char) →
  ∃ char1,
    start_forge_packet s r = Finished (put_char s ci char1 (store s)) true []
    ∧ find_char (put_char s ci char1 (store s)) = Some (ci, char1)
    ∧ magicForge char1 =
        mkForge true (f_primary r) (secondary (magicForge char)) const_286 60000
                0 0 0 0 true
    ∧ materials char1 =
        fold_left (λ m '(mat_id, used), use_material mat_id used m)
                  (materials_used r) (materials char)
    ∧ charms char1 = charms char
    ∧ mammothIdols char1 = mammothIdols char.
Proof.
  intros Hf. unfold start_forge_packet. rewrite Hf. eexists.
  split; [reflexivity|]. split; [by apply (find_char_put s ci char)|done].
Qed.

Lemma speed_up_run s spend ci char :
  find_char s = Some (ci, char) →
  hasSession (magicForge char) = true →
  spend ≤ mammothIdols char →
  ∃ char1,
    magic_forge_packet s spend =
      Finished (put_char s ci char1 (store s)) true
        [Built 0xcd [Method6 (primary (magicForge char)) class_1_const_254;
                     Method91 (var_2675 (magicForge char));
                     Method91 (var_2316 (magicForge char)); Bits 0 1]]
    ∧ find_char (put_char s ci char1 (store s)) = Some (ci, char1)
    ∧ magicForge char1 =
        mkForge true (primary (magicForge char)) (secondary (magicForge char))
                const_264 0 (var_8 (magicForge char)) (usedlist (magicForge char))
                (var_2675 (magicForge char)) (var_2316 (magicForge char))
                (var_2434 (magicForge char))
    ∧ mammothIdols char1 = mammothIdols char - spend
    ∧ charms char1 = charms char.
Proof.
  intros Hf Hs Hspend. unfold magic_forge_packet.
  rewrite Hf, Hs, bool_decide_eq_true_2 by done. cbn [andb]. eexists.
  split; [reflexivity|]. split; [by apply (find_char_put s ci char)|done].
Qed.

Lemma collect_run s ci char :
  find_char s = Some (ci, char) →
  hasSession (magicForge char) = true →
  ∃ char1,
    collect_forge_charm s =
      Finished (put_char s ci char1 (store s)) true [Built 0xe3 []]
    ∧ find_char (put_char s ci char1 (store s)) = Some (ci, char1)
    ∧ magicForge char1 =
        mkForge false 0 0 0 0 (var_8 (magicForge char)) 0 0 0 false
    ∧ charms char1 =
        (if bool_decide (primary (magicForge char) ≤ 0) then charms char
         else charm_add (primary (magicForge char)) (charms char))
    ∧ mammothIdols char1 = mammothIdols char.
Proof.
  intros Hf Hs. unfold collect_forge_charm. rewrite Hf, Hs. cbn [negb].
  eexists. split; [reflexivity|].
  split; [by apply (find_char_put s ci char)|done].
Qed.

Lemma cancel_run s ci char :
  find_char s = Some (ci, char) →
  cancel_forge_packet s =
    Finished (put_char s ci (set_magicForge no_forge char) (store s)) true []
  ∧ find_char (put_char s ci (set_magicForge no_forge char) (store s))
    = Some (ci, set_magicForge no_forge char).
Proof.
  intros Hf. unfold cancel_forge_packet. rewrite Hf.
  split; [reflexivity|]. by apply (find_char_put s ci char).
Qed.

(** X1: start, speed-up and collect in a row. For a character that can
    pay [spend], a start request opens the session, the speed-up is
    accepted and answered with the 0xCD update for the request's primary
    id, and the collect ends with every forge field at its default, the
    idols debited by [spend], and one unit of the primary id granted when
    that id is positive (no charm at all for primary id 0). *)
Theorem forge_full_cycle s r spend ci char :
  find_char s = Some (ci, char) →
  spend ≤ mammothIdols char →
  ∃ s1 s2 s3 char3,
    start_forge_packet s r = Finished s1 true []
    ∧ magic_forge_packet s1 spend =
        Finished s2 true
          [Built 0xcd [Method6 (f_primary r) class_1_const_254;
                       Method91 0; Method91 0; Bits 0 1]]
    ∧ collect_forge_charm s2 = Finished s3 true [Built 0xe3 []]
    ∧ find_char s3 = Some (ci, char3)
    ∧ magicForge char3 = no_forge
    ∧ mammothIdols char3 = mammothIdols char - spend
    ∧ (f_primary r ≤ 0 → charms char3 = charms char)
    ∧ (0 < f_primary r →
       ∀ id, charm_total id (charms char3) =
             charm_total id (charms char)
             + (if bool_decide (id = f_primary r) then 1 else 0)).
Proof.
  intros Hf Hspend.
  destruct (start_forge_run s r ci char Hf)
    as (char1 & Hrun1 & Hf1 & Hmf1 & _ & Hcs1 & Hid1).
  destruct (speed_up_run _ spend ci char1 Hf1)
    as (char2 & Hrun2 & Hf2 & Hmf2 & Hid2 & Hcs2);
    [by rewrite Hmf1|by rewrite Hid1|].
  destruct (collect_run _ ci char2 Hf2)
    as (char3 & Hrun3 & Hf3 & Hmf3 & Hcs3 & Hid3); [by rewrite Hmf2|].
  rewrite Hmf1 in Hrun2, Hmf2. rewrite Hmf2 in Hmf3, Hcs3. simpl in *.
  eexists _, _, _, char3. split; [exact Hrun1|]. split; [exact Hrun2|].
  split; [exact Hrun3|]. split; [exact Hf3|]. split; [exact Hmf3|].
  split; [lia|]. rewrite Hcs3, Hcs2, Hcs1. split.
  - intros Hp. by rewrite bool_decide_eq_true_2.
  - intros Hp id. rewrite bool_decide_eq_false_2 by lia. apply charm_add_total.
Qed.

(** X2: cancelling refunds nothing. After a start request and a cancel,
    the forge is idle with every field at its default, while each listed
    material stays at its count minus the requested amount, clamped at
    zero, and charms and idols are as before the start. *)
Theorem start_then_cancel_no_refund s r ci char :
  find_char s = Some (ci, char) →
  ∃ s1 s2 char2,
    start_forge_packet s r = Finished s1 true []
    ∧ cancel_forge_packet s1 = Finished s2 true []
    ∧ find_char s2 = Some (ci, char2)
    ∧ magicForge char2 = no_forge
    ∧ (∀ id, material_lookup id (materials char2) =
             match dict_get id (materials_used r) with
             | Some used => Some (deducted used (material_lookup id (materials char)))
             | None => material_lookup id (materials char)
             end)
    ∧ charms char2 = charms char
    ∧ mammothIdols char2 = mammothIdols char.
Proof.
  intros Hf.
  destruct (start_forge_run s r ci char Hf)
    as (char1 & Hrun1 & Hf1 & _ & Hmats & Hcs1 & Hid1).
  destruct (cancel_run _ ci char1 Hf1) as [Hrun2 Hf2].
  eexists _, _, _. split; [exact Hrun1|]. split; [exact Hrun2|].
  split; [exact Hf2|]. split; [reflexivity|]. simpl. split; [|done].
  intros id. rewrite Hmats. apply use_materials_lookup, materials_used_NoDup.
Qed.

(** X3: a session is collected once. After a collect, a second collect
    and a speed-up change nothing, persist nothing and send nothing; so
    the charm of a session cannot be granted twice. *)
Theorem collect_only_once s ci char spend :
  find_char s = Some (ci, char) →
  hasSession (magicForge char) = true →
  ∃ s1,
    collect_forge_charm s = Finished s1 true [Built 0xe3 []]
    ∧ collect_forge_charm s1 = Finished s1 false []
    ∧ magic_forge_packet s1 spend = Finished s1 false [].
Proof.
  intros Hf Hs.
  destruct (collect_run s ci char Hf Hs) as (char1 & Hrun1 & Hf1 & Hmf1 & _).
  eexists. split; [exact Hrun1|].
  unfold collect_forge_charm, magic_forge_packet. by rewrite Hf1, Hmf1.
Qed.

(** X4: the speed-up looks at [hasSession] only, not at the status. A
    session that a speed-up has completed accepts a second speed-up, and
    the idols are debited both times. *)
Theorem speed_up_twice_debits_twice s ci char spend1 spend2 :
  find_char s = Some (ci, char) →
  hasSession (magicForge char) = true →
  spend1 ≤ mammothIdols char →
  spend2 ≤ mammothIdols char - spend1 →
  ∃ s1 s2 char2 reply,
    magic_forge_packet s spend1 = Finished s1 true [reply]
    ∧ magic_forge_packet s1 spend2 = Finished s2 true [reply]
    ∧ find_char s2 = Some (ci, char2)
    ∧ mammothIdols char2 = mammothIdols char - spend1 - spend2
    ∧ status (magicForge char2) = const_264
    ∧ hasSession (magicForge char2) = true.
Proof.
  intros Hf Hs H1 H2.
  destruct (speed_up_run s spend1 ci char Hf Hs H1)
    as (char1 & Hrun1 & Hf1 & Hmf1 & Hid1 & _).
  destruct (speed_up_run _ spend2 ci char1 Hf1)
    as (char2 & Hrun2 & Hf2 & Hmf2 & Hid2 & _);
    [by rewrite Hmf1|by rewrite Hid1|].
  rewrite Hmf1 in Hrun2, Hmf2. simpl in *.
  eexists _, _, char2, _. split; [exact Hrun1|]. split; [exact Hrun2|].
  split; [exact Hf2|]. rewrite Hmf2. split; [lia|done].
Qed.

(** X20: a start request does not look at the session it replaces. Two
    start requests in a row are both accepted: the materials of both are
    deducted (each clamped at zero), nothing is refunded, and the
    session is the one of the second request, so the charm of the first
    can no longer be collected. *)
Theorem start_twice_deducts_twice s r1 r2 ci char :
  find_char s = Some (ci, char) →
  ∃ s1 s2 char2,
    start_forge_packet s r1 = Finished s1 true []
    ∧ start_forge_packet s1 r2 = Finished s2 true []
    ∧ find_char s2 = Some (ci, char2)
    ∧ primary (magicForge char2) = f_primary r2
    ∧ hasSession (magicForge char2) = true
    ∧ charms char2 = charms char
    ∧ ∀ id,
        material_lookup id (materials char2) =
        let after1 :=
          match dict_get id (materials_used r1) with
          | Some used => Some (deducted used (material_lookup id (materials char)))
          | None => material_lookup id (materials char)
          end in
        match dict_get id (materials_used r2) with
        | Some used => Some (deducted used after1)
        | None => after1
        end.
Proof.
  intros Hf.
  destruct (start_forge_run s r1 ci char Hf)
    as (char1 & Hrun1 & Hf1 & Hmf1 & Hmat1 & Hch1 & _).
  destruct (start_forge_run _ r2 ci char1 Hf1)
    as (char2 & Hrun2 & Hf2 & Hmf2 & Hmat2 & Hch2 & _).
  eexists _, _, char2. split; [exact Hrun1|]. split; [exact Hrun2|].
  split; [exact Hf2|]. rewrite Hmf2. split_and!; [done|done|congruence|].
  intros id. rewrite Hmat2, use_materials_lookup by apply materials_used_NoDup.
  by rewrite Hmat1, use_materials_lookup by apply materials_used_NoDup.
Qed.

(** ** Hotbar *)

Lemma hotbar_run s raw_data declared ci char :
  find_char s = Some (ci, char) →
  payload_bits raw_data = hotbar_wire declared →
  Forall valid_skill declared →
  handle_hotbar_packet s raw_data =
    Finished (put_char s ci
                (set_activeAbilities
                   (overlay declared
                      (activeAbilities char
                       ++ replicate (flagged_top declared
                                     - length (activeAbilities char)) 0))
                   char) (store s)) true [].
Proof.
  intros Hf Hwire Hvalid. unfold handle_hotbar_packet. rewrite Hwire.
  pose proof (hotbar_loop_wire declared (length (hotbar_wire declared)) 0 []
                Hvalid (le_n _) (Forall_nil_2 _)) as Hloop.
  change (Z.of_nat 0 + 1) with 1 in Hloop. rewrite app_nil_l in Hloop.
  rewrite Hloop, Hf, max_key_flagged, grow_eq.
  replace (Z.to_nat (Z.of_nat (flagged_top declared) - 1 + 1
                     - Z.of_nat (length (activeAbilities char))))
    with (flagged_top declared - length (activeAbilities char))%nat by lia.
  pose proof (apply_flagged_pairs declared []
                (activeAbilities char
                 ++ replicate (flagged_top declared
                               - length (activeAbilities char)) 0)) as Happ.
  simpl in Happ. rewrite Happ; [done|].
  rewrite length_app, length_replicate. lia.
Qed.

(** X21: a hotbar packet is idempotent. If the handler accepts a packet
    for the session's character, handling the same packet again leaves
    the save exactly as the first time: the flagged slots hold their
    skill ids already and the list is not grown again. *)
Theorem hotbar_packet_idempotent s raw_data ci char s1 :
  find_char s = Some (ci, char) →
  handle_hotbar_packet s raw_data = Finished s1 true [] →
  handle_hotbar_packet s1 raw_data = Finished s1 true [].
Proof.
  intros Hf Hrun.
  assert (∃ declared, Forall valid_skill declared
                      ∧ payload_bits raw_data = hotbar_wire declared)
    as (declared & Hvalid & Hwire).
  { unfold handle_hotbar_packet in Hrun.
    destruct (hotbar_loop _ _ _ _) as [updates|] eqn:Hloop; [|done].
    by eapply hotbar_payload_declared. }
  rewrite (hotbar_run s raw_data declared ci char Hf Hwire Hvalid) in Hrun.
  injection Hrun as <-.
  set (active1 := overlay declared _).
  rewrite (hotbar_run _ raw_data declared ci (set_activeAbilities active1 char));
    [|by apply (find_char_put s ci char)|done|done].
  assert (length active1
          = (length (activeAbilities char) `max` flagged_top declared)%nat) as Hlen.
  { unfold active1. rewrite overlay_length, length_app, length_replicate. lia. }
  cbn [activeAbilities set_activeAbilities].
  replace (flagged_top declared - length active1)%nat with 0%nat by lia.
  cbn [replicate]. rewrite app_nil_r.
  assert (overlay declared active1 = active1) as ->.
  { apply list_eq. intros i.
    destruct (decide (i < length active1)%nat) as [Hi|Hi].
    - rewrite overlay_lookup by done.
      destruct (lookup_lt_is_Some_2 active1 i Hi) as [x Hx]. rewrite Hx.
      f_equal. simpl.
      unfold active1 in Hx. rewrite overlay_lookup in Hx.
      2:{ unfold active1 in Hi. by rewrite overlay_length in Hi. }
      injection Hx as Hx. by destruct (declared !! i) as [[id|]|].
    - rewrite !lookup_ge_None_2; [done|lia|rewrite overlay_length; lia]. }
  unfold put_char. cbn [characters current_character store].
  by rewrite list_insert_insert_eq.
Qed.

(** ** Gear sets *)

Lemma apply_gearset_done s raw_data s' out :
  handle_apply_gearset s raw_data = Finished s' true out →
  ∃ k rest ci char,
    read_bits (Z.to_nat const_348) (payload_bits raw_data) = Some (k, rest)
    ∧ find_char s = Some (ci, char)
    ∧ k < Z.of_nat (length (gearSets char))
    ∧ Z.of_nat (length (equippedGears char)) = MAX_SLOTS - 1
    ∧ s' = put_char s ci
             (set_gearSets
                (alter (set_slots (gearID <$> equippedGears char)) (Z.to_nat k)
                       (gearSets char)) char) (store s)
    ∧ out = [Raw raw_data].
Proof.
  unfold handle_apply_gearset.
  destruct (read_bits _ _) as [[k rest]|] eqn:Hr; [|done].
  destruct (find_char s) as [[ci char]|] eqn:Hf; [|done].
  case_bool_decide as Hk; [done|]. case_bool_decide as Hlen; [done|].
  intros [= <- <-]. exists k, rest, ci, char. split_and!; try done; lia.
Qed.

(** X5: every gear set keeps the standard slot count. If the sets of a
    character all have [MAX_SLOTS - 1] slots, they still do after any
    create, name or apply request; so on saves made by these handlers the
    slot list of a set and the equipped list of an accepted apply request
    have the same length. *)
Theorem gear_sets_stay_sized s raw_data ci char s' saved out :
  0 ≤ MAX_SLOTS - 1 →
  find_char s = Some (ci, char) →
  sets_sized char →
  handle_create_gearset s raw_data = Finished s' saved out
  ∨ handle_name_gearset s raw_data = Finished s' saved out
  ∨ handle_apply_gearset s raw_data = Finished s' saved out →
  ∃ char', find_char s' = Some (ci, char') ∧ sets_sized char'.
Proof.
  intros HM Hf Hsized [Hrun|[Hrun|Hrun]].
  - unfold handle_create_gearset in Hrun.
    destruct (read_bits _ _) as [[k rest]|]; [|done]. rewrite Hf in Hrun.
    injection Hrun as <- <- <-.
    eexists. split; [by apply (find_char_put s ci char)|].
    unfold sets_sized in *. simpl.
    assert (Z.of_nat (length (replicate (Z.to_nat (MAX_SLOTS - 1)) 0)) = MAX_SLOTS - 1)
      as Hnew by (rewrite length_replicate; lia).
    case_bool_decide.
    + apply Forall_insert; done.
    + apply Forall_app. split; [done|]. by constructor.
  - unfold handle_name_gearset in Hrun.
    destruct (read_bits 3 _) as [[k bits1]|]; [|done].
    destruct (read_bits 16 _) as [[len bits2]|]; [|done].
    case_bool_decide.
    { injection Hrun as <- <- <-. by exists char. }
    destruct (read_bytes _ _) as [[bs rest]|]; [|done]. rewrite Hf in Hrun.
    case_bool_decide; injection Hrun as <- <- <-; [|by exists char].
    eexists. split; [by apply (find_char_put s ci char)|].
    unfold sets_sized in *. simpl. apply Forall_alter; [done|].
    by intros g Hg Hp.
  - destruct saved.
    + apply apply_gearset_done in Hrun
        as (k & rest & ci' & char0 & _ & Hf' & Hk & Hlen & -> & _).
      rewrite Hf in Hf'. injection Hf' as <- <-.
      eexists. split; [by apply (find_char_put s ci char)|].
      unfold sets_sized in *. simpl. apply Forall_alter; [done|].
      intros g Hg _. simpl. by rewrite length_fmap.
    + unfold handle_apply_gearset in Hrun.
      destruct (read_bits _ _) as [[k rest]|]; [|done]. rewrite Hf in Hrun.
      repeat case_bool_decide; [| |done]; injection Hrun as <- <-; by exists char.
Qed.

(** X6: a set is created at its index only when that index is at most
    the number of sets. Creating a set with index [k] and then applying
    the equipped gears to index [k]: when [k] is at most the number of
    sets (and [MAX_SLOTS - 1] gears are equipped) the set ["GearSet k+1"]
    ends up at index [k] holding the equipped gear ids; when [k] is
    larger the new set was appended at the end, index [k] still does not
    exist, and the apply request is dropped. *)
Theorem create_then_apply_gearset s create_raw apply_raw k rest rest' ci char :
  read_bits (Z.to_nat const_348) (payload_bits create_raw) = Some (k, rest) →
  read_bits (Z.to_nat const_348) (payload_bits apply_raw) = Some (k, rest') →
  find_char s = Some (ci, char) →
  ∃ s1 char1,
    handle_create_gearset s create_raw = Finished s1 true [Raw create_raw]
    ∧ find_char s1 = Some (ci, char1)
    ∧ (k ≤ Z.of_nat (length (gearSets char)) →
       Z.of_nat (length (equippedGears char)) = MAX_SLOTS - 1 →
       ∃ s2 char2,
         handle_apply_gearset s1 apply_raw = Finished s2 true [Raw apply_raw]
         ∧ find_char s2 = Some (ci, char2)
         ∧ gearSets char2 !! Z.to_nat k =
             Some {| gs_name := "GearSet " +:+ pretty (k + 1);
                     slots := gearID <$> equippedGears char |})
    ∧ (Z.of_nat (length (gearSets char)) < k →
       handle_apply_gearset s1 apply_raw = Finished s1 false []
       ∧ gearSets char1 =
           gearSets char ++ [ {| gs_name := "GearSet " +:+ pretty (k + 1);
                                 slots := replicate (Z.to_nat (MAX_SLOTS - 1)) 0 |} ]).
Proof.
  intros Hr Hr' Hf. pose proof (read_bits_nonneg _ _ _ _ Hr) as Hk.
  unfold handle_create_gearset. rewrite Hr, Hf.
  eexists _, _. split; [done|].
  split; [by apply (find_char_put s ci char)|].
  split.
  - intros Hle Hlen. unfold handle_apply_gearset. rewrite Hr'.
    rewrite (find_char_put s ci char) by done. simpl.
    set (new := {| gs_name := _; slots := replicate _ _ |}).
    assert (k < Z.of_nat (length
              (if bool_decide (k < Z.of_nat (length (gearSets char)))
               then <[Z.to_nat k := new]> (gearSets char)
               else gearSets char ++ [new]))) as Hlt.
    { case_bool_decide; [by rewrite length_insert|].
      rewrite length_app. simpl. lia. }
    rewrite (bool_decide_eq_false_2 (_ ≤ k)) by lia.
    rewrite (bool_decide_eq_false_2 (_ ≠ _)) by (intros ?; lia).
    eexists _, _. split; [done|].
    split.
    { apply find_char_put with (char := set_gearSets
        (if bool_decide (k < Z.of_nat (length (gearSets char)))
         then <[Z.to_nat k := new]> (gearSets char)
         else gearSets char ++ [new]) char); [|done].
      by apply (find_char_put s ci char). }
    simpl. rewrite list_lookup_alter_eq.
    case_bool_decide as Hc.
    + rewrite list_lookup_insert_eq by lia. done.
    + assert (Z.to_nat k = length (gearSets char)) as -> by lia.
      rewrite lookup_app_r by lia. by rewrite Nat.sub_diag.
  - intros Hgt. rewrite (bool_decide_eq_false_2 (k < _)) by lia.
    split; [|done]. unfold handle_apply_gearset. rewrite Hr'.
    rewrite (find_char_put s ci char) by done. simpl.
    rewrite bool_decide_eq_true_2; [done|].
    rewrite length_app. simpl. lia.
Qed.

Lemma read_bytes_wire bytes rest :
  Forall (λ b, 0 ≤ b < 256) bytes →
  read_bytes (length bytes) ((bytes ≫= byte_bits 8) ++ rest) = Some (bytes, rest).
Proof.
  induction 1 as [|b bytes Hb _ IH]; [done|].
  cbn [length read_bytes]. rewrite bind_cons, <- app_assoc.
  rewrite read_bits_app by apply byte_bits_length.
  rewrite bits_value_byte_bits by (simpl; lia). cbn [mbind option_bind].
  by rewrite IH.
Qed.

Lemma read_bytes_enough n bits :
  (8 * n ≤ length bits)%nat → is_Some (read_bytes n bits).
Proof.
  revert bits. induction n as [|n IH]; intros bits Hn; [by eexists|].
  cbn [read_bytes]. unfold read_bits at 1.
  rewrite bool_decide_eq_true_2 by lia. simpl.
  destruct (IH (drop 8 bits)) as [[bs r] ->]; [rewrite length_drop; lia|].
  by eexists.
Qed.

(** X7: a name-gearset packet laid out as the handler reads it (set
    index on 3 bits, byte count on 16 bits, the bytes, any padding)
    renames exactly the addressed set to the decoded bytes, keeps its
    slots and every other set, and is echoed; addressed to a set that
    does not exist it changes nothing and is not answered. *)
Theorem name_gearset_renames s raw_data k bytes pad ci char :
  payload_bits raw_data = name_wire k bytes ++ pad →
  0 ≤ k < 8 →
  Z.of_nat (length bytes) < 65536 →
  Forall (λ b, 0 ≤ b < 256) bytes →
  find_char s = Some (ci, char) →
  (∀ g, gearSets char !! Z.to_nat k = Some g →
     ∃ s' char',
       handle_name_gearset s raw_data = Finished s' true [Raw raw_data]
       ∧ find_char s' = Some (ci, char')
       ∧ gearSets char' =
           <[Z.to_nat k := {| gs_name := decode_text bytes; slots := slots g |}]>
             (gearSets char)
       ∧ equippedGears char' = equippedGears char)
  ∧ (gearSets char !! Z.to_nat k = None →
     handle_name_gearset s raw_data = Finished s false []).
Proof.
  intros Hwire Hk Hlen Hbytes Hf.
  assert (∃ bits2, read_bits 3 (payload_bits raw_data)
                   = Some (k, byte_bits 16 (Z.of_nat (length bytes)) ++ bits2)
            ∧ bits2 = (bytes ≫= byte_bits 8) ++ pad) as (bits2 & Hr1 & Hb2).
  { eexists. split; [|done]. rewrite Hwire. unfold name_wire.
    rewrite <- !app_assoc, read_bits_app by apply byte_bits_length.
    rewrite bits_value_byte_bits by (simpl; lia). done. }
  assert (length (bytes ≫= byte_bits 8) = (8 * length bytes)%nat) as Hbl.
  { clear. induction bytes as [|b bytes IH]; [done|].
    rewrite bind_cons, length_app, byte_bits_length, IH. simpl. lia. }
  assert (¬ Z.of_nat (length bits2) `div` 8 < Z.of_nat (length bytes)) as Hroom.
  { rewrite Hb2, length_app, Hbl.
    assert (Z.of_nat (length bytes)
            ≤ Z.of_nat (8 * length bytes + length pad) `div` 8); [|lia].
    apply Z.div_le_lower_bound; lia. }
  unfold handle_name_gearset. rewrite Hr1.
  rewrite read_bits_app by apply byte_bits_length.
  rewrite bits_value_byte_bits by (simpl; lia).
  rewrite (bool_decide_eq_false_2 _ Hroom), Nat2Z.id, Hb2, read_bytes_wire by done.
  rewrite Hf. split.
  - intros g Hg. apply lookup_lt_Some in Hg as Hlt.
    rewrite bool_decide_eq_true_2 by lia.
    eexists _, _. split; [done|].
    split; [by apply (find_char_put s ci char)|]. split; [|done].
    simpl. apply list_eq. intros i.
    destruct (decide (i = Z.to_nat k)) as [->|Hne].
    + rewrite list_lookup_alter_eq, Hg, list_lookup_insert_eq by done. done.
    + by rewrite list_lookup_alter_ne, list_lookup_insert_ne.
  - intros Hnone. apply lookup_ge_None in Hnone.
    rewrite bool_decide_eq_false_2 by lia. done.
Qed.

(** X8: a name-gearset packet whose payload holds the 19 header bits is
    never an error, whatever follows: the handler either drops it
    (nothing changed, nothing saved, no reply) or saves and echoes it,
    and then the character has the same number of sets with the same
    slots, the same equipped and inventory gears; only set names can
    differ. In particular a declared byte count larger than the bytes
    present is dropped, not read past the end. *)
Theorem name_gearset_only_names s raw_data ci char :
  (19 ≤ length (payload_bits raw_data))%nat →
  find_char s = Some (ci, char) →
  handle_name_gearset s raw_data = Finished s false []
  ∨ ∃ s' char',
      handle_name_gearset s raw_data = Finished s' true [Raw raw_data]
      ∧ find_char s' = Some (ci, char')
      ∧ slots <$> gearSets char' = slots <$> gearSets char
      ∧ equippedGears char' = equippedGears char
      ∧ inventoryGears char' = inventoryGears char
      ∧ store s' = store s.
Proof.
  intros Hlen Hf.
  assert (handle_name_gearset s raw_data = Finished s false []
          ∨ ∃ nm k, handle_name_gearset s raw_data =
              Finished (put_char s ci
                          (set_gearSets (alter (set_name nm) k (gearSets char)) char)
                          (store s)) true [Raw raw_data]) as [?|(nm & k & Hrun)].
  { remember (handle_name_gearset s raw_data) as o eqn:Ho.
    unfold handle_name_gearset in Ho.
    unfold read_bits at 1 in Ho. rewrite bool_decide_eq_true_2 in Ho by lia.
    unfold read_bits at 1 in Ho.
    rewrite bool_decide_eq_true_2 in Ho by (rewrite length_drop; lia).
    case_bool_decide as Hroom; [by left|].
    destruct (read_bytes_enough
                (Z.to_nat (bits_value (take 16 (drop 3 (payload_bits raw_data)))))
                (drop 16 (drop 3 (payload_bits raw_data)))) as [[bs r] Hbs].
    { pose proof (bits_value_bound (take 16 (drop 3 (payload_bits raw_data)))).
      assert (bits_value (take 16 (drop 3 (payload_bits raw_data)))
              ≤ Z.of_nat (length (drop 16 (drop 3 (payload_bits raw_data)))) `div` 8)
        as Hle by lia.
      pose proof (Z.mul_div_le
        (Z.of_nat (length (drop 16 (drop 3 (payload_bits raw_data))))) 8). lia. }
    rewrite Hbs, Hf in Ho. case_bool_decide; [|by left]. right. by eexists _, _. }
  { by left. }
  right. eexists _, _. split; [exact Hrun|].
  split; [by apply (find_char_put s ci char)|].
  split_and!; try done.
  simpl. apply list_eq. intros i. rewrite !list_lookup_fmap.
  destruct (decide (i = k)) as [->|Hne].
  - rewrite list_lookup_alter_eq. by destruct (gearSets char !! _).
  - by rewrite list_lookup_alter_ne.
Qed.

(** ** Bulk equipment update *)

Lemma dict_set_key_inv {V} key k (v : V) (d : pydict V) :
  key ∈ (dict_set k v d).*1 → key = k ∨ key ∈ d.*1.
Proof.
  induction d as [|[k' v'] d IH]; simpl.
  - rewrite list_elem_of_singleton. by left.
  - case_bool_decide; simpl; rewrite !elem_of_cons.
    + intros [->|Hin]; [by left|right; by right].
    + intros [->|Hin]; [by right; left|]. destruct (IH Hin); auto.
Qed.

Lemma insert_elem_inv {A} (l : list A) i x y :
  y ∈ <[i := x]> l → y = x ∨ y ∈ l.
Proof.
  intros (j & Hj)%list_elem_of_lookup_1.
  destruct (decide (i = j)) as [->|Hne].
  - assert (j < length l)%nat as Hlt.
    { apply lookup_lt_Some in Hj. by rewrite length_insert in Hj. }
    rewrite list_lookup_insert_eq in Hj by done. left. by injection Hj.
  - rewrite list_lookup_insert_ne in Hj by done. right.
    by eapply list_elem_of_lookup_2.
Qed.

Lemma read_bits_enough n bits :
  (n ≤ length bits)%nat →
  read_bits n bits = Some (bits_value (take n bits), drop n bits).
Proof. intros. unfold read_bits. by rewrite bool_decide_eq_true_2. Qed.

Lemma read_slot_flags_short slots : ∀ bits updates,
  (length bits < length slots)%nat →
  read_slot_flags slots bits updates = NotEnoughBits.
Proof.
  induction slots as [|slot slots IH]; intros bits updates Hlen; [simpl in Hlen; lia|].
  cbn [read_slot_flags]. unfold read_method_6. case_bool_decide as H1; [done|].
  rewrite read_bits_enough by lia.
  case_bool_decide; [|apply IH; rewrite length_drop; simpl in Hlen; lia].
  case_bool_decide as HG; [done|].
  rewrite read_bits_enough by lia.
  apply IH. rewrite !length_drop. simpl in Hlen. lia.
Qed.

Lemma read_slot_flags_keys slots : ∀ bits updates,
  read_slot_flags slots bits updates ≠ ReaderFailed
  ∧ ∀ updates', read_slot_flags slots bits updates = SlotUpdates updates' →
      ∀ key, key ∈ updates'.*1 → key ∈ updates.*1 ∨ key ∈ slots.
Proof.
  induction slots as [|slot slots IH]; intros bits updates;
    cbn [read_slot_flags]; unfold read_method_6.
  { split; [done|]. intros ? [= <-] key Hkey. by left. }
  case_bool_decide as H1; [done|].
  rewrite read_bits_enough by lia.
  case_bool_decide.
  - case_bool_decide as HG; [done|].
    rewrite read_bits_enough by lia.
    destruct (IH (drop (Z.to_nat GEARTYPE_BITSTOSEND) (drop 1 bits))
                 (dict_set slot
                    (bits_value (take (Z.to_nat GEARTYPE_BITSTOSEND) (drop 1 bits)))
                    updates)) as [Hne Hkeys].
    split; [done|]. intros updates' Hrun key Hkey.
    destruct (Hkeys _ Hrun _ Hkey) as [[->|?]%dict_set_key_inv|?].
    + right. by left.
    + by left.
    + right. by right.
  - destruct (IH (drop 1 bits) updates) as [Hne Hkeys].
    split; [done|]. intros updates' Hrun key Hkey.
    destruct (Hkeys _ Hrun _ Hkey); [by left|right; by right].
Qed.

Lemma equip_updates_ok inv updates : ∀ h eq,
  Forall (λ key, 0 ≤ key < Z.of_nat (length eq)) updates.*1 →
  ∃ h' eq',
    equip_updates updates inv h eq = Some (h', eq')
    ∧ length eq' = length eq
    ∧ h `prefix_of` h'
    ∧ ∀ e, e ∈ eq' →
        e ∈ eq ∨ e ∈ inv
        ∨ (gearID e = 0 ∧ h' !! runes e = Some [0; 0; 0] ∧ (length h ≤ runes e)%nat).
Proof.
  induction updates as [|[slot gear_id] updates IH]; intros h eq Hkeys.
  { exists h, eq. split_and!; auto. }
  rewrite fmap_cons in Hkeys. apply Forall_cons in Hkeys as [Hslot Hkeys].
  cbn [equip_updates fst] in *.
  destruct (list_find _ inv) as [[j item]|] eqn:Hfind.
  - rewrite py_setitem_Some by done. cbn [mbind option_bind].
    destruct (IH h (<[Z.to_nat slot := item]> eq)) as (h' & eq' & -> & Hlen & Hpre & Hel).
    { by rewrite length_insert. }
    exists h', eq'. split; [done|]. rewrite Hlen, length_insert.
    split_and!; [done|done|]. intros e He.
    destruct (Hel e He) as [Hin|[?|?]]; auto.
    apply insert_elem_inv in Hin as [->|?]; [|by left].
    apply list_find_Some in Hfind as (Hj & _ & _).
    right; left. by eapply list_elem_of_lookup_2.
  - unfold alloc. rewrite py_setitem_Some by done. cbn [mbind option_bind].
    destruct (IH (h ++ [[0; 0; 0]]) (<[Z.to_nat slot := default_gear (length h)]> eq))
      as (h' & eq' & -> & Hlen & Hpre & Hel).
    { by rewrite length_insert. }
    exists h', eq'. split; [done|]. rewrite Hlen, length_insert.
    split_and!; [done|by etrans; [apply prefix_app_r|exact Hpre]|].
    intros e He.
    destruct (Hel e He) as [Hin|[?|(? & ? & Hfresh)]]; auto.
    + apply insert_elem_inv in Hin as [->|?]; [|by left].
      right; right. simpl. split_and!; [done| |done].
      eapply prefix_lookup_Some; [|exact Hpre].
      by rewrite lookup_app_r, Nat.sub_diag by lia.
    + right; right. split_and!; [done..|]. rewrite length_app in Hfresh. lia.
Qed.

Lemma slot_after_mono h0 h0' h h' inv o before after :
  (length h0 ≤ length h0')%nat → h `prefix_of` h' →
  slot_after h0' h inv o before after → slot_after h0 h' inv o before after.
Proof.
  intros Hlen Hpre. unfold slot_after. destruct o as [id|]; [|done].
  destruct (list_find _ inv) as [[??]|]; [done|].
  intros (l & -> & Hl & Hfresh). exists l. split_and!; [done| |lia].
  by eapply prefix_lookup_Some.
Qed.

Lemma equip_updates_pairs inv declared : ∀ k h eq,
  (k + length declared ≤ length eq)%nat →
  ∃ h' eq',
    equip_updates (flagged_pairs declared k) inv h eq = Some (h', eq')
    ∧ length eq' = length eq
    ∧ h `prefix_of` h'
    ∧ (∀ i, (i < k)%nat → eq' !! i = eq !! i)
    ∧ ∀ i o, declared !! i = Some o →
        slot_after h h' inv o (eq !! (k + i)%nat) (eq' !! (k + i)%nat).
Proof.
  induction declared as [|o declared IH]; intros k h eq Hlen.
  { exists h, eq. split_and!; auto. intros i o Hi. by rewrite lookup_nil in Hi. }
  simpl in Hlen. destruct o as [id|]; cbn [flagged_pairs].
  - cbn [equip_updates].
    set (step := match list_find (λ item, gearID item = id) inv with
                 | Some (_, item) => (h, item)
                 | None => let '(l, h') := alloc h [0; 0; 0] in (h', default_gear l)
                 end).
    destruct step as [h1 gear] eqn:Hstep.
    assert (h `prefix_of` h1
            ∧ slot_after h h1 inv (Some id) (eq !! k) (Some gear)) as [Hpre1 Hslot].
    { unfold step in Hstep. unfold slot_after.
      destruct (list_find _ inv) as [[j item]|].
      - by injection Hstep as <- <-.
      - unfold alloc in Hstep. injection Hstep as <- <-.
        split; [apply prefix_app_r; done|].
        exists (length h). split_and!; [done| |done].
        by rewrite lookup_app_r, Nat.sub_diag by lia. }
    rewrite py_setitem_Some by lia. rewrite Nat2Z.id. cbn [mbind option_bind].
    destruct (IH (S k) h1 (<[k := gear]> eq))
      as (h' & eq' & -> & Hlen' & Hpre & Hlow & Hslots).
    { rewrite length_insert. lia. }
    exists h', eq'. rewrite Hlen', length_insert.
    split_and!; [done|done|by etrans| |].
    + intros i Hi. rewrite Hlow by lia. apply list_lookup_insert_ne. lia.
    + intros [|i] o Hi; simpl in Hi.
      * injection Hi as <-. rewrite Nat.add_0_r, Hlow by lia.
        rewrite list_lookup_insert_eq by lia.
        apply (slot_after_mono h h h1 h'); [lia|exact Hpre|exact Hslot].
      * replace (k + S i)%nat with (S k + i)%nat by lia.
        specialize (Hslots i o Hi).
        rewrite list_lookup_insert_ne in Hslots by lia.
        apply (slot_after_mono h h1 h' h'); [by apply prefix_length|done|exact Hslots].
  - destruct (IH (S k) h eq) as (h' & eq' & -> & Hlen' & Hpre & Hlow & Hslots); [lia|].
    exists h', eq'. split_and!; [done|done|done| |].
    + intros i Hi. apply Hlow. lia.
    + intros [|i] o Hi; simpl in Hi.
      * injection Hi as <-. rewrite Nat.add_0_r. simpl. apply Hlow. lia.
      * replace (k + S i)%nat with (S k + i)%nat by lia. by apply Hslots.
Qed.

Lemma read_slot_flags_wire declared : ∀ k updates pad,
  0 ≤ GEARTYPE_BITSTOSEND →
  Forall valid_gear declared →
  Forall (λ key, key < Z.of_nat k) updates.*1 →
  read_slot_flags (seqZ (Z.of_nat k) (Z.of_nat (length declared)))
                  (equip_wire declared ++ pad) updates
  = SlotUpdates (updates ++ flagged_pairs declared k).
Proof.
  induction declared as [|o declared IH]; intros k updates pad HG Hv Hkeys.
  { simpl. by rewrite app_nil_r. }
  apply Forall_cons in Hv as [Ho Hv].
  rewrite seqZ_cons by (simpl; lia).
  replace (Z.pred (Z.of_nat (length (o :: declared))))
    with (Z.of_nat (length declared)) by (simpl; lia).
  replace (Z.succ (Z.of_nat k)) with (Z.of_nat (S k)) by lia.
  change (equip_wire (o :: declared)) with
    (match o with
     | None => [false]
     | Some id => true :: byte_bits (Z.to_nat GEARTYPE_BITSTOSEND) id
     end ++ equip_wire declared).
  cbn [read_slot_flags]. unfold read_method_6. destruct o as [id|].
  - rewrite bool_decide_eq_false_2 by (simpl; lia).
    change ((true :: byte_bits (Z.to_nat GEARTYPE_BITSTOSEND) id)
            ++ equip_wire declared) with
      ([true] ++ (byte_bits (Z.to_nat GEARTYPE_BITSTOSEND) id ++ equip_wire declared)).
    rewrite <- !app_assoc, read_bits_app by done.
    rewrite bool_decide_eq_true_2 by done.
    rewrite bool_decide_eq_false_2
      by (rewrite length_app, byte_bits_length; lia).
    rewrite read_bits_app by apply byte_bits_length.
    rewrite bits_value_byte_bits by (rewrite Z2Nat.id by done; by apply Ho).
    rewrite dict_set_fresh.
    2:{ intros Hin. rewrite Forall_forall in Hkeys. apply Hkeys in Hin. lia. }
    rewrite IH; [by rewrite <- app_assoc|done|done|].
    rewrite fmap_app. apply Forall_app. split.
    + eapply Forall_impl; [exact Hkeys|]. intros; simpl in *; lia.
    + repeat constructor. simpl. lia.
  - rewrite bool_decide_eq_false_2 by (simpl; lia).
    rewrite <- app_assoc, read_bits_app by done.
    rewrite bool_decide_eq_false_2 by (intros Hne; by apply Hne).
    rewrite IH; [done|done|done|].
    eapply Forall_impl; [exact Hkeys|]. intros; simpl in *; lia.
Qed.

(** X9: what a well-formed update-equipment packet does. With one
    changed bit per slot, each set bit followed by a gear id in its
    fixed width, the request is saved and echoed; the inventory is
    unchanged; a slot that is not flagged keeps its item, a flagged slot
    holds the first inventory item of that gear id, or an empty item
    (gear id 0, not the requested id) with a fresh rune list when the
    inventory has none. *)
Theorem update_equipment_wire s raw_data declared pad ci char h1 eq :
  find_char s = Some (ci, char) →
  0 ≤ GEARTYPE_BITSTOSEND →
  Z.of_nat (length declared) = MAX_SLOTS - 1 →
  Forall valid_gear declared →
  fit_slots (store s) (equippedGears char) = (h1, eq) →
  ∃ s' char',
    handle_update_equipment s raw_data (equip_wire declared ++ pad)
      = Finished s' true [Raw raw_data]
    ∧ find_char s' = Some (ci, char')
    ∧ inventoryGears char' = inventoryGears char
    ∧ length (equippedGears char') = length declared
    ∧ ∀ i o, declared !! i = Some o →
        slot_after (store s) (store s') (inventoryGears char) o
                   (eq !! i) (equippedGears char' !! i).
Proof.
  intros Hf HG Hlen Hv Hfit. unfold handle_update_equipment. rewrite Hf, Hfit.
  rewrite <- Hlen.
  pose proof (read_slot_flags_wire declared 0 [] pad HG Hv) as Hread.
  change (Z.of_nat 0) with 0 in Hread. rewrite Hread by constructor.
  rewrite app_nil_l.
  assert (Z.of_nat (length eq) = MAX_SLOTS - 1) as Heq
    by (eapply fit_slots_length; [lia|exact Hfit]).
  destruct (equip_updates_pairs (inventoryGears char) declared 0 h1 eq)
    as (h2 & eq' & -> & Hlen' & Hpre & _ & Hslots); [lia|].
  eexists _, _. split; [done|].
  split; [by apply (find_char_put s ci char)|].
  split; [done|]. split; [simpl; lia|].
  intros i o Hi. simpl.
  apply (slot_after_mono (store s) h1 h2 h2); [|done|exact (Hslots i o Hi)].
  apply prefix_length. by eapply fit_slots_store.
Qed.

(** X10: an update-equipment packet with fewer bits than slots is
    dropped, whatever the bits are: nothing is saved and nothing is
    sent back, the inventory is as before, and a character that had the
    standard number of equipped slots is left exactly as it was. *)
Theorem update_equipment_short_dropped s raw_data bits ci char :
  find_char s = Some (ci, char) →
  Z.of_nat (length bits) < MAX_SLOTS - 1 →
  ∃ s' char',
    handle_update_equipment s raw_data bits = Finished s' false []
    ∧ find_char s' = Some (ci, char')
    ∧ inventoryGears char' = inventoryGears char
    ∧ (Z.of_nat (length (equippedGears char)) = MAX_SLOTS - 1 → s' = s).
Proof.
  intros Hf Hlen. unfold handle_update_equipment. rewrite Hf.
  destruct (fit_slots _ _) as [h1 eq] eqn:Hfit.
  rewrite read_slot_flags_short by (rewrite length_seqZ; lia).
  eexists _, _. split; [done|].
  split; [by apply (find_char_put s ci char)|]. split; [done|].
  intros Hsized. unfold fit_slots, pad_to in Hfit.
  replace (Z.to_nat _) with 0%nat in Hfit by lia. simpl in Hfit.
  rewrite bool_decide_eq_false_2 in Hfit by lia. injection Hfit as <- <-.
  replace (set_equippedGears (equippedGears char) char) with char by by destruct char.
  by apply put_char_id.
Qed.

(** X11: a bulk update that returns keeps the save consistent. From
    the point where the entity id has been read, whatever bits follow: if
    the handler returns, saved or dropped, the inventory is unchanged,
    the equipped list has [MAX_SLOTS - 1] slots, and if every equipped
    gear had an inventory entry with the same runes and colors before,
    every equipped gear has one afterwards. *)
Theorem update_equipment_keeps_synced s raw_data bits ci char s' saved out :
  find_char s = Some (ci, char) →
  0 ≤ MAX_SLOTS - 1 →
  stored (store s) (inventoryGears char) →
  synced (store s) char →
  handle_update_equipment s raw_data bits = Finished s' saved out →
  ∃ char',
    find_char s' = Some (ci, char')
    ∧ inventoryGears char' = inventoryGears char
    ∧ Z.of_nat (length (equippedGears char')) = MAX_SLOTS - 1
    ∧ synced (store s') char'.
Proof.
  intros Hf HM Hstored Hsync Hrun. unfold handle_update_equipment in Hrun.
  rewrite Hf in Hrun.
  destruct (fit_slots _ _) as [h1 eq] eqn:Hfit.
  pose proof (fit_slots_length _ _ _ _ HM Hfit) as Hlen.
  pose proof (fit_slots_store _ _ _ _ Hfit) as Hpre1.
  assert (∀ h' e, h1 `prefix_of` h' → e ∈ eq → gearID e ≠ 0 →
            has_copy h' (inventoryGears char) e) as Hold.
  { intros h' e Hpre He Hne.
    destruct (fit_slots_elem _ _ _ _ e Hfit He) as [Hin|[? _]]; [|done].
    apply (has_copy_mono (store s) h' (inventoryGears char) (inventoryGears char));
      [by etrans|done|by apply Hsync]. }
  destruct (read_slot_flags_keys (seqZ 0 (MAX_SLOTS - 1)) bits []) as [Hne Hkeys].
  destruct (read_slot_flags _ bits []) as [| |updates] eqn:Hread; [|done|].
  - injection Hrun as <- _ _.
    eexists. split; [by apply (find_char_put s ci char)|]. split_and!; [done|done|].
    intros e He Hid. simpl in *. by apply Hold.
  - destruct (equip_updates_ok (inventoryGears char) updates h1 eq)
      as (h2 & eq' & Hup & Hlen' & Hpre & Hel).
    { apply Forall_forall. intros key Hkey.
      destruct (Hkeys _ eq_refl _ Hkey) as [Hin|Hin]; [by apply elem_of_nil in Hin|].
      apply elem_of_seqZ in Hin. lia. }
    rewrite Hup in Hrun. injection Hrun as <- _ _.
    eexists. split; [by apply (find_char_put s ci char)|].
    split_and!; [done|simpl; lia|].
    intros e He Hid. simpl in *.
    destruct (Hel e He) as [Hin|[Hin|[? _]]]; [by apply Hold| |done].
    unfold stored in Hstored. rewrite Forall_forall in Hstored.
    destruct (Hstored e Hin) as [rs Hrs].
    exists e, rs. split_and!; [done|done| | |done];
      eapply prefix_lookup_Some; [exact Hrs|by etrans|exact Hrs|by etrans].
Qed.

Lemma update_equipment_shape s raw_data bits ci char :
  find_char s = Some (ci, char) →
  0 ≤ MAX_SLOTS - 1 →
  ∃ eq' h' saved out,
    handle_update_equipment s raw_data bits =
      Finished (put_char s ci (set_equippedGears eq' char) h') saved out
    ∧ Z.of_nat (length eq') = MAX_SLOTS - 1.
Proof.
  intros Hf HM. unfold handle_update_equipment. rewrite Hf.
  destruct (fit_slots _ _) as [h1 eq] eqn:Hfit.
  pose proof (fit_slots_length _ _ _ _ HM Hfit) as Hlen.
  destruct (read_slot_flags_keys (seqZ 0 (MAX_SLOTS - 1)) bits []) as [Hne Hkeys].
  destruct (read_slot_flags _ bits []) as [| |updates] eqn:Hread; [|done|].
  - by eexists _, _, _, _.
  - destruct (equip_updates_ok (inventoryGears char) updates h1 eq)
      as (h2 & eq' & -> & Hlen' & _).
    { apply Forall_forall. intros key Hkey.
      destruct (Hkeys _ eq_refl _ Hkey) as [Hin|Hin]; [by apply elem_of_nil in Hin|].
      apply elem_of_seqZ in Hin. lia. }
    eexists _, _, _, _. split; [done|]. lia.
Qed.

(** X23: a bulk update makes the equipped list fit a gear set. After
    any update-equipment request that returns, saved or dropped, an
    apply-gearset request for an existing set is accepted: the equipped
    list has the [MAX_SLOTS - 1] slots the apply handler insists on, and
    the set gets as many gear ids. *)
Theorem update_then_apply_gearset s raw_data bits apply_raw k rest ci char
    s1 saved out :
  find_char s = Some (ci, char) →
  0 ≤ MAX_SLOTS - 1 →
  handle_update_equipment s raw_data bits = Finished s1 saved out →
  read_bits (Z.to_nat const_348) (payload_bits apply_raw) = Some (k, rest) →
  k < Z.of_nat (length (gearSets char)) →
  ∃ s2 char1 char2 g,
    handle_apply_gearset s1 apply_raw = Finished s2 true [Raw apply_raw]
    ∧ find_char s1 = Some (ci, char1)
    ∧ find_char s2 = Some (ci, char2)
    ∧ gearSets char2 !! Z.to_nat k = Some g
    ∧ slots g = gearID <$> equippedGears char1
    ∧ Z.of_nat (length (slots g)) = MAX_SLOTS - 1.
Proof.
  intros Hf HM Hrun Hr Hk. pose proof (read_bits_nonneg _ _ _ _ Hr) as Hk0.
  destruct (update_equipment_shape s raw_data bits ci char Hf HM)
    as (eq' & h' & saved' & out' & Hrun' & Hlen).
  rewrite Hrun' in Hrun. injection Hrun as <- _ _.
  assert (find_char (put_char s ci (set_equippedGears eq' char) h')
          = Some (ci, set_equippedGears eq' char)) as Hf1
    by by apply (find_char_put s ci char).
  destruct (lookup_lt_is_Some_2 (gearSets char) (Z.to_nat k)) as [g0 Hg0]; [lia|].
  unfold handle_apply_gearset. rewrite Hr, Hf1.
  cbn [gearSets equippedGears set_equippedGears].
  rewrite (bool_decide_eq_false_2 (_ ≤ k)) by lia.
  rewrite (bool_decide_eq_false_2 (_ ≠ _)) by (intros ?; lia).
  eexists _, _, _, (set_slots (gearID <$> eq') g0).
  split; [done|]. split; [done|].
  split; [by apply find_char_put with (char := set_equippedGears eq' char)|].
  cbn [gearSets set_gearSets]. rewrite list_lookup_alter_eq, Hg0.
  split_and!; [done|done|]. simpl. by rewrite length_fmap.
Qed.

(** ** Charms *)

Lemma charm_total_lookup id cs :
  NoDup (charmID <$> cs) → charm_total id cs = default 0 (charm_lookup id cs).
Proof.
  induction cs as [|c cs IH]; [done|].
  rewrite fmap_cons. intros [Hc Hcs]%NoDup_cons. simpl.
  case_bool_decide as Hid.
  - simpl. rewrite IH by done. rewrite charm_lookup_None; [simpl; lia|].
    by rewrite <- Hid.
  - rewrite IH by done. lia.
Qed.

Lemma charm_take_absent id cs :
  charm_lookup id cs = None → charm_take id cs = cs.
Proof.
  induction cs as [|c cs IH]; [done|]. simpl.
  case_bool_decide; [done|]. intros Hl. by rewrite IH.
Qed.

Lemma charm_lookup_positive id cs c :
  Forall (λ c, 0 < count c) cs → charm_lookup id cs = Some c → 0 < c.
Proof.
  induction 1 as [|c0 cs Hc0 _ IH]; [done|]. simpl.
  case_bool_decide; [|done]. by intros [= <-].
Qed.

Lemma charm_take_ok id cs : charms_ok cs → charms_ok (charm_take id cs).
Proof.
  intros [Hnd Hpos]. split.
  - eapply sublist_NoDup; [exact Hnd|apply charm_take_keys].
  - clear Hnd. induction Hpos as [|c cs Hc Hpos IH]; [constructor|]. simpl.
    case_bool_decide.
    + case_bool_decide; [done|]. constructor; [simpl; lia|done].
    + by constructor.
Qed.

Lemma charm_add_ok id cs : charms_ok cs → charms_ok (charm_add id cs).
Proof.
  intros [Hnd Hpos]. split; [by apply charm_add_keys|].
  clear Hnd. induction Hpos as [|c cs Hc Hpos IH]; simpl.
  - by repeat constructor.
  - case_bool_decide; constructor; simpl; try done; lia.
Qed.

Lemma rune_charms_ok r old cs : charms_ok cs → charms_ok (rune_charms r old cs).
Proof.
  intros Hok. unfold rune_charms. case_bool_decide; [|by apply charm_take_ok].
  apply charm_take_ok. case_bool_decide; [by apply charm_add_ok|done].
Qed.

Lemma charm_take_ledger id0 id cs :
  charms_ok cs →
  charm_total id (charm_take id0 cs) =
  charm_total id cs
  - (if bool_decide (id = id0 ∧ 0 < charm_total id cs) then 1 else 0).
Proof.
  intros [Hnd Hpos].
  destruct (charm_lookup id0 cs) as [c|] eqn:Hl.
  - pose proof (charm_lookup_positive _ _ _ Hpos Hl) as Hc.
    rewrite (charm_take_total id0 id cs c) by done.
    case_bool_decide as Hid.
    + subst id. rewrite bool_decide_eq_true_2; [done|].
      split; [done|]. rewrite charm_total_lookup, Hl by done. done.
    + rewrite bool_decide_eq_false_2; [done|]. by intros [? _].
  - rewrite charm_take_absent by done.
    rewrite bool_decide_eq_false_2; [lia|].
    intros [-> Hgt]. rewrite charm_total_lookup, Hl in Hgt by done. simpl in Hgt. lia.
Qed.

(** X12: the charm ledger of a rune request. On a charm list with one
    entry per id and positive counts, a completed rune request changes
    the units held of each charm id by exactly this: one unit of the
    requested rune id (of the remover, for a removal) is taken if any is
    held, and the rune found in the slot is given back only by a
    removal, and only if it is neither 0 nor the remover. So a rune that
    is overwritten by another is lost, and a rune the character does not
    hold is socketed all the same, at no cost. *)
Theorem rune_charm_ledger s r ci char s' out :
  find_char s = Some (ci, char) →
  charms_ok (charms char) →
  handle_rune_packet s r = Finished s' true out →
  ∃ char' h0 eq j g old,
    find_char s' = Some (ci, char')
    ∧ fit_slots (store s) (equippedGears char) = (h0, eq)
    ∧ list_find (same_gear (r_gear r) (r_tier r)) eq = Some (j, g)
    ∧ heap_get h0 (runes g) (Z.to_nat (r_slot r - 1)) = Some old
    ∧ heap_get (store s') (runes g) (Z.to_nat (r_slot r - 1)) = Some (written_rune r)
    ∧ ∀ id,
        charm_total id (charms char') =
        charm_total id (charms char)
        + (if bool_decide (r_rune r = 96 ∧ old ≠ 0 ∧ old ≠ 96 ∧ id = old)
           then 1 else 0)
        - (if bool_decide (id = r_rune r ∧ 0 < charm_total id (charms char))
           then 1 else 0).
Proof.
  intros Hf Hok Hrun.
  destruct (rune_packet_done _ _ _ _ _ _ Hf Hrun)
    as (h0 & eq & j & g & old & h1 & hfin & inv' & Hfit & Hfind & Hslot & Hget
        & Hset & Hinv & -> & _).
  eexists _, h0, eq, j, g, old.
  split; [by apply (find_char_put s ci char)|].
  split_and!; [done|done|done| |].
  - simpl. destruct (list_find _ (inventoryGears char)) as [[k item]|].
    + destruct Hinv as [Hset2 _].
      destruct (decide (runes item = runes g)) as [Heq|Hne].
      * rewrite Heq in Hset2. by eapply heap_set_get.
      * unfold heap_get. rewrite (heap_set_lookup_ne _ _ _ _ _ _ Hset2 Hne).
        by apply (heap_set_get h0).
    + destruct Hinv as [-> _]. by eapply heap_set_get.
  - intros id. simpl. unfold rune_charms.
    destruct (decide (r_rune r = 96)) as [H96|H96].
    + rewrite (bool_decide_eq_true_2 (r_rune r = 96)) by done.
      destruct (decide (old ≠ 0 ∧ old ≠ 96)) as [[Ho0 Ho96]|Hno].
      * rewrite (bool_decide_eq_true_2 (old ≠ 0 ∧ old ≠ 96)) by done.
        rewrite charm_take_ledger by by apply charm_add_ok.
        rewrite !charm_add_total, H96.
        destruct (decide (id = old)) as [->|Hio].
        -- rewrite (bool_decide_eq_true_2 (old = old)) by done.
           rewrite (bool_decide_eq_true_2 (_ ∧ _ ∧ _ ∧ _)) by done.
           rewrite !(bool_decide_eq_false_2 (old = 96 ∧ _)) by (by intros [? _]).
           lia.
        -- rewrite (bool_decide_eq_false_2 (id = old)) by done.
           rewrite (bool_decide_eq_false_2 (_ ∧ _ ∧ _ ∧ _)) by (by intros (_ & _ & _ & ?)).
           rewrite Z.add_0_r. done.
      * rewrite (bool_decide_eq_false_2 (old ≠ 0 ∧ old ≠ 96)) by done.
        rewrite charm_take_ledger by done. rewrite H96.
        rewrite (bool_decide_eq_false_2 (_ ∧ _ ∧ _ ∧ _)); [lia|].
        intros (_ & ? & ? & _). by apply Hno.
    + rewrite (bool_decide_eq_false_2 (r_rune r = 96)) by done.
      rewrite charm_take_ledger by done.
      rewrite (bool_decide_eq_false_2 (_ ∧ _ ∧ _ ∧ _)) by (by intros [? _]).
      lia.
Qed.

(** X13: the charm list stays well formed. If the charms of the current
    character have one entry per charm id and only positive counts, they
    still do after any rune request and after any forge collect: a count
    that reaches zero removes its entry, a returned or granted charm
    joins the entry of its id. *)
Theorem charms_stay_well_formed s r ci char s' saved out :
  find_char s = Some (ci, char) →
  charms_ok (charms char) →
  handle_rune_packet s r = Finished s' saved out
  ∨ collect_forge_charm s = Finished s' saved out →
  ∃ char', find_char s' = Some (ci, char') ∧ charms_ok (charms char').
Proof.
  intros Hf Hok [Hrun|Hrun].
  - destruct saved.
    + destruct (rune_packet_done _ _ _ _ _ _ Hf Hrun)
        as (h0 & eq & j & g & old & h1 & hfin & inv' & _ & _ & _ & _ & _ & _ & -> & _).
      eexists. split; [by apply (find_char_put s ci char)|].
      simpl. by apply rune_charms_ok.
    + destruct (rune_packet_unsaved _ _ _ _ _ _ Hf Hrun) as (h0 & eq & _ & ->).
      eexists. split; [by apply (find_char_put s ci char)|]. done.
  - destruct (hasSession (magicForge char)) eqn:Hs.
    + destruct (collect_run s ci char Hf Hs) as (char1 & Hc & Hf1 & _ & Hch & _).
      rewrite Hc in Hrun. injection Hrun as <- _ _.
      exists char1. split; [done|]. rewrite Hch.
      case_bool_decide; [done|by apply charm_add_ok].
    + unfold collect_forge_charm in Hrun. rewrite Hf, Hs in Hrun.
      injection Hrun as <- _ _. by exists char.
Qed.

(** ** Equipment: slot bounds and rune lists *)

Lemma gear_packet_found s r ci char :
  find_char s = Some (ci, char) →
  ∃ h1 eq h2 gear_data inv',
    pad_to 6 (store s) (equippedGears char) = (h1, eq)
    ∧ h1 `prefix_of` h2
    ∧ gearID gear_data = g_gear r
    ∧ (gear_data ∈ inventoryGears char
       ∨ (h2 !! runes gear_data = Some [0; 0; 0] ∧ (length h1 ≤ runes gear_data)%nat))
    ∧ (inv' = inventoryGears char ∨ inv' = inventoryGears char ++ [gear_data])
    ∧ handle_gear_packet s r =
        match py_setitem eq (g_slot1 r - 1) gear_data with
        | None => Raised
        | Some eq' =>
            Finished (put_char s ci
                        (set_inventoryGears inv' (set_equippedGears eq' char)) h2)
                     true [gear_echo r]
        end.
Proof.
  intros Hf. unfold handle_gear_packet. rewrite Hf.
  destruct (pad_to 6 _ _) as [h1 eq] eqn:Hpad.
  destruct (list_find _ (inventoryGears char)) as [[k item]|] eqn:Hfind.
  - apply list_find_Some in Hfind as (Hk & Hid & _).
    exists h1, eq, h1, item, (inventoryGears char).
    split_and!; [done|done|done| |by left|].
    + left. by eapply list_elem_of_lookup_2.
    + rewrite bool_decide_eq_true_2; [done|].
      apply Exists_exists. exists item. split; [|done].
      by eapply list_elem_of_lookup_2.
  - unfold alloc.
    exists h1, eq, (h1 ++ [[0; 0; 0]]),
      {| gearID := g_gear r; tier := 0; runes := length h1; colors := [0; 0] |},
      (inventoryGears char
       ++ [{| gearID := g_gear r; tier := 0; runes := length h1; colors := [0; 0] |}]).
    split_and!; [done|by apply prefix_app_r|done| |by right|].
    + right. simpl. split; [|done]. by rewrite lookup_app_r, Nat.sub_diag by lia.
    + rewrite bool_decide_eq_false_2; [done|].
      rewrite Exists_exists. intros (g & Hg & Hid).
      apply list_find_None in Hfind. rewrite Forall_forall in Hfind.
      by apply (Hfind g).
Qed.

(** X14: the slot of an equip request is a Python list index. With [n]
    the number of equipped slots after padding to 6, an equip request
    with [slot1] from 1 to [n] writes the gear at index [slot1 - 1];
    [slot1 = 0] becomes index -1 and writes the last slot; a larger
    [slot1] raises on the assignment, before the save file is written:
    nothing is saved and nothing is sent. *)
Theorem equip_slot_bounds s r ci char :
  find_char s = Some (ci, char) →
  0 ≤ g_slot1 r →
  let n := Z.max 6 (Z.of_nat (length (equippedGears char))) in
  (n < g_slot1 r →
   handle_gear_packet s r = Raised
   ∧ persisted (handle_gear_packet s r) = false
   ∧ replies (handle_gear_packet s r) = [])
  ∧ (g_slot1 r ≤ n →
     ∃ s' char' e,
       handle_gear_packet s r = Finished s' true [gear_echo r]
       ∧ find_char s' = Some (ci, char')
       ∧ Z.of_nat (length (equippedGears char')) = n
       ∧ equippedGears char' !! Z.to_nat ((g_slot1 r - 1) `mod` n) = Some e
       ∧ gearID e = g_gear r).
Proof.
  intros Hf H0 n.
  destruct (gear_packet_found s r ci char Hf)
    as (h1 & eq & h2 & gear_data & inv' & Hpad & _ & Hid & _ & _ & ->).
  pose proof (pad_to_length _ _ _ _ _ Hpad) as Hlen. fold n in Hlen.
  unfold py_setitem, py_index. rewrite Hlen. split.
  - intros Hbig. rewrite (bool_decide_eq_false_2 (g_slot1 r - 1 < 0)) by lia.
    rewrite bool_decide_eq_false_2 by lia. done.
  - intros Hsmall.
    assert (∃ j, (if bool_decide (g_slot1 r - 1 < 0) then g_slot1 r - 1 + n
                  else g_slot1 r - 1) = j
                 ∧ 0 ≤ j < n ∧ j = (g_slot1 r - 1) `mod` n) as (j & -> & Hj & Hmod).
    { eexists. split; [done|]. case_bool_decide.
      - assert (g_slot1 r = 0) as -> by lia. split; [lia|].
        apply (Z.mod_unique_pos (0 - 1) n (-1)); lia.
      - split; [lia|]. by rewrite Z.mod_small by lia. }
    rewrite bool_decide_eq_true_2 by done. cbn [mbind option_bind].
    eexists _, _, gear_data. split; [done|].
    split; [by apply (find_char_put s ci char)|].
    simpl. rewrite length_insert. split_and!; [done| |done].
    rewrite <- Hmod. apply list_lookup_insert_eq. lia.
Qed.

Lemma gear_packet_shape s r ci char s1 saved out :
  find_char s = Some (ci, char) →
  handle_gear_packet s r = Finished s1 saved out →
  ∃ h1 eq h2 gear_data eq' inv' k,
    pad_to 6 (store s) (equippedGears char) = (h1, eq)
    ∧ py_setitem eq (g_slot1 r - 1) gear_data = Some eq'
    ∧ list_find (λ item, gearID item = g_gear r) inv' = Some (k, gear_data)
    ∧ s1 = put_char s ci (set_inventoryGears inv' (set_equippedGears eq' char)) h2
    ∧ saved = true ∧ out = [gear_echo r].
Proof.
  intros Hf Hrun. unfold handle_gear_packet in Hrun. rewrite Hf in Hrun.
  destruct (pad_to 6 _ _) as [h1 eq] eqn:Hpad.
  destruct (list_find _ (inventoryGears char)) as [[k item]|] eqn:Hfind.
  - destruct (py_setitem eq _ item) as [eq'|] eqn:Hset; [|done].
    rewrite bool_decide_eq_true_2 in Hrun.
    2:{ apply list_find_Some in Hfind as (Hk & Hid & _).
        apply Exists_exists. exists item. split; [|done].
        by eapply list_elem_of_lookup_2. }
    injection Hrun as <- <- <-.
    by exists h1, eq, h1, item, eq', (inventoryGears char), k.
  - unfold alloc in Hrun.
    destruct (py_setitem eq _ _) as [eq'|] eqn:Hset; [|done].
    rewrite bool_decide_eq_false_2 in Hrun.
    2:{ rewrite Exists_exists. intros (g & Hg & Hid).
        apply list_find_None in Hfind. rewrite Forall_forall in Hfind.
        by apply (Hfind g). }
    injection Hrun as <- <- <-.
    eexists h1, eq, _, _, eq', _, (length (inventoryGears char)).
    split_and!; try done.
    apply list_find_Some. split_and!.
    + by rewrite lookup_app_r, Nat.sub_diag by lia.
    + done.
    + intros j y Hj Hlt. rewrite lookup_app_l in Hj by done.
      apply list_find_None in Hfind. rewrite Forall_forall in Hfind.
      apply Hfind. by eapply list_elem_of_lookup_2.
Qed.

(** X22: an equip request is idempotent. If an equip request for the
    session's character returns, the same request again returns the very
    same save and reply: the slot holds the item already, the gear is in
    the inventory by now, and no new rune list is made. *)
Theorem equip_idempotent s r ci char s1 saved out :
  find_char s = Some (ci, char) →
  handle_gear_packet s r = Finished s1 saved out →
  handle_gear_packet s1 r = Finished s1 saved out.
Proof.
  intros Hf Hrun.
  destruct (gear_packet_shape _ _ _ _ _ _ _ Hf Hrun)
    as (h1 & eq & h2 & gear_data & eq' & inv' & k & Hpad & Hset & Hfound
        & Hs1 & -> & ->).
  pose proof (pad_to_length _ _ _ _ _ Hpad) as Hlen.
  assert (find_char s1 =
          Some (ci, set_inventoryGears inv' (set_equippedGears eq' char))) as Hf1.
  { rewrite Hs1. by apply (find_char_put s ci char). }
  assert (length eq' = length eq) as Hlen'.
  { unfold py_setitem in Hset. destruct (py_index eq _) as [j|]; [|done].
    injection Hset as <-. by rewrite length_insert. }
  unfold handle_gear_packet. rewrite Hf1.
  cbn [inventoryGears equippedGears set_inventoryGears set_equippedGears].
  assert (store s1 = h2) as -> by by rewrite Hs1.
  unfold pad_to. replace (Z.to_nat (6 - Z.of_nat (length eq'))) with 0%nat by lia.
  cbn [pad_slots]. rewrite Hfound.
  assert (py_setitem eq' (g_slot1 r - 1) gear_data = Some eq') as ->.
  { unfold py_setitem, py_index in *. rewrite Hlen'.
    destruct (bool_decide (0 ≤ _ < _)); [|done].
    cbn [mbind option_bind] in *. injection Hset as <-.
    by rewrite list_insert_insert_eq. }
  rewrite bool_decide_eq_true_2.
  2:{ apply list_find_Some in Hfound as (Hk & Hid & _).
      apply Exists_exists. exists gear_data. split; [|done].
      by eapply list_elem_of_lookup_2. }
  f_equal. rewrite Hs1. unfold put_char.
  cbn [characters current_character store]. by rewrite list_insert_insert_eq.
Qed.

Lemma three_runes_mono (h h' : heap) gs :
  h `prefix_of` h' → three_runes h gs → three_runes h' gs.
Proof.
  intros Hpre Hok. eapply Forall_impl; [exact Hok|]. intros g (rs & Hrs & Hlen).
  exists rs. split; [|done]. by eapply prefix_lookup_Some.
Qed.

Lemma three_runes_heap_set (h h' : heap) l i v gs :
  heap_set h l i v = Some h' → three_runes h gs → three_runes h' gs.
Proof.
  intros Hset Hok. eapply Forall_impl; [exact Hok|]. intros g (rs & Hrs & Hlen).
  destruct (heap_set_Some _ _ _ _ _ Hset) as (rs0 & Hl & Hi & ->).
  destruct (decide (l = runes g)) as [->|Hne].
  - exists (<[i := v]> rs0). rewrite list_lookup_insert_eq by by eapply lookup_lt_Some.
    split; [done|]. rewrite length_insert. congruence.
  - exists rs. by rewrite list_lookup_insert_ne.
Qed.

Lemma three_runes_fit (h h' : heap) eq eq' :
  fit_slots h eq = (h', eq') → three_runes h eq → three_runes h' eq'.
Proof.
  intros Hfit Hok. apply Forall_forall. intros e He.
  destruct (fit_slots_elem _ _ _ _ e Hfit He) as [Hin|(_ & Hrs & _)].
  - unfold three_runes in Hok. rewrite Forall_forall in Hok.
    destruct (Hok e Hin) as (rs & Hrs & Hlen). exists rs. split; [|done].
    eapply prefix_lookup_Some; [exact Hrs|by eapply fit_slots_store].
  - by exists [0; 0; 0].
Qed.

Lemma three_runes_insert (h : heap) gs i g :
  three_runes h gs → (∃ rs, h !! runes g = Some rs ∧ length rs = 3%nat) →
  three_runes h (<[i := g]> gs).
Proof.
  intros Hok Hg. apply Forall_forall. intros e [->|He]%insert_elem_inv; [done|].
  unfold three_runes in Hok. rewrite Forall_forall in Hok. by apply Hok.
Qed.

(** X15: a rune request cannot fail on rune lists of three runes, and
    the equipment handlers keep them so. If every equipped and every
    inventory gear of the current character refers to a stored rune list
    of three runes, a rune request never raises, and the same holds
    again after any equip request, rune request or bulk equipment
    update that returns. *)
Theorem rune_lists_stay_whole s ci char :
  find_char s = Some (ci, char) →
  runes_whole (store s) char →
  (∀ r, handle_rune_packet s r ≠ Raised)
  ∧ ∀ gr r raw_data bits s' saved out,
      handle_gear_packet s gr = Finished s' saved out
      ∨ handle_rune_packet s r = Finished s' saved out
      ∨ handle_update_equipment s raw_data bits = Finished s' saved out →
      ∃ char', find_char s' = Some (ci, char') ∧ runes_whole (store s') char'.
Proof.
  intros Hf [Heq Hinv]. split.
  - intros r. unfold handle_rune_packet. rewrite Hf.
    destruct (fit_slots _ _) as [h0 eq] eqn:Hfit.
    pose proof (three_runes_fit _ _ _ _ Hfit Heq) as Heq0.
    pose proof (three_runes_mono _ _ _ (fit_slots_store _ _ _ _ Hfit) Hinv) as Hinv0.
    destruct (list_find _ eq) as [[j g]|] eqn:Hfind; [|done].
    case_bool_decide as Hslot; [|done].
    apply list_find_Some in Hfind as (Hj & _ & _).
    unfold three_runes in Heq0. rewrite Forall_forall in Heq0.
    destruct (Heq0 g) as (rs & Hrs & Hlen); [by eapply list_elem_of_lookup_2|].
    assert (Z.to_nat (r_slot r - 1) < length rs)%nat as Hidx by lia.
    destruct (lookup_lt_is_Some_2 rs _ Hidx) as [old Hold].
    unfold heap_get at 1. rewrite Hrs. cbn [mbind option_bind]. rewrite Hold.
    unfold heap_set at 1. rewrite Hrs. cbn [mbind option_bind].
    rewrite bool_decide_eq_true_2 by done.
    set (h1 := <[runes g := _]> h0).
    assert (heap_set h0 (runes g) (Z.to_nat (r_slot r - 1))
              (if bool_decide (r_rune r = 96) then 0 else r_rune r) = Some h1) as Hset.
    { unfold heap_set. rewrite Hrs. cbn [mbind option_bind].
      by rewrite bool_decide_eq_true_2 by done. }
    destruct (list_find _ (inventoryGears char)) as [[k item]|] eqn:Hfind2; [|done].
    rewrite (heap_set_get _ _ _ _ _ Hset).
    apply list_find_Some in Hfind2 as (Hk & _ & _).
    pose proof (three_runes_heap_set _ _ _ _ _ _ Hset Hinv0) as Hinv1.
    unfold three_runes in Hinv1. rewrite Forall_forall in Hinv1.
    destruct (Hinv1 item) as (rs2 & Hrs2 & Hlen2); [by eapply list_elem_of_lookup_2|].
    unfold heap_set. rewrite Hrs2. cbn [mbind option_bind].
    by rewrite bool_decide_eq_true_2 by lia.
  - intros gr r raw_data bits s' saved out [Hrun|[Hrun|Hrun]].
    + destruct (gear_packet_found s gr ci char Hf)
        as (h1 & eq & h2 & gear_data & inv' & Hpad & Hpre & _ & Hdata & Hinv' & Hrun').
      rewrite Hrun' in Hrun.
      destruct (py_setitem eq _ gear_data) as [eq'|] eqn:Hset; [|done].
      injection Hrun as <- _ _.
      eexists. split; [by apply (find_char_put s ci char)|].
      pose proof (pad_to_store _ _ _ _ _ Hpad) as Hpre1.
      assert (∃ rs, h2 !! runes gear_data = Some rs ∧ length rs = 3%nat) as Hg.
      { destruct Hdata as [Hin|[Hrs _]]; [|by exists [0; 0; 0]].
        unfold three_runes in Hinv. rewrite Forall_forall in Hinv.
        destruct (Hinv _ Hin) as (rs & Hrs & Hlen). exists rs. split; [|done].
        eapply prefix_lookup_Some; [exact Hrs|by etrans]. }
      split; simpl.
      * apply Forall_forall. intros e He.
        destruct (py_setitem_elem _ _ _ _ _ Hset He) as [->|Hin]; [done|].
        destruct (pad_to_padding _ _ _ _ _ e Hpad Hin) as [Hin0|(_ & Hrs & _)].
        -- unfold three_runes in Heq. rewrite Forall_forall in Heq.
           destruct (Heq _ Hin0) as (rs & Hrs & Hlen). exists rs. split; [|done].
           eapply prefix_lookup_Some; [exact Hrs|by etrans].
        -- exists [0; 0; 0]. split; [|done]. by eapply prefix_lookup_Some.
      * assert (three_runes h2 (inventoryGears char)) as Hinv2
          by (eapply three_runes_mono; [|exact Hinv]; by etrans).
        destruct Hinv' as [->| ->]; [done|].
        apply Forall_app. split; [done|]. by constructor.
    + destruct saved.
      * destruct (rune_packet_done _ _ _ _ _ _ Hf Hrun)
          as (h0 & eq & j & g & old & h1 & hfin & inv' & Hfit & Hfind & _ & _
              & Hset & Hsync & -> & _).
        eexists. split; [by apply (find_char_put s ci char)|].
        pose proof (three_runes_fit _ _ _ _ Hfit Heq) as Heq0.
        pose proof (three_runes_mono _ _ _ (fit_slots_store _ _ _ _ Hfit) Hinv) as Hinv0.
        pose proof (three_runes_heap_set _ _ _ _ _ _ Hset Heq0) as Heq1.
        pose proof (three_runes_heap_set _ _ _ _ _ _ Hset Hinv0) as Hinv1.
        destruct (list_find _ (inventoryGears char)) as [[k item]|].
        -- destruct Hsync as [Hset2 ->]. split; simpl;
             by eapply three_runes_heap_set.
        -- destruct Hsync as [-> ->]. split; simpl; [done|].
           apply Forall_app. split; [done|]. constructor; [|constructor].
           apply list_find_Some in Hfind as (Hj & _ & _).
           unfold three_runes in Heq1. rewrite Forall_forall in Heq1.
           apply Heq1. by eapply list_elem_of_lookup_2.
      * destruct (rune_packet_unsaved _ _ _ _ _ _ Hf Hrun) as (h0 & eq & Hfit & ->).
        eexists. split; [by apply (find_char_put s ci char)|].
        split; simpl; [by eapply three_runes_fit|].
        eapply three_runes_mono; [by eapply fit_slots_store|done].
    + unfold handle_update_equipment in Hrun. rewrite Hf in Hrun.
      destruct (fit_slots _ _) as [h1 eq] eqn:Hfit.
      pose proof (three_runes_fit _ _ _ _ Hfit Heq) as Heq0.
      pose proof (three_runes_mono _ _ _ (fit_slots_store _ _ _ _ Hfit) Hinv) as Hinv0.
      destruct (read_slot_flags _ bits []) as [| |updates]; [|done|].
      * injection Hrun as <- _ _.
        eexists. split; [by apply (find_char_put s ci char)|]. by split.
      * destruct (equip_updates updates _ h1 eq) as [[h2 eq']|] eqn:Hup; [|done].
        injection Hrun as <- _ _.
        eexists. split; [by apply (find_char_put s ci char)|].
        assert (h1 `prefix_of` h2
                ∧ three_runes h2 eq') as [Hpre Heq2].
        { clear -Hup Heq0 Hinv0. revert h1 eq Hup Heq0 Hinv0.
          induction updates as [|[slot gear_id] updates IH]; intros h1 eq Hup Heq0 Hinv0.
          { simpl in Hup. injection Hup as <- <-. by split. }
          cbn [equip_updates] in Hup.
          destruct (list_find _ (inventoryGears char)) as [[k item]|] eqn:Hfind.
          - destruct (py_setitem eq slot item) as [eq1|] eqn:Hset; [|done].
            cbn [mbind option_bind] in Hup.
            apply IH in Hup; [done| |done].
            apply Forall_forall. intros e He.
            destruct (py_setitem_elem _ _ _ _ _ Hset He) as [->|Hin].
            + apply list_find_Some in Hfind as (Hk & _ & _).
              unfold three_runes in Hinv0. rewrite Forall_forall in Hinv0.
              apply Hinv0. by eapply list_elem_of_lookup_2.
            + unfold three_runes in Heq0. rewrite Forall_forall in Heq0. by apply Heq0.
          - unfold alloc in Hup.
            destruct (py_setitem eq slot _) as [eq1|] eqn:Hset; [|done].
            cbn [mbind option_bind] in Hup.
            assert (h1 `prefix_of` h1 ++ [[0; 0; 0]]) as Hpre1 by by apply prefix_app_r.
            apply IH in Hup as [Hpre Hok].
            + split; [by etrans|done].
            + apply Forall_forall. intros e He.
              destruct (py_setitem_elem _ _ _ _ _ Hset He) as [->|Hin].
              * exists [0; 0; 0]. split; [|done]. simpl.
                by rewrite lookup_app_r, Nat.sub_diag by lia.
              * unfold three_runes in Heq0. rewrite Forall_forall in Heq0.
                destruct (Heq0 _ Hin) as (rs & Hrs & Hlen). exists rs.
                split; [|done]. by eapply prefix_lookup_Some.
            + by eapply three_runes_mono. }
        split; simpl; [done|]. by eapply three_runes_mono.
Qed.

(** ** Craft talents *)

Lemma talent_field packed i :
  0 ≤ i →
  Z.land (Z.shiftr packed (i * 4)) 0xF = (packed `div` 2 ^ (i * 4)) `mod` 16.
Proof.
  intros Hi. rewrite Z.shiftr_div_pow2 by lia.
  change 0xF with (Z.ones 4). by rewrite Z.land_ones.
Qed.

(** X16: the talent request stores five values between 0 and 15,
    whatever integer was sent, and unpacks what was packed: for five
    values in that range, packed four bits each from the lowest bits up,
    the stored list is these five values, and bits from bit 20 up are
    ignored. Only the session's character is changed. *)
Theorem talent_points_round_trip sx ci char :
  find_char (session sx) = Some (ci, char) →
  (∀ packed,
     ∃ sx', allocate_talent_points sx packed = FinishedMore sx' true []
            ∧ session sx' = session sx
            ∧ (∀ j, j ≠ ci → more sx' !! j = more sx !! j)
            ∧ ∀ m, more sx !! ci = Some m →
                ∃ ps, more sx' !! ci = Some (set_craftTalentPoints ps m)
                      ∧ length ps = 5%nat ∧ Forall (λ p, 0 ≤ p < 16) ps)
  ∧ ∀ ps hi m,
      length ps = 5%nat → Forall (λ p, 0 ≤ p < 16) ps →
      more sx !! ci = Some m →
      ∃ sx', allocate_talent_points sx (pack_points ps + hi * 2 ^ 20)
             = FinishedMore sx' true []
             ∧ more sx' !! ci = Some (set_craftTalentPoints ps m).
Proof.
  intros Hf. split.
  - intros packed. unfold allocate_talent_points. rewrite Hf.
    eexists. split; [done|]. split; [done|]. split.
    + intros j Hj. simpl. by rewrite list_lookup_alter_ne.
    + intros m Hm. eexists. simpl. rewrite list_lookup_alter_eq, Hm.
      split; [done|]. split; [done|].
      unfold talent_points. apply Forall_fmap, Forall_forall.
      intros i Hi%elem_of_seqZ. simpl.
      rewrite talent_field by lia. apply Z.mod_pos_bound. lia.
  - intros ps hi m Hlen Hps Hm. unfold allocate_talent_points. rewrite Hf.
    eexists. split; [done|]. simpl. rewrite list_lookup_alter_eq, Hm. simpl.
    do 2 f_equal.
    destruct ps as [|p0 [|p1 [|p2 [|p3 [|p4 [|]]]]]]; try done.
    repeat match goal with
           | H : Forall _ (_ :: _) |- _ => apply Forall_cons in H as [? H]
           end.
    unfold talent_points, pack_points. cbn [seqZ fold_right].
    change (seqZ 0 5) with [0; 1; 2; 3; 4]. cbn [fmap list_fmap].
    rewrite !talent_field by lia.
    change (2 ^ (0 * 4)) with 1. change (2 ^ (1 * 4)) with 16.
    change (2 ^ (2 * 4)) with 256. change (2 ^ (3 * 4)) with 4096.
    change (2 ^ (4 * 4)) with 65536. change (2 ^ 20) with 1048576.
    repeat f_equal; symmetry.
    + apply (Z.mod_unique_pos _ 16
        (p1 + 16 * p2 + 256 * p3 + 4096 * p4 + 65536 * hi)); [lia|].
      rewrite Z.div_1_r. lia.
    + apply (Z.mod_unique_pos _ 16 (p2 + 16 * p3 + 256 * p4 + 4096 * hi)); [lia|].
      symmetry. apply (Z.div_unique_pos _ 16 _ p0); lia.
    + apply (Z.mod_unique_pos _ 16 (p3 + 16 * p4 + 256 * hi)); [lia|].
      symmetry. apply (Z.div_unique_pos _ 256 _ (p0 + 16 * p1)); lia.
    + apply (Z.mod_unique_pos _ 16 (p4 + 16 * hi)); [lia|].
      symmetry. apply (Z.div_unique_pos _ 4096 _ (p0 + 16 * p1 + 256 * p2)); lia.
    + apply (Z.mod_unique_pos _ 16 hi); [lia|].
      symmetry.
      apply (Z.div_unique_pos _ 65536 _ (p0 + 16 * p1 + 256 * p2 + 4096 * p3)); lia.
Qed.

(** ** Dyes *)

Lemma dye_slots_lookup dyes : ∀ eq inv,
  NoDup dyes.*1 → Forall (λ k, 0 ≤ k) dyes.*1 →
  ∃ eq' inv',
    dye_slots dyes eq inv = Some (eq', inv')
    ∧ length eq' = length eq
    ∧ ∀ i, eq' !! i =
           match dict_get (Z.of_nat i) dyes with
           | Some d => set_colors [d.1; d.2] <$> eq !! i
           | None => eq !! i
           end.
Proof.
  induction dyes as [|[slot [d1 d2]] dyes IH]; intros eq inv Hnd Hpos.
  { exists eq, inv. by split_and!. }
  rewrite fmap_cons in Hnd, Hpos. cbn [fst] in *.
  apply NoDup_cons in Hnd as [Hslot Hnd]. apply Forall_cons in Hpos as [H0 Hpos].
  cbn [dye_slots dict_get]. case_bool_decide as Hlt.
  - destruct (lookup_lt_is_Some_2 eq (Z.to_nat slot)) as [g Hg]; [lia|].
    unfold py_getitem, py_setitem, py_index.
    rewrite (bool_decide_eq_false_2 (slot < 0)) by lia.
    rewrite bool_decide_eq_true_2 by lia. cbn [mbind option_bind].
    rewrite Hg. cbn [mbind option_bind].
    set (inv1 := match list_find _ inv with Some _ => _ | None => _ end).
    destruct (IH (<[Z.to_nat slot := set_colors [d1; d2] g]> eq) inv1 Hnd Hpos)
      as (eq' & inv' & -> & Hlen & Hlook).
    exists eq', inv'. split; [done|]. rewrite Hlen, length_insert. split; [done|].
    intros i. rewrite Hlook. case_bool_decide as Hi.
    + subst slot. rewrite Nat2Z.id in *. rewrite dict_get_None by done.
      rewrite list_lookup_insert_eq by lia. by rewrite Hg.
    + rewrite list_lookup_insert_ne by lia. done.
  - destruct (IH eq inv Hnd Hpos) as (eq' & inv' & -> & Hlen & Hlook).
    exists eq', inv'. split; [done|]. split; [done|].
    intros i. rewrite Hlook. case_bool_decide as Hi; [|done].
    subst slot. rewrite dict_get_None by done.
    rewrite (lookup_ge_None_2 eq i) by lia. done.
Qed.

Lemma mapM_total {A B} (f : A → option B) (g : A → B) l :
  (∀ x, x ∈ l → f x = Some (g x)) → mapM f l = Some (g <$> l).
Proof.
  intros Hf. apply mapM_Some_2. induction l as [|x l IH]; [constructor|].
  rewrite fmap_cons. constructor.
  - apply Hf. by left.
  - apply IH. intros y Hy. apply Hf. by right.
Qed.

Section dye_properties.
Context {D : DyeTable}.

(** X17: the dye packet reports the request. For dyes keyed by distinct
    slots from 0 up, on equipped items that hold a color pair, the save
    is written and one packet 0x111 is sent that gives, slot by slot,
    the requested pair for a dyed slot and the pair the item held for
    any other slot, and marks the slots the equipped list does not have
    as empty (a dye for such a slot is dropped); then the shirt and pant
    colors, which are those of the given dyes when the table knows them
    and the stored ones otherwise. *)
Theorem dye_sync_reports_request sx entity_id dyes preview_only primary_dye
    secondary_dye ci char m :
  find_char (session sx) = Some (ci, char) →
  more sx !! ci = Some m →
  NoDup dyes.*1 →
  Forall (λ k, 0 ≤ k) dyes.*1 →
  Forall (λ g, length (colors g) = 2%nat) (equippedGears char) →
  ∃ sx',
    handle_apply_dyes sx entity_id dyes preview_only primary_dye secondary_dye =
      FinishedMore sx' true
        [Built 0x111
           (Method4 entity_id
            :: concat ((λ slot, dyed_pair dyes (equippedGears char) (slot - 1))
                       <$> seqZ 1 (MAX_SLOTS - 1))
            ++ color_fields (match clothes_color primary_dye with
                             | Some color => Some color
                             | None => shirtColor m
                             end)
            ++ color_fields (match clothes_color secondary_dye with
                             | Some color => Some color
                             | None => pantColor m
                             end))].
Proof.
  intros Hf Hm Hnd Hpos Hpairs. unfold handle_apply_dyes. rewrite Hf.
  destruct (dye_slots_lookup dyes (equippedGears char) (inventoryGears char) Hnd Hpos)
    as (eq' & inv' & -> & Hlen & Hlook).
  cbn [mbind option_bind]. cbn [session more].
  rewrite (find_char_put (session sx) ci char) by done.
  rewrite list_lookup_alter_eq, Hm. cbn [fmap option_fmap option_map mbind option_bind].
  unfold send_dye_sync_packet.
  rewrite (find_char_put (session sx) ci char) by done.
  cbn [equippedGears set_inventoryGears set_equippedGears].
  rewrite (mapM_total _ (λ slot, dyed_pair dyes (equippedGears char) (slot - 1))).
  - cbn [mbind option_bind]. eexists. do 4 f_equal.
    by destruct (clothes_color primary_dye), (clothes_color secondary_dye).
  - intros slot Hslot%elem_of_seqZ. unfold dye_slot_fields, dyed_pair.
    rewrite Hlook, Z2Nat.id by lia.
    destruct (equippedGears char !! Z.to_nat (slot - 1)) as [g|] eqn:Hg.
    + rewrite Forall_forall in Hpairs.
      pose proof (Hpairs g (list_elem_of_lookup_2 _ _ _ Hg)) as Hcol.
      destruct (dict_get (slot - 1) dyes) as [[d1 d2]|]; simpl; [done|].
      destruct (colors g) as [|c1 [|c2 [|]]]; done.
    + by destruct (dict_get (slot - 1) dyes).
Qed.

(** X18: the dye request without a character. When no character of the
    save has the session's name, nothing is changed, yet the save is
    written and a packet 0x111 is sent that marks every slot and both
    clothes colors as absent. *)
Theorem dyes_without_character sx entity_id dyes preview_only primary_dye
    secondary_dye :
  find_char (session sx) = None →
  handle_apply_dyes sx entity_id dyes preview_only primary_dye secondary_dye =
    FinishedMore sx true
      [Built 0x111 (Method4 entity_id
                    :: replicate (Z.to_nat (MAX_SLOTS - 1)) (Bits 0 1)
                    ++ [Bits 0 1; Bits 0 1])].
Proof.
  intros Hf. unfold handle_apply_dyes. rewrite Hf. rewrite Hf.
  unfold send_dye_sync_packet. rewrite Hf.
  rewrite (mapM_total _ (λ _, [Bits 0 1])).
  2:{ intros slot _. unfold dye_slot_fields. by rewrite lookup_nil. }
  assert (∀ l : list Z,
            concat ((λ _, [Bits 0 1]) <$> l) = replicate (length l) (Bits 0 1)) as Hc.
  { induction l as [|x l IH]; simpl in *; [done|by f_equal]. }
  cbn [mbind option_bind color_fields]. by rewrite Hc, length_seqZ.
Qed.

Lemma dye_step_synced (h : heap) eq inv j g d1 d2 :
  (∀ i e, eq !! i = Some e → gearID e ≠ 0 → has_copy h inv e) →
  NoDup (gearID <$> inv) →
  worn_once eq →
  eq !! j = Some g →
  let g' := set_colors [d1; d2] g in
  let inv' := match list_find (λ w, gearID w = gearID g') inv with
              | Some (k, w) => <[k := set_colors [d1; d2] w]> inv
              | None => inv ++ [g']
              end in
  (∀ i e, <[j := g']> eq !! i = Some e → gearID e ≠ 0 → has_copy h inv' e)
  ∧ NoDup (gearID <$> inv')
  ∧ gearID <$> <[j := g']> eq = gearID <$> eq.
Proof.
  intros Hcopy Hnd Hworn Hg g' inv'.
  assert (gearID <$> <[j := g']> eq = gearID <$> eq) as Hids.
  { rewrite list_fmap_insert. apply list_insert_id.
    by rewrite list_lookup_fmap, Hg. }
  assert (j < length eq)%nat as Hj by by eapply lookup_lt_Some.
  split_and!; [|subst inv'|done].
  - intros i e Hi Hne.
    destruct (decide (i = j)) as [->|Hij].
    + rewrite list_lookup_insert_eq in Hi by done. injection Hi as <-.
      destruct (Hcopy j g Hg Hne) as (w0 & rs & Hw0 & Hid0 & Hrw & Hrg & Hcol).
      apply list_elem_of_lookup_1 in Hw0 as [k0 Hk0].
      subst inv'. destruct (list_find _ inv) as [[k w]|] eqn:Hfind.
      * apply list_find_Some in Hfind as (Hk & Hid & _).
        assert (k0 = k) as ->.
        { eapply (NoDup_lookup _ _ _ (gearID g)); [exact Hnd| |].
          - by rewrite list_lookup_fmap, Hk0; simpl; rewrite Hid0.
          - rewrite list_lookup_fmap, Hk. simpl. f_equal. exact Hid. }
        assert (w0 = w) as -> by congruence.
        exists (set_colors [d1; d2] w), rs. split_and!; try done.
        apply list_elem_of_lookup_2 with k. apply list_lookup_insert_eq.
        by eapply lookup_lt_Some.
      * apply list_find_None in Hfind. rewrite Forall_forall in Hfind.
        exfalso. apply (Hfind w0); [by eapply list_elem_of_lookup_2|done].
    + rewrite list_lookup_insert_ne in Hi by done.
      destruct (Hcopy i e Hi Hne) as (w0 & rs & Hw0 & Hid0 & Hrw & Hre & Hcol).
      assert (gearID e ≠ gearID g) as Hdiff.
      { intros Heq. apply Hij. apply (Hworn i j (gearID e)); [| |done].
        - by rewrite list_lookup_fmap, Hi.
        - by rewrite list_lookup_fmap, Hg; simpl; rewrite Heq. }
      exists w0, rs. split_and!; try done.
      subst inv'. destruct (list_find _ inv) as [[k w]|] eqn:Hfind.
      * apply list_find_Some in Hfind as (Hk & Hid & _).
        apply list_elem_of_lookup_1 in Hw0 as [k0 Hk0].
        apply list_elem_of_lookup_2 with k0.
        rewrite list_lookup_insert_ne; [done|].
        intros ->. rewrite Hk in Hk0. injection Hk0 as ->.
        apply Hdiff. by rewrite <- Hid0, Hid.
      * apply elem_of_app. by left.
  - destruct (list_find _ inv) as [[k w]|] eqn:Hfind.
    + apply list_find_Some in Hfind as (Hk & _ & _).
      rewrite list_fmap_insert, list_insert_id; [done|].
      by rewrite list_lookup_fmap, Hk.
    + rewrite fmap_app. apply NoDup_app. split_and!; [done| |].
      * intros id Hin [->|[]%elem_of_nil]%elem_of_cons.
        apply list_elem_of_fmap in Hin as (w & Hid & Hw).
        apply list_find_None in Hfind. rewrite Forall_forall in Hfind.
        by apply (Hfind w Hw).
      * apply NoDup_singleton.
Qed.

Lemma dye_slots_synced (h : heap) dyes : ∀ eq inv eq' inv',
  (∀ i e, eq !! i = Some e → gearID e ≠ 0 → has_copy h inv e) →
  NoDup (gearID <$> inv) →
  worn_once eq →
  dye_slots dyes eq inv = Some (eq', inv') →
  (∀ i e, eq' !! i = Some e → gearID e ≠ 0 → has_copy h inv' e)
  ∧ NoDup (gearID <$> inv')
  ∧ gearID <$> eq' = gearID <$> eq.
Proof.
  induction dyes as [|[slot [d1 d2]] dyes IH]; intros eq inv eq' inv' Hcopy Hnd Hworn Hrun.
  { injection Hrun as <- <-. by split_and!. }
  cbn [dye_slots] in Hrun. case_bool_decide; [|by eapply IH].
  unfold py_getitem, py_setitem in Hrun.
  destruct (py_index eq slot) as [j|]; [|done]. cbn [mbind option_bind] in Hrun.
  destruct (eq !! j) as [g|] eqn:Hg; [|done]. cbn [mbind option_bind] in Hrun.
  destruct (dye_step_synced h eq inv j g d1 d2 Hcopy Hnd Hworn Hg)
    as (Hcopy1 & Hnd1 & Hids1).
  assert (worn_once (<[j := set_colors [d1; d2] g]> eq)) as Hworn1.
  { unfold worn_once. by rewrite Hids1. }
  destruct (IH _ _ _ _ Hcopy1 Hnd1 Hworn1 Hrun) as (Hcopy' & Hnd' & Hids').
  split_and!; [done|done|by rewrite Hids'].
Qed.

(** X19: dyeing keeps the equipped gears and the inventory in line when
    no gear is worn twice. If every equipped gear has an inventory entry
    with the same runes and colors, the inventory has one entry per gear
    id and no gear id is worn in two slots, then after a dye request
    that returns all of this holds again: each dyed item and the
    inventory entry of its gear id carry the same new color pair. The
    equipped gear ids are as before. *)
Theorem dyes_keep_synced sx entity_id dyes preview_only primary_dye secondary_dye
    ci char sx' saved out :
  find_char (session sx) = Some (ci, char) →
  synced (store (session sx)) char →
  NoDup (gearID <$> inventoryGears char) →
  worn_once (equippedGears char) →
  handle_apply_dyes sx entity_id dyes preview_only primary_dye secondary_dye
    = FinishedMore sx' saved out →
  ∃ char',
    find_char (session sx') = Some (ci, char')
    ∧ synced (store (session sx')) char'
    ∧ NoDup (gearID <$> inventoryGears char')
    ∧ worn_once (equippedGears char')
    ∧ gearID <$> equippedGears char' = gearID <$> equippedGears char.
Proof.
  intros Hf Hsync Hnd Hworn Hrun. unfold handle_apply_dyes in Hrun.
  rewrite Hf in Hrun.
  destruct (dye_slots dyes _ _) as [[eq' inv']|] eqn:Hdye; [|done].
  cbn [mbind option_bind] in Hrun.
  destruct (send_dye_sync_packet _ _ _ _ _) as [sent|]; [|done].
  injection Hrun as <- _ _. cbn [session].
  assert (∀ i e, equippedGears char !! i = Some e → gearID e ≠ 0 →
                 has_copy (store (session sx)) (inventoryGears char) e) as Hcopy.
  { intros i e Hi Hne. apply Hsync; [|done]. by eapply list_elem_of_lookup_2. }
  destruct (dye_slots_synced (store (session sx)) dyes _ _ _ _ Hcopy Hnd Hworn Hdye)
    as (Hcopy' & Hnd' & Hids').
  eexists. split; [by apply (find_char_put (session sx) ci char)|].
  split_and!; simpl; [|done| |done].
  - intros e [i Hi]%list_elem_of_lookup_1 Hne. by eapply Hcopy'.
  - unfold worn_once. by rewrite Hids'.
Qed.

End dye_properties.

End more_properties.

(** * The scenarios of the spec on a concrete save *)

#[local] Existing Instance sample_constants.

(** C1 at a rune request on gear 5, equipped from the inventory: the
    matched item and its inventory entry hold the same runes after it. *)
Lemma socket_keeps_copy_scenario :
  find_char runesmith_session = Some (0%nat, runesmith)
  ∧ ∃ s' char' g,
      handle_rune_packet runesmith_session socket_7
      = Finished s' true [rune_echo socket_7]
      ∧ find_char s' = Some (0%nat, char')
      ∧ equippedGears char' !! 0%nat = Some g
      ∧ gearID g = 5
      ∧ has_copy (store s') (inventoryGears char') g.
Proof.
  split; [reflexivity|].
  destruct (equip_and_rune_keep_copies runesmith_session 0 runesmith eq_refl)
    as (_ & Hrune & _).
  edestruct (Hrune socket_7)
    as (char' & h0 & eq & j & g & Hf & Hfit & Heq & Hg & Hcopy & _);
    [reflexivity|].
  vm_compute in Hfit. injection Hfit as <- <-.
  vm_compute in Hg. injection Hg as <- <-.
  eexists _, char', _. split; [reflexivity|]. split; [exact Hf|].
  rewrite Heq. split; [reflexivity|]. split; [reflexivity|].
  apply Hcopy. vm_compute. by exists [0; 0; 0].
Defined.

(** C1 fails as stated. In a save (as loaded from disk) where every
    equipped gear has its inventory entry in line, a rune request on gear
    5, worn in two slots, leaves the second slot with runes that the
    inventory entry of gear 5 no longer holds; and once gear 6 is then
    equipped over the first slot, no equipped item of gear 5 agrees with
    an inventory entry of gear 5, under either reading of the claim. *)
Lemma rune_socket_leaves_stale_slot :
  synced (store worn_twice_session) worn_twice
  ∧ ∃ s1 char1 s2 char2,
      handle_rune_packet worn_twice_session socket_7
      = Finished s1 true [rune_echo socket_7]
      ∧ find_char s1 = Some (0%nat, char1)
      ∧ ¬ synced (store s1) char1
      ∧ handle_gear_packet s1 equip_6 = Finished s2 true [gear_echo equip_6]
      ∧ find_char s2 = Some (0%nat, char2)
      ∧ mkGear 5 1 1 [0; 0] ∈ equippedGears char2
      ∧ ¬ gear_id_has_copy (store s2) char2 5.
Proof.
  split.
  - intros e He Hne. exists (mkGear 5 1 6 [0; 0]), [0; 0; 0].
    simpl in He. repeat (apply elem_of_cons in He as [->|He]);
      try (by vm_compute in Hne); try (by apply elem_of_nil in He).
    + repeat split. by left.
    + repeat split. by left.
  - eexists _, _, _, _. split; [reflexivity|]. split; [reflexivity|]. split.
    { intros Hsync.
      destruct (Hsync (mkGear 5 1 1 [0; 0])) as (w & rs & Hw & _ & Hrw & Hre & _).
      - right. by left.
      - done.
      - simpl in Hw. apply list_elem_of_singleton in Hw as ->.
        vm_compute in Hrw, Hre. congruence. }
    split; [reflexivity|]. split; [reflexivity|]. split.
    { right. by left. }
    intros (e & w & rs & He & Hid & Hw & Hwid & Hrw & Hre & _).
    vm_compute in He, Hw.
    repeat (apply elem_of_cons in He as [->|He]); try (by apply elem_of_nil in He);
      try (by vm_compute in Hid).
    repeat (apply elem_of_cons in Hw as [->|Hw]); try (by apply elem_of_nil in Hw);
      try (by vm_compute in Hwid).
    vm_compute in Hrw, Hre. congruence.
Qed.

(** C2 at a save with two units of rune 7 and one remover: after
    socketing rune 7 and removing it, rune 7 is back at two units and the
    remover's entry is gone. *)
Lemma socket_then_remove_scenario :
  find_char runesmith_session = Some (0%nat, runesmith)
  ∧ charm_lookup 7 (charms runesmith) = Some 2
  ∧ charm_lookup 96 (charms runesmith) = Some 1
  ∧ ∃ s1 s2 char2,
      handle_rune_packet runesmith_session socket_7
      = Finished s1 true [rune_echo socket_7]
      ∧ handle_rune_packet s1 (remover_of socket_7)
        = Finished s2 true [rune_echo (remover_of socket_7)]
      ∧ find_char s2 = Some (0%nat, char2)
      ∧ charm_lookup 7 (charms char2) = Some 2
      ∧ charm_lookup 96 (charms char2) = None.
Proof.
  split; [reflexivity|]. split; [reflexivity|]. split; [reflexivity|].
  assert (∃ s1, handle_rune_packet runesmith_session socket_7
                = Finished s1 true [rune_echo socket_7]) as [s1 H1]
    by (eexists; reflexivity).
  destruct (socket_then_remove_restores_charms runesmith_session socket_7
              0 runesmith s1 [rune_echo socket_7] 2 1)
    as (s2 & char2 & j & g & Hrun & Hf & _ & Hlook & _);
    [reflexivity|by vm_compute|by vm_compute|by vm_compute|reflexivity|lia
    |reflexivity|lia|exact H1|].
  exists s1, s2, char2. split; [exact H1|]. split; [exact Hrun|].
  split; [exact Hf|].
  assert (NoDup (charmID <$> charms runesmith)) as Hnd by compute_done.
  split; [exact (Hlook Hnd 7)|exact (Hlook Hnd 96)].
Defined.

(** C4 at the scenario of the spec (primary 7, materials {12: 3}, no
    consumable flag, five units of material 12 held), and at the same
    request with the first two flags set, for a character that holds
    three units of consumable 2 and none of consumable 1. *)
Lemma start_forge_scenario :
  (∃ s' char',
     start_forge_packet (session_of crafter []) forge_7 = Finished s' true []
     ∧ find_char s' = Some (0%nat, char')
     ∧ materials char' = [mkMaterial 12 2]
     ∧ consumables char' = []
     ∧ magicForge char' = mkForge true 7 0 const_286 60000 0 0 0 0 true)
  ∧ ∃ s' char',
      start_forge_packet (session_of stocked []) forge_7_flagged = Finished s' true []
      ∧ find_char s' = Some (0%nat, char')
      ∧ material_lookup 12 (materials char') = Some 2
      ∧ consumable_lookup 1 (consumables char') = Some 0
      ∧ consumable_lookup 2 (consumables char') = Some 2
      ∧ consumable_lookup 3 (consumables char') = None
      ∧ consumable_lookup 4 (consumables char') = None.
Proof.
  assert (NoDup [var_1415; var_2082; var_1374; var_1462]) as Hnd by compute_done.
  split.
  - destruct (start_forge_deducts (session_of crafter []) forge_7 0 crafter
                eq_refl Hnd) as (s' & char' & Hrun & Hf & Hmf & _).
    pose proof Hrun as Hc. vm_compute in Hc. injection Hc as <-.
    pose proof Hf as Hc. vm_compute in Hc. injection Hc as <-.
    eexists _, _. split; [exact Hrun|]. split; [exact Hf|].
    split; [reflexivity|]. split; [reflexivity|exact Hmf].
  - destruct (start_forge_deducts (session_of stocked []) forge_7_flagged 0 stocked
                eq_refl Hnd)
      as (s' & char' & Hrun & Hf & _ & Hmats & _ & Hflags & Hcons & _).
    exists s', char'. split; [exact Hrun|]. split; [exact Hf|].
    split; [exact (Hmats 12)|].
    split; [exact (Hflags 0%nat true 1 eq_refl eq_refl)|].
    split; [exact (Hflags 1%nat true 2 eq_refl eq_refl)|].
    split; [exact (Hflags 2%nat false 3 eq_refl eq_refl)|].
    exact (Hflags 3%nat false 4 eq_refl eq_refl).
Defined.

(** C5 at a session in progress with 10 idols: spending 4 is accepted. *)
Lemma speed_up_scenario :
  find_char (session_of forging []) = Some (0%nat, forging)
  ∧ hasSession (magicForge forging) = true ∧ 4 ≤ mammothIdols forging
  ∧ ∃ char',
      magic_forge_packet (session_of forging []) 4
      = Finished (put_char (session_of forging []) 0 char' []) true
          [Built 0xcd [Method6 7 16; Method91 0; Method91 0; Bits 0 1]]
      ∧ mammothIdols char' = 6
      ∧ duration (magicForge char') = 0
      ∧ status (magicForge char') = const_264.
Proof.
  split; [reflexivity|]. split; [reflexivity|]. split; [by vm_compute|].
  destruct (speed_up_accepted_iff (session_of forging []) 4 0 forging eq_refl)
    as [Hacc _].
  destruct Hacc as (char' & Hrun & Hidols & Hmf & _);
    [split; [reflexivity|by vm_compute]|].
  exists char'. split; [exact Hrun|]. split; [exact Hidols|].
  rewrite Hmf. by split.
Defined.

(** C6 at the scenario of the spec: collecting the session on primary 7
    yields the charm 7 with count 1 and no session. *)
Lemma collect_scenario :
  find_char (session_of forging []) = Some (0%nat, forging)
  ∧ hasSession (magicForge forging) = true
  ∧ ∃ s' char',
      collect_forge_charm (session_of forging []) = Finished s' true [Built 0xe3 []]
      ∧ find_char s' = Some (0%nat, char')
      ∧ charms char' = [mkCharm 7 1]
      ∧ hasSession (magicForge char') = false
      ∧ magicForge char' = no_forge.
Proof.
  split; [reflexivity|]. split; [reflexivity|].
  destruct (collect_grants_and_clears (session_of forging []) 0 forging
              eq_refl eq_refl) as (cs & mf' & Hrun & _ & Hmf & _ & Hpos).
  destruct Hpos as (_ & _ & Hnew); [by vm_compute|].
  specialize (Hnew eq_refl). specialize (Hmf eq_refl). subst cs mf'.
  eexists _, _. split; [exact Hrun|]. by repeat split.
Defined.

(** C7 at a character whose tree of class 3 holds node 2 with three
    points: selecting class 3 echoes the selection and sends the tree. *)
Lemma select_class_scenario :
  find_char (session_of adept []) = Some (0%nat, adept)
  ∧ const_43 = 27
  ∧ ∃ s',
      handle_masterclass_packet (session_of adept []) 1 3
      = Finished s' true
          [Built 0xC3 [Method4 1; Method6 3 4];
           Built 0xC1 (Method4 1 :: Bits 0 1 :: Bits 1 1 :: Method6 2 5
                       :: Bits 2 2 :: replicate 25 (Bits 0 1))].
Proof.
  split; [reflexivity|]. split; [reflexivity|].
  destruct (mastery_tree_encoding (K := sample_constants) (session_of adept []) 1 0 adept
              eq_refl eq_refl)
    as (_ & _ & Hselect).
  eexists. rewrite (Hselect 3). reflexivity.
Defined.

(** C8 at a hotbar [9; 8; 7] and a packet flagging slot 0 with skill 5. *)
Lemma hotbar_scenario :
  find_char (session_of caster []) = Some (0%nat, caster)
  ∧ payload_bits hotbar_skill_5 = hotbar_wire (Some 5 :: replicate 8 None)
  ∧ Forall valid_skill (Some 5 :: replicate 8 None)
  ∧ ∃ s' char',
      handle_hotbar_packet (session_of caster []) hotbar_skill_5
      = Finished s' true []
      ∧ find_char s' = Some (0%nat, char')
      ∧ activeAbilities char' = [5; 8; 7].
Proof.
  assert (Forall valid_skill (Some 5 :: replicate 8 None)) as Hvalid.
  { simpl. repeat (constructor; [intros id [= <-]; lia|]). constructor. }
  split; [reflexivity|]. split; [reflexivity|]. split; [exact Hvalid|].
  destruct (hotbar_updates_flagged_slots (session_of caster []) hotbar_skill_5
              0 caster eq_refl) as [_ Hdeclared].
  destruct (Hdeclared (Some 5 :: replicate 8 None) eq_refl Hvalid)
    as (s' & char' & Hrun & Hf & Hlen & Hslots & _).
  exists s', char'. split; [exact Hrun|]. split; [exact Hf|].
  apply list_eq. intros i. destruct (decide (i < 3)%nat) as [Hi|Hi].
  - rewrite Hslots by (rewrite Hlen; simpl; lia).
    destruct i as [|[|[|i]]]; try reflexivity. lia.
  - rewrite !lookup_ge_None_2; [done|simpl; lia|rewrite Hlen; simpl; lia].
Defined.

(** C9 at a set of six slots: with six gears equipped the set at index
    0 takes their ids, with four gears equipped the request is dropped. *)
Lemma apply_gearset_scenario :
  sets_sized outfitter
  ∧ sets_sized four_worn
  ∧ (∃ s' char',
       handle_apply_gearset outfitter_session apply_set_0
       = Finished s' true [Raw apply_set_0]
       ∧ find_char s' = Some (0%nat, char')
       ∧ gearSets char' = [mkGearSet "GearSet 1" [11; 12; 13; 14; 15; 16]])
  ∧ handle_apply_gearset (session_of four_worn []) apply_set_0
    = Finished (session_of four_worn []) false [].
Proof.
  assert (sets_sized outfitter) as Hsix.
  { unfold sets_sized. simpl. constructor; [reflexivity|constructor]. }
  assert (sets_sized four_worn) as Hfour.
  { unfold sets_sized. simpl. constructor; [reflexivity|constructor]. }
  split; [exact Hsix|]. split; [exact Hfour|]. split.
  - destruct (apply_gearset_guard (K := sample_constants) outfitter_session
                apply_set_0 0 [false; false; false; false; false] 0 outfitter
                eq_refl eq_refl Hsix) as [Happly _].
    destruct (Happly _ eq_refl eq_refl) as (s' & char' & Hrun & Hf & Hsets & _).
    exists s', char'. split; [exact Hrun|]. split; [exact Hf|].
    rewrite Hsets. reflexivity.
  - destruct (apply_gearset_guard (K := sample_constants) (session_of four_worn [])
                apply_set_0 0 [false; false; false; false; false] 0 four_worn
                eq_refl eq_refl Hfour) as (_ & Hdrop & _).
    apply (Hdrop (mkGearSet "GearSet 1" [0; 0; 0; 0; 0; 0]) eq_refl).
    simpl. lia.
Defined.

(** C10 at a request naming rune slot 0 of an equipped gear. *)
Lemma rune_slot_0_scenario :
  ¬ (1 ≤ r_slot (mkRuneReq 1 5 1 7 0) ≤ 3)
  ∧ ∃ s' char',
      handle_rune_packet runesmith_session (mkRuneReq 1 5 1 7 0)
      = Finished s' false []
      ∧ find_char s' = Some (0%nat, char')
      ∧ charms char' = charms runesmith
      ∧ inventoryGears char' = inventoryGears runesmith
      ∧ store s' !! 0%nat = Some [0; 0; 0].
Proof.
  assert (¬ (1 ≤ r_slot (mkRuneReq 1 5 1 7 0) ≤ 3)) as Hslot by (simpl; lia).
  split; [exact Hslot|].
  pose proof (rune_slot_out_of_range_ignored runesmith_session
                (mkRuneReq 1 5 1 7 0) Hslot) as Hrun.
  change (find_char runesmith_session) with (Some (0%nat, runesmith)) in Hrun.
  destruct Hrun as (h' & eq' & Hfit & Hrun & Hstore & Hcharms & Hinv).
  eexists _, _. split; [exact Hrun|]. split; [reflexivity|].
  split; [exact Hcharms|]. split; [exact Hinv|]. by apply Hstore.
Defined.

(** C3 at the scenario of the spec: gear 42 into slot 1 of a new
    character. *)
Lemma equip_42_scenario :
  find_char (session_of hero []) = Some (0%nat, hero)
  ∧ g_slot1 equip_42 = 1
  ∧ Forall (λ g, gearID g ≠ g_gear equip_42) (inventoryGears hero)
  ∧ ∃ s' char',
      handle_gear_packet (session_of hero []) equip_42
      = Finished s' true [Built 0x31 [Method4 1; Bits 0 3; Bits 1 2; Method6 42 11]]
      ∧ find_char s' = Some (0%nat, char')
      ∧ equippedGears char' !! 0%nat = Some (placeholder 42 6)
      ∧ inventoryGears char' = [placeholder 42 6]
      ∧ store s' !! 6%nat = Some [0; 0; 0].
Proof.
  split; [reflexivity|]. split; [reflexivity|]. split; [constructor|].
  destruct (equip_unknown_gear_placeholder (session_of hero []) equip_42 0 hero
              eq_refl eq_refl (Forall_nil_2 _)) as (h' & l & Hrun & _).
  pose proof Hrun as Hc. vm_compute in Hc. simplify_eq.
  eexists _, _. split; [exact Hrun|].
  vm_compute. repeat split.
Defined.

(** ** Further scenarios *)

#[local] Existing Instance byte_text.

(** X1 on a character with 10 idols: start on primary 7, speed-up for 4
    idols, collect. *)
Lemma forge_full_cycle_scenario :
  ∃ s1 s2 s3 char3,
    start_forge_packet (session_of patron []) forge_7 = Finished s1 true []
    ∧ magic_forge_packet s1 4 =
        Finished s2 true [Built 0xcd [Method6 7 16; Method91 0; Method91 0; Bits 0 1]]
    ∧ collect_forge_charm s2 = Finished s3 true [Built 0xe3 []]
    ∧ find_char s3 = Some (0%nat, char3)
    ∧ magicForge char3 = no_forge
    ∧ mammothIdols char3 = 6
    ∧ charm_total 7 (charms char3) = 1.
Proof.
  destruct (forge_full_cycle (K := sample_constants) (session_of patron [])
              forge_7 4 0%nat patron eq_refl)
    as (s1 & s2 & s3 & char3 & H1 & H2 & H3 & Hf & Hmf & Hid & _ & Hch);
    [simpl; lia|].
  exists s1, s2, s3, char3. split_and!; [exact H1|exact H2|exact H3|exact Hf|exact Hmf| |].
  - rewrite Hid. reflexivity.
  - rewrite Hch by (simpl; lia). reflexivity.
Defined.

(** X2: start on three units of material 12 out of five, then cancel. *)
Lemma start_then_cancel_scenario :
  ∃ s1 s2 char2,
    start_forge_packet (session_of crafter []) forge_7 = Finished s1 true []
    ∧ cancel_forge_packet s1 = Finished s2 true []
    ∧ find_char s2 = Some (0%nat, char2)
    ∧ magicForge char2 = no_forge
    ∧ material_lookup 12 (materials char2) = Some 2.
Proof.
  destruct (start_then_cancel_no_refund (K := sample_constants)
              (session_of crafter []) forge_7 0%nat crafter eq_refl)
    as (s1 & s2 & char2 & H1 & H2 & Hf & Hmf & Hmat & _).
  exists s1, s2, char2. split_and!; [exact H1|exact H2|exact Hf|exact Hmf|].
  rewrite Hmat. reflexivity.
Defined.

(** X3 on the session in progress on primary 7. *)
Lemma collect_only_once_scenario :
  ∃ s1,
    collect_forge_charm (session_of forging []) = Finished s1 true [Built 0xe3 []]
    ∧ collect_forge_charm s1 = Finished s1 false []
    ∧ magic_forge_packet s1 3 = Finished s1 false [].
Proof.
  exact (collect_only_once (K := sample_constants) (session_of forging [])
           0%nat forging 3 eq_refl eq_refl).
Defined.

(** X4 on the session in progress, with 10 idols: 4 idols, then 5. *)
Lemma speed_up_twice_scenario :
  ∃ s1 s2 char2 reply,
    magic_forge_packet (session_of forging []) 4 = Finished s1 true [reply]
    ∧ magic_forge_packet s1 5 = Finished s2 true [reply]
    ∧ find_char s2 = Some (0%nat, char2)
    ∧ mammothIdols char2 = 1.
Proof.
  destruct (speed_up_twice_debits_twice (K := sample_constants)
              (session_of forging []) 0%nat forging 4 5 eq_refl eq_refl)
    as (s1 & s2 & char2 & reply & H1 & H2 & Hf & Hid & _); [simpl; lia..|].
  exists s1, s2, char2, reply. split_and!; [exact H1|exact H2|exact Hf|].
  rewrite Hid. reflexivity.
Defined.

(** X5 at an apply request on a character whose one set has six slots. *)
Lemma gear_sets_stay_sized_scenario :
  sets_sized outfitter
  ∧ ∃ s' char',
      handle_apply_gearset outfitter_session apply_set_0
        = Finished s' true [Raw apply_set_0]
      ∧ find_char s' = Some (0%nat, char')
      ∧ sets_sized char'.
Proof.
  assert (sets_sized outfitter) as Hsized.
  { unfold sets_sized. simpl. constructor; [reflexivity|constructor]. }
  split; [exact Hsized|].
  destruct (gear_sets_stay_sized (K := sample_constants) outfitter_session
              apply_set_0 0%nat outfitter _ _ _ ltac:(simpl; lia) eq_refl Hsized
              (or_intror (or_intror eq_refl)))
    as (char' & Hf & Hs).
  eexists _, char'. split; [reflexivity|]. split; [exact Hf|exact Hs].
Defined.

(** X6: with one set stored, creating set 1 and applying to it stores
    the six equipped ids under the name ["GearSet 2"]. *)
Lemma create_then_apply_scenario :
  ∃ s1 s2 char2,
    handle_create_gearset outfitter_session create_set_1
      = Finished s1 true [Raw create_set_1]
    ∧ handle_apply_gearset s1 apply_set_1 = Finished s2 true [Raw apply_set_1]
    ∧ find_char s2 = Some (0%nat, char2)
    ∧ gearSets char2 !! 1%nat = Some (mkGearSet "GearSet 2" [11; 12; 13; 14; 15; 16]).
Proof.
  destruct (create_then_apply_gearset (K := sample_constants) outfitter_session
              create_set_1 apply_set_1 1 _ _ 0%nat outfitter eq_refl eq_refl eq_refl)
    as (s1 & char1 & H1 & _ & Happly & _).
  destruct Happly as (s2 & char2 & H2 & Hf & Hset); [simpl; lia|reflexivity|].
  exists s1, s2, char2. split_and!; [exact H1|exact H2|exact Hf|exact Hset].
Defined.

(** X7: the packet that names set 0 ["Hi"]. *)
Lemma name_gearset_scenario :
  payload_bits name_set_0 = name_wire 0 [72; 105] ++ replicate 5 false
  ∧ ∃ s' char',
      handle_name_gearset outfitter_session name_set_0
        = Finished s' true [Raw name_set_0]
      ∧ find_char s' = Some (0%nat, char')
      ∧ gearSets char' = [mkGearSet "Hi" [0; 0; 0; 0; 0; 0]].
Proof.
  split; [reflexivity|].
  destruct (name_gearset_renames (T := byte_text) outfitter_session
              name_set_0 0 [72; 105] (replicate 5 false) 0%nat outfitter eq_refl)
    as [Hname _].
  - lia.
  - simpl. lia.
  - repeat constructor; lia.
  - reflexivity.
  - destruct (Hname (mkGearSet "GearSet 1" [0; 0; 0; 0; 0; 0]) eq_refl)
      as (s' & char' & Hrun & Hf & Hsets & _).
    exists s', char'. split_and!; [exact Hrun|exact Hf|].
    rewrite Hsets. reflexivity.
Defined.

(** X8: a name packet that declares five bytes and carries none is
    dropped. *)
Lemma name_cut_short_scenario :
  (19 ≤ length (payload_bits name_cut_short))%nat
  ∧ handle_name_gearset outfitter_session name_cut_short
    = Finished outfitter_session false [].
Proof.
  split; [vm_compute; lia|].
  destruct (name_gearset_only_names (T := byte_text) outfitter_session
              name_cut_short 0%nat outfitter) as [Hrun|(s' & char' & Hrun & _)].
  - vm_compute. lia.
  - reflexivity.
  - exact Hrun.
  - vm_compute in Hrun. discriminate Hrun.
Defined.

(** X9: gear 12 into slot 0 and the unknown gear 99 into slot 5. *)
Lemma update_equipment_scenario :
  ∃ s' char',
    handle_update_equipment outfitter_session [0; 48; 0; 5] (equip_wire swap_two)
      = Finished s' true [Raw [0; 48; 0; 5]]
    ∧ find_char s' = Some (0%nat, char')
    ∧ inventoryGears char' = six_gears
    ∧ equippedGears char' !! 0%nat = Some (mkGear 12 0 1 [0; 0])
    ∧ equippedGears char' !! 1%nat = Some (mkGear 12 0 1 [0; 0])
    ∧ equippedGears char' !! 5%nat = Some (default_gear 6).
Proof.
  destruct (update_equipment_wire (K := sample_constants) outfitter_session
              [0; 48; 0; 5] swap_two [] 0%nat outfitter
              (replicate 6 [0; 0; 0]) six_gears eq_refl)
    as (s' & char' & Hrun & Hf & Hinv & _ & Hslots).
  - simpl. lia.
  - reflexivity.
  - repeat (apply Forall_cons_2;
              [intros id Hid; try discriminate Hid; injection Hid as <-; simpl; lia|]).
    apply Forall_nil_2.
  - reflexivity.
  - rewrite app_nil_r in Hrun. pose proof Hrun as Hc. vm_compute in Hc.
    injection Hc as <-.
    pose proof Hf as Hc. vm_compute in Hc. injection Hc as <-.
    eexists _, _. split_and!; [exact Hrun|exact Hf|reflexivity..].
Defined.

(** X10: one bit where six slots are expected. *)
Lemma update_equipment_short_scenario :
  handle_update_equipment outfitter_session [0; 48; 0; 1] [true]
  = Finished outfitter_session false [].
Proof.
  destruct (update_equipment_short_dropped (K := sample_constants)
              outfitter_session [0; 48; 0; 1] [true] 0%nat outfitter eq_refl)
    as (s' & char' & Hrun & _ & _ & Hsame); [simpl; lia|].
  rewrite <- (Hsame eq_refl) at 2. exact Hrun.
Defined.

(** X11 on the six gears equipped from the inventory. *)
Lemma update_equipment_synced_scenario :
  stored (store outfitter_session) six_gears
  ∧ synced (store outfitter_session) outfitter
  ∧ ∃ s' char',
      handle_update_equipment outfitter_session [0; 48; 0; 5] (equip_wire swap_two)
        = Finished s' true [Raw [0; 48; 0; 5]]
      ∧ find_char s' = Some (0%nat, char')
      ∧ inventoryGears char' = six_gears
      ∧ synced (store s') char'.
Proof.
  assert (stored (store outfitter_session) six_gears) as Hstored.
  { unfold stored. repeat constructor; by exists [0; 0; 0]. }
  assert (synced (store outfitter_session) outfitter) as Hsynced.
  { intros e He _. exists e, [0; 0; 0]. simpl in He.
    split; [exact He|]. split; [reflexivity|].
    repeat (apply elem_of_cons in He as [->|He]); try (by split_and!);
      by apply elem_of_nil in He. }
  split; [exact Hstored|]. split; [exact Hsynced|].
  edestruct (update_equipment_keeps_synced (K := sample_constants) outfitter_session
               [0; 48; 0; 5] (equip_wire swap_two) 0%nat outfitter)
    as (char' & Hf & Hinv & _ & Hs);
    [reflexivity|simpl; lia|exact Hstored|exact Hsynced|reflexivity|].
  eexists _, char'. split; [reflexivity|].
  split; [exact Hf|]. split; [exact Hinv|exact Hs].
Defined.

#[local] Existing Instance sample_dyes.

(** X12 on two units of rune 7: socketing one leaves one. *)
Lemma rune_charm_ledger_scenario :
  charms_ok (charms runesmith)
  ∧ ∃ s' char',
      handle_rune_packet runesmith_session socket_7
        = Finished s' true [rune_echo socket_7]
      ∧ find_char s' = Some (0%nat, char')
      ∧ charm_total 7 (charms char') = 1
      ∧ charm_total 96 (charms char') = 1.
Proof.
  assert (charms_ok (charms runesmith)) as Hok.
  { split; [compute_done|]. simpl. repeat constructor. }
  split; [exact Hok|].
  destruct (rune_charm_ledger (K := sample_constants) runesmith_session socket_7
              0%nat runesmith _ _ eq_refl Hok eq_refl)
    as (char' & h0 & eq & j & g & old & Hf & _ & _ & Hold & _ & Hledger).
  eexists _, char'. split; [reflexivity|]. split; [exact Hf|].
  rewrite !Hledger. split; reflexivity.
Defined.

(** X13 at the same rune request. *)
Lemma charms_stay_well_formed_scenario :
  ∃ s' char',
    handle_rune_packet runesmith_session socket_7
      = Finished s' true [rune_echo socket_7]
    ∧ find_char s' = Some (0%nat, char')
    ∧ charms_ok (charms char').
Proof.
  assert (charms_ok (charms runesmith)) as Hok.
  { split; [compute_done|]. simpl. repeat constructor. }
  destruct (charms_stay_well_formed (K := sample_constants) runesmith_session
              socket_7 0%nat runesmith _ _ _ eq_refl Hok (or_introl eq_refl))
    as (char' & Hf & Hok').
  eexists _, char'. split; [reflexivity|]. split; [exact Hf|exact Hok'].
Defined.

(** X14 on a new character: [slot1 = 0] equips the last of the six
    slots, [slot1 = 9] raises with nothing saved or sent. *)
Lemma equip_slot_bounds_scenario :
  (handle_gear_packet (session_of hero []) equip_slot_9 = Raised
   ∧ persisted (handle_gear_packet (session_of hero []) equip_slot_9) = false
   ∧ replies (handle_gear_packet (session_of hero []) equip_slot_9) = [])
  ∧ ∃ s' char' e,
      handle_gear_packet (session_of hero []) equip_slot_0
        = Finished s' true [gear_echo equip_slot_0]
      ∧ find_char s' = Some (0%nat, char')
      ∧ equippedGears char' !! 5%nat = Some e
      ∧ gearID e = 42.
Proof.
  split.
  - destruct (equip_slot_bounds (K := sample_constants) (session_of hero [])
                equip_slot_9 0%nat hero eq_refl) as [Hraise _]; [simpl; lia|].
    apply Hraise. simpl. lia.
  - destruct (equip_slot_bounds (K := sample_constants) (session_of hero [])
                equip_slot_0 0%nat hero eq_refl) as [_ Hfits]; [simpl; lia|].
    destruct Hfits as (s' & char' & e & Hrun & Hf & _ & He & Hid); [simpl; lia|].
    exists s', char', e. split_and!; [exact Hrun|exact Hf|exact He|exact Hid].
Defined.

(** X15 on gear 5, equipped from the inventory. *)
Lemma rune_lists_stay_whole_scenario :
  runes_whole (store runesmith_session) runesmith
  ∧ handle_rune_packet runesmith_session socket_7 ≠ Raised
  ∧ ∃ s' char',
      handle_rune_packet runesmith_session socket_7
        = Finished s' true [rune_echo socket_7]
      ∧ find_char s' = Some (0%nat, char')
      ∧ runes_whole (store s') char'.
Proof.
  assert (runes_whole (store runesmith_session) runesmith) as Hwhole.
  { split; (constructor; [by exists [0; 0; 0]|constructor]). }
  split; [exact Hwhole|].
  destruct (rune_lists_stay_whole (K := sample_constants) runesmith_session
              0%nat runesmith eq_refl Hwhole) as [Hsafe Hkeep].
  split; [apply Hsafe|].
  destruct (Hkeep equip_42 socket_7 [] [] _ _ _ (or_intror (or_introl eq_refl)))
    as (char' & Hf & Hw).
  eexists _, char'. split; [reflexivity|]. split; [exact Hf|exact Hw].
Defined.

(** X16: the values 1 to 5, with bits set above bit 20. *)
Lemma talent_points_scenario :
  ∃ sx',
    allocate_talent_points outfitter_more (pack_points [1; 2; 3; 4; 5] + 7 * 2 ^ 20)
      = FinishedMore sx' true []
    ∧ more sx' !! 0%nat = Some (mkMore None (Some 5) (Some [1; 2; 3; 4; 5])).
Proof.
  destruct (talent_points_round_trip outfitter_more 0%nat outfitter eq_refl)
    as [_ Hpacked].
  apply (Hpacked [1; 2; 3; 4; 5] 7 (mkMore None (Some 5) None)).
  - reflexivity.
  - repeat (apply Forall_cons_2; [lia|]). apply Forall_nil_2.
  - reflexivity.
Defined.

(** X17: slot 1 dyed (7, 9), the shirt dyed with the known dye 3, the
    pants with the unknown dye 4. *)
Lemma dye_sync_scenario :
  ∃ sx',
    handle_apply_dyes outfitter_more 1 dye_slot_1 false (Some 3) (Some 4)
    = FinishedMore sx' true
        [Built 0x111
           [Method4 1;
            Bits 1 1; Method6 0 8; Method6 0 8;
            Bits 1 1; Method6 7 8; Method6 9 8;
            Bits 1 1; Method6 0 8; Method6 0 8;
            Bits 1 1; Method6 0 8; Method6 0 8;
            Bits 1 1; Method6 0 8; Method6 0 8;
            Bits 1 1; Method6 0 8; Method6 0 8;
            Bits 1 1; Method6 0xFF0000 24;
            Bits 1 1; Method6 5 24]].
Proof.
  destruct (dye_sync_reports_request (K := sample_constants) (D := sample_dyes)
              outfitter_more 1 dye_slot_1 false (Some 3) (Some 4) 0%nat outfitter
              (mkMore None (Some 5) None) eq_refl eq_refl)
    as (sx' & Hrun).
  - compute_done.
  - repeat (apply Forall_cons_2; [simpl; lia|]). apply Forall_nil_2.
  - repeat (apply Forall_cons_2; [reflexivity|]). apply Forall_nil_2.
  - exists sx'. exact Hrun.
Defined.

(** X18 on a session named after no character. *)
Lemma dyes_without_character_scenario :
  handle_apply_dyes ghost_more 1 dye_slot_1 false (Some 3) None
  = FinishedMore ghost_more true
      [Built 0x111 [Method4 1; Bits 0 1; Bits 0 1; Bits 0 1; Bits 0 1; Bits 0 1;
                    Bits 0 1; Bits 0 1; Bits 0 1]].
Proof.
  exact (dyes_without_character (K := sample_constants) (D := sample_dyes)
           ghost_more 1 dye_slot_1 false (Some 3) None eq_refl).
Defined.

(** X19 on six different gears, each with its inventory entry. *)
Lemma dyes_keep_synced_scenario :
  synced (store outfitter_session) outfitter
  ∧ worn_once six_gears
  ∧ ∃ sx' out char',
      handle_apply_dyes outfitter_more 1 dye_slot_1 false (Some 3) (Some 4)
        = FinishedMore sx' true out
      ∧ find_char (session sx') = Some (0%nat, char')
      ∧ synced (store (session sx')) char'.
Proof.
  assert (synced (store outfitter_session) outfitter) as Hsynced.
  { intros e He _. exists e, [0; 0; 0]. simpl in He.
    split; [exact He|]. split; [reflexivity|].
    repeat (apply elem_of_cons in He as [->|He]); try (by split_and!);
      by apply elem_of_nil in He. }
  assert (NoDup (gearID <$> six_gears)) as Hids by compute_done.
  assert (worn_once six_gears) as Hworn.
  { intros i j id Hi Hj _. by eapply NoDup_lookup. }
  split; [exact Hsynced|]. split; [exact Hworn|].
  destruct (dyes_keep_synced (K := sample_constants) (D := sample_dyes)
              outfitter_more 1 dye_slot_1 false (Some 3) (Some 4) 0%nat outfitter
              _ _ _ eq_refl Hsynced Hids Hworn eq_refl)
    as (char' & Hf & Hs & _).
  eexists _, _, char'. split; [reflexivity|]. split; [exact Hf|exact Hs].
Defined.

(** X20: two start requests for three units of material 12, of which
    five are held. *)
Lemma start_twice_scenario :
  ∃ s1 s2 char2,
    start_forge_packet (session_of crafter []) forge_7 = Finished s1 true []
    ∧ start_forge_packet s1 forge_7 = Finished s2 true []
    ∧ find_char s2 = Some (0%nat, char2)
    ∧ material_lookup 12 (materials char2) = Some 0.
Proof.
  destruct (start_twice_deducts_twice (K := sample_constants)
              (session_of crafter []) forge_7 forge_7 0%nat crafter eq_refl)
    as (s1 & s2 & char2 & H1 & H2 & Hf & _ & _ & _ & Hmat).
  exists s1, s2, char2. split_and!; [exact H1|exact H2|exact Hf|].
  rewrite Hmat. reflexivity.
Defined.

(** X21 on the packet that flags slot 0 with skill 5. *)
Lemma hotbar_twice_scenario :
  ∃ s1,
    handle_hotbar_packet (session_of caster []) hotbar_skill_5 = Finished s1 true []
    ∧ handle_hotbar_packet s1 hotbar_skill_5 = Finished s1 true [].
Proof.
  eexists. split; [reflexivity|].
  exact (hotbar_packet_idempotent (session_of caster []) hotbar_skill_5 0%nat caster
           _ eq_refl eq_refl).
Defined.

(** X22: gear 42 equipped twice into slot 1 of a new character. *)
Lemma equip_twice_scenario :
  ∃ s1,
    handle_gear_packet (session_of hero []) equip_42
      = Finished s1 true [gear_echo equip_42]
    ∧ handle_gear_packet s1 equip_42 = Finished s1 true [gear_echo equip_42].
Proof.
  eexists. split; [reflexivity|].
  exact (equip_idempotent (K := sample_constants) (session_of hero []) equip_42
           0%nat hero _ _ _ eq_refl eq_refl).
Defined.

(** X23: the bulk update of two slots, then the equipped gears applied
    to set 0. *)
Lemma update_then_apply_scenario :
  ∃ s1 s2 char2,
    handle_update_equipment outfitter_session [0; 48; 0; 5] (equip_wire swap_two)
      = Finished s1 true [Raw [0; 48; 0; 5]]
    ∧ handle_apply_gearset s1 apply_set_0 = Finished s2 true [Raw apply_set_0]
    ∧ find_char s2 = Some (0%nat, char2)
    ∧ gearSets char2 = [mkGearSet "GearSet 1" [12; 12; 13; 14; 15; 0]].
Proof.
  edestruct (update_then_apply_gearset (K := sample_constants) outfitter_session
               [0; 48; 0; 5] (equip_wire swap_two) apply_set_0 0
               (replicate 5 false) 0%nat outfitter)
    as (s2 & char1 & char2 & g & Hrun & _ & Hf & _);
    [reflexivity|simpl; lia|reflexivity|reflexivity|simpl; lia|].
  pose proof Hrun as Hc. vm_compute in Hc. injection Hc as <-.
  pose proof Hf as Hc. vm_compute in Hc. injection Hc as <-.
  eexists _, _, _. split; [reflexivity|]. split; [exact Hrun|].
  split; [exact Hf|reflexivity].
Defined.
